(** * Annotation overlay of the document viewer

    A shallow embedding of the highlighting routine of
    [src/components/document-viewer.tsx] ([processContent] and the click
    handler of [DocumentViewer]) and of the clause-type converters of
    [src/lib/api.ts], with the properties the specification states about
    them.

    Conventions of the embedding:
    - a JavaScript string is a [string]; one character stands for one
      UTF-16 code unit, so [String.length] is [.length], and the strings
      are those whose code units are below 256;
    - a JavaScript number that holds an offset or a confidence is an
      integer of [Z], taken in the range in which JavaScript holds integers
      exactly and prints every digit of them (below 2^53 in absolute
      value); [NaN], which only [parseInt] can produce here, is [None];
    - the parsed HTML document is a tree of [Node]s; the browser's parser
      and serialiser ([DOMParser], [innerHTML]) are outside the model, the
      routine is modelled from the parsed body to the rewritten body;
    - [console.log] is a list of [LogEntry], oldest first. *)

From Stdlib Require Import ZArith Ascii String List Bool Lia Sorted.
From Stdlib Require Import DecimalString DecimalZ.
From stdpp Require Import base list strings gmap.

Local Open Scope Z_scope.

(** ** JavaScript strings and numbers *)

Module JS.

(** The first [n] code units of [s]. *)
Fixpoint take (n : nat) (s : string) : string :=
  match n, s with
  | O, _ => EmptyString
  | S _, EmptyString => EmptyString
  | S n', String c s' => String c (take n' s')
  end.

(** [s] without its first [n] code units. *)
Fixpoint drop (n : nat) (s : string) : string :=
  match n, s with
  | O, _ => s
  | S _, EmptyString => EmptyString
  | S n', String _ s' => drop n' s'
  end.

Definition length (s : string) : Z := Z.of_nat (String.length s).

(** An index argument of [substring] is clamped to [0 .. length]. *)
Definition clamp (s : string) (i : Z) : Z := Z.min (Z.max i 0) (length s).

(** [s.substring(a, b)]: both indices are clamped, and swapped when the
    first is the larger one. *)
Definition substring (s : string) (a b : Z) : string :=
  let from := Z.min (clamp s a) (clamp s b) in
  let to := Z.max (clamp s a) (clamp s b) in
  take (Z.to_nat (to - from)) (drop (Z.to_nat from) s).

(** [s.substring(a)]: the end index defaults to the length. *)
Definition substring_from (s : string) (a : Z) : string :=
  substring s a (length s).

(** Truthiness of a string: the empty string is falsy. *)
Definition truthy (s : string) : bool :=
  match s with EmptyString => false | String _ _ => true end.

(** [n.toString()] and the template conversion of an integer: its decimal
    numeral, with a leading minus sign when negative.  This is what
    JavaScript prints for the integers of the embedding; from 10^21 on it
    prints a number in exponent form, which is outside the embedding. *)
Definition toString (n : Z) : string := NilZero.string_of_int (Z.to_int n).

(** White space that [parseInt] skips and [trim] takes off: of the code
    units below 256, tab, line feed, vertical tab, form feed, carriage
    return, space and the no-break space. *)
Definition isWhiteSpace (c : ascii) : bool :=
  let n := nat_of_ascii c in
  ((9 <=? n) && (n <=? 13))%nat || (n =? 32)%nat || (n =? 160)%nat.

Fixpoint trimStart (s : string) : string :=
  match s with
  | String c s' => if isWhiteSpace c then trimStart s' else s
  | EmptyString => EmptyString
  end.

(** The value of a digit in the given radix, if it is one. *)
Definition digitValue (radix : Z) (c : ascii) : option Z :=
  let n := Z.of_nat (nat_of_ascii c) in
  let v :=
    if (48 <=? n) && (n <=? 57) then Some (n - 48)
    else if (97 <=? n) && (n <=? 122) then Some (n - 87)
    else if (65 <=? n) && (n <=? 90) then Some (n - 55)
    else None in
  match v with
  | Some d => if d <? radix then Some d else None
  | None => None
  end.

(** The longest prefix of digits, read in the radix, with the number of
    digits read carried in the option: [None] when there is none. *)
Fixpoint digits (radix : Z) (acc : option Z) (s : string) : option Z :=
  match s with
  | String c s' =>
      match digitValue radix c with
      | Some d => digits radix (Some (radix * default 0 acc + d)) s'
      | None => acc
      end
  | EmptyString => acc
  end.

(** [parseInt(s)] without a radix: leading white space, an optional sign,
    an optional [0x] prefix that selects radix 16, then the longest run of
    digits; [None] is [NaN]. *)
Definition parseInt (s : string) : option Z :=
  let s1 := trimStart s in
  let '(sign, s2) :=
    match s1 with
    | String "-" r => (-1, r)
    | String "+" r => (1, r)
    | _ => (1, s1)
    end in
  let '(radix, s3) :=
    match s2 with
    | String "0" (String "x" r) => (16, r)
    | String "0" (String "X" r) => (16, r)
    | _ => (10, s2)
    end in
  match digits radix None s3 with
  | Some v => Some (sign * v)
  | None => None
  end.

End JS.

(** ** Clause-type encodings ([src/lib/api.ts]) *)

(** [s.replace(/a/g, b)] for a pattern of one literal character. *)
Fixpoint replaceAll (a b : ascii) (s : string) : string :=
  match s with
  | EmptyString => EmptyString
  | String c s' => String (if Ascii.eqb c a then b else c) (replaceAll a b s')
  end.

(** Backend clause type (snake_case) to frontend clause type (kebab-case). *)
Definition convertClauseTypeToFrontendFormat (clauseType : string) : string :=
  replaceAll "_" "-" clauseType.

(** Frontend clause type (kebab-case) to backend clause type (snake_case). *)
Definition convertClauseTypeToBackendFormat (clauseType : string) : string :=
  replaceAll "-" "_" clauseType.

(** [c] occurs in [s]. *)
Fixpoint occurs (c : ascii) (s : string) : bool :=
  match s with
  | EmptyString => false
  | String d s' => Ascii.eqb d c || occurs c s'
  end.


(** ** The document tree *)

(** A node of the parsed document: a text node or an element with its tag
    name, its attributes in source order and its children. *)
#[local] Unset Elimination Schemes.
Inductive Node : Type :=
| Text (data : string)
| Element (tagName : string) (attributes : list (string * string))
          (childNodes : list Node).
#[local] Set Elimination Schemes.

(** [node.textContent]: the text of all descendants, in document order. *)
Fixpoint textContent (n : Node) : string :=
  match n with
  | Text data => data
  | Element _ _ childNodes =>
      fold_right (fun c acc => textContent c +:+ acc) EmptyString childNodes
  end.

(** [element.getAttribute(name)]; [None] is [null]. *)
Fixpoint getAttribute (name : string) (attributes : list (string * string))
  : option string :=
  match attributes with
  | [] => None
  | (k, v) :: rest => if String.eqb k name then Some v else getAttribute name rest
  end.

Definition hasAttribute (name : string) (attributes : list (string * string))
  : bool :=
  match getAttribute name attributes with Some _ => true | None => false end.

(** The selector [span[data-start][data-end]]. *)
Definition matchesSelector (tagName : string)
    (attributes : list (string * string)) : bool :=
  String.eqb tagName "span"
  && hasAttribute "data-start" attributes
  && hasAttribute "data-end" attributes.

(** [doc.querySelectorAll('span[data-start][data-end]')]: the matching
    elements in document order (a static list, taken before the loop). *)
Fixpoint querySelectorAll (n : Node) : list Node :=
  match n with
  | Text _ => []
  | Element tagName attributes childNodes =>
      (if matchesSelector tagName attributes then [n] else [])
      ++ flat_map querySelectorAll childNodes
  end.

(** [getAttribute(name) || '0']: [null] and the empty string give ['0']. *)
Definition attributeOrZero (name : string)
    (attributes : list (string * string)) : string :=
  match getAttribute name attributes with
  | Some v => if JS.truthy v then v else "0"
  | None => "0"
  end.

(** ** Annotations and the clause catalog *)

Record Position : Type := { start : Z; end_ : Z }.

(** An element of [document.clauses] or of [userAnnotations]; [user] is
    absent (falsy) on detected clauses. *)
Record Annotation : Type := {
  type : string;
  selected_text : string;
  reason : string;
  confidence : Z;
  position : option Position;
  user : bool
}.

(** An entry of the [clauses] property.  The highlighting routine reads
    [name] and [color] inside template literals only, so a value is given by
    what the two print there. *)
Record ClauseInfo : Type := { name : string; color : string }.

(** The names every object literal inherits from [Object.prototype]: a
    lookup of one of them finds the inherited member, a function or an
    object, not a string. *)
Definition inheritedNames : list string :=
  ["constructor"; "__defineGetter__"; "__defineSetter__"; "hasOwnProperty";
   "__lookupGetter__"; "__lookupSetter__"; "isPrototypeOf";
   "propertyIsEnumerable"; "toString"; "valueOf"; "__proto__";
   "toLocaleString"].

(** The member a lookup finds under an inherited name, by what its [name]
    and [color] print in a template literal.  The members are functions,
    whose [name] is the name of the function and whose [color] is
    [undefined]; [constructor] is the function [Object]; [__proto__] is the
    prototype object, which has neither. *)
Definition inheritedMember (key : string) : ClauseInfo :=
  {| name := if String.eqb key "constructor" then "Object"
             else if String.eqb key "__proto__" then "undefined"
             else key;
     color := "undefined" |}.

(** What the lookups [clauses[key]] find on an object literal, given its
    entries in the order of [Object.entries]: the entry of the object under
    a key of its own, the inherited member under an inherited name that is
    no key of its own, and nothing, [undefined], under any other key. *)
Definition objectLiteral (entries : list (string * ClauseInfo))
  : gmap string ClauseInfo :=
  union (list_to_map entries)
    (list_to_map (map (fun key => (key, inheritedMember key)) inheritedNames)).

(** The calls of [console.log] in [processContent]. *)
Inductive LogEntry : Type :=
| AnnotationsToHighlight (count : nat)
| AnnotationMissingPosition (type : string) (text : string)
| LookingToHighlight (start end_ : Z) (text : string)
| InvalidRelativePositions (relativeStart relativeEnd length : Z)
| NoTextToHighlight
| FoundTextToHighlight (highlightedText : string)
| CouldNotFindElement (start end_ : Z).

(** The entries that report a failure, as opposed to progress traces. *)
Definition isDiagnostic (e : LogEntry) : bool :=
  match e with
  | AnnotationMissingPosition _ _ | InvalidRelativePositions _ _ _
  | NoTextToHighlight | CouldNotFindElement _ _ => true
  | AnnotationsToHighlight _ | LookingToHighlight _ _ _
  | FoundTextToHighlight _ => false
  end.

(** ** The highlighted span *)

(** The three branches of the loop body. *)
Inductive Classification : Type := Contained | LeftOverlap | RightOverlap.

(** The branch the loop body takes for an annotation [start, end_) on an
    element with range [elStart, elEnd): the enclosing overlap test, then
    the if / else-if chain, first match wins; [None] when the element is
    passed over. *)
Definition classify (start end_ elStart elEnd : Z) : option Classification :=
  if ((elStart <=? start) && (start <? elEnd))
     || ((elStart <? end_) && (end_ <=? elEnd))
     || ((start <=? elStart) && (elEnd <=? end_))
  then
    if (elStart <=? start) && (end_ <=? elEnd) then Some Contained
    else if (elStart <=? start) && (elEnd <=? end_) && (start <? elEnd)
    then Some LeftOverlap
    else if (start <=? elStart) && (elStart <? end_) && (end_ <=? elEnd)
    then Some RightOverlap
    else None
  else None.

Definition highlightClassName (annotation : Annotation) : string :=
  "clause-highlight cursor-pointer transition-colors relative group "
  +:+ (if user annotation then "user-annotation" else "").

(** The three assignments to [highlightSpan.style], kept as one [style]
    attribute; how the browser normalises the values is not modelled. *)
Definition highlightStyle (clauseInfo : ClauseInfo) : string :=
  "background-color: " +:+ color clauseInfo +:+ "25; border-bottom: 2px solid "
  +:+ color clauseInfo +:+ "; box-shadow: 0 1px 0 0 " +:+ color clauseInfo
  +:+ "30;".

(** The identifier embedded in a span: [`${type}-${position.start}`]. *)
Definition annotationId (annotation : Annotation) (p : Position) : string :=
  type annotation +:+ "-" +:+ JS.toString (start p).

(** A text child holding [s]; assigning the empty string makes no child. *)
Definition textChild (s : string) : list Node :=
  if JS.truthy s then [Text s] else [].

(** The tooltip of the contained case: the clause name and the rounded
    confidence (an integer is its own rounding), then the arrow.  The name
    is taken to hold no markup, so that [innerHTML] parses it as text. *)
Definition tooltip (annotation : Annotation) (clauseInfo : ClauseInfo) : Node :=
  Element "div"
    [("class", "absolute invisible opacity-0 group-hover:visible group-hover:opacity-100 z-50 transition-opacity duration-200 bottom-full left-1/2 transform -translate-x-1/2 mb-2 px-3 py-2 text-xs rounded shadow-lg bg-white dark:bg-slate-800 text-slate-800 dark:text-slate-200 border border-slate-200 dark:border-slate-700 whitespace-nowrap")]
    [Element "div" [("class", "font-semibold")] (textChild (name clauseInfo));
     Element "div" [("class", "text-slate-500 dark:text-slate-400")]
       [Text (JS.toString (confidence annotation) +:+ "% confidence")];
     Element "div"
       [("class", "absolute left-1/2 transform -translate-x-1/2 -bottom-1 w-2 h-2 rotate-45 bg-white dark:bg-slate-800 border-r border-b border-slate-200 dark:border-slate-700")]
       []].

(** The span of the contained case: class, style, clause type, identifier,
    confidence, the highlighted text and the tooltip. *)
Definition containedSpan (annotation : Annotation) (p : Position)
    (clauseInfo : ClauseInfo) (highlightedText : string) : Node :=
  Element "span"
    [("class", highlightClassName annotation);
     ("style", highlightStyle clauseInfo);
     ("data-clause-type", type annotation);
     ("data-annotation-id", annotationId annotation p);
     ("data-confidence", JS.toString (confidence annotation))]
    (textChild highlightedText ++ [tooltip annotation clauseInfo]).

(** The span of the two overlap cases: no confidence and no tooltip. *)
Definition overlapSpan (annotation : Annotation) (p : Position)
    (clauseInfo : ClauseInfo) (highlightedText : string) : Node :=
  Element "span"
    [("class", highlightClassName annotation);
     ("style", highlightStyle clauseInfo);
     ("data-clause-type", type annotation);
     ("data-annotation-id", annotationId annotation p)]
    (textChild highlightedText).

(** ** One iteration of the loop over the matched elements *)

(** [parseInt(element.getAttribute('data-start') || '0')] and the same for
    [data-end]: the range an element claims. *)
Definition elStart (attributes : list (string * string)) : option Z :=
  JS.parseInt (attributeOrZero "data-start" attributes).

Definition elEnd (attributes : list (string * string)) : option Z :=
  JS.parseInt (attributeOrZero "data-end" attributes).

(** What one iteration does: the element substituted for the visited one
    ([replaceChild], with [foundMatch] set), if any, and the log lines. *)
Record Iteration : Type := {
  replacement : option Node;
  logged : list LogEntry
}.

(** Whether an iteration replaced its element, setting [foundMatch]. *)
Definition replaces (i : Iteration) : bool :=
  match replacement i with Some _ => true | None => false end.

Definition passOver : Iteration := {| replacement := None; logged := [] |}.

(** The body of [for (const element of elements)].  A bound that [parseInt]
    reads as [NaN] makes every comparison false, so the element is passed
    over.  [cloneNode(false)] keeps the tag and the attributes and drops the
    children. *)
Definition loopBody (annotation : Annotation) (p : Position)
    (clauseInfo : ClauseInfo) (element : Node) : Iteration :=
  match element with
  | Text _ => passOver
  | Element tagName attributes _ =>
      match elStart attributes, elEnd attributes with
      | Some elStart, Some elEnd =>
          match classify (start p) (end_ p) elStart elEnd with
          | Some Contained =>
              let textContent := textContent element in
              let relativeStart := start p - elStart in
              let relativeEnd := end_ p - elStart in
              if (relativeEnd <=? relativeStart)
                 || (JS.length textContent <=? relativeStart)
              then {| replacement := None;
                      logged := [InvalidRelativePositions relativeStart
                                   relativeEnd (JS.length textContent)] |}
              else
                let beforeText := JS.substring textContent 0 relativeStart in
                let highlightedText :=
                  JS.substring textContent relativeStart relativeEnd in
                let afterText := JS.substring_from textContent relativeEnd in
                if negb (JS.truthy highlightedText)
                then {| replacement := None; logged := [NoTextToHighlight] |}
                else
                  {| replacement :=
                       Some (Element tagName attributes
                               (textChild beforeText
                                ++ [containedSpan annotation p clauseInfo
                                      highlightedText]
                                ++ textChild afterText));
                     logged := [FoundTextToHighlight highlightedText] |}
          | Some LeftOverlap =>
              let textContent := textContent element in
              let relativeStart := Z.max 0 (start p - elStart) in
              let beforeText := JS.substring textContent 0 relativeStart in
              let highlightedText :=
                JS.substring_from textContent relativeStart in
              if JS.truthy highlightedText
              then
                {| replacement :=
                     Some (Element tagName attributes
                             (textChild beforeText
                              ++ [overlapSpan annotation p clauseInfo
                                    highlightedText]));
                   logged := [] |}
              else passOver
          | Some RightOverlap =>
              let textContent := textContent element in
              let relativeEnd := end_ p - elStart in
              let highlightedText := JS.substring textContent 0 relativeEnd in
              let afterText := JS.substring_from textContent relativeEnd in
              if JS.truthy highlightedText
              then
                {| replacement :=
                     Some (Element tagName attributes
                             ([overlapSpan annotation p clauseInfo
                                 highlightedText]
                              ++ textChild afterText));
                   logged := [] |}
              else passOver
          | None => passOver
          end
      | _, _ => passOver
      end
  end.

(** The branch an element falls in for a position, when its bounds parse. *)
Definition classification (p : Position) (element : Node)
  : option Classification :=
  match element with
  | Text _ => None
  | Element _ attributes _ =>
      match elStart attributes, elEnd attributes with
      | Some elStart, Some elEnd => classify (start p) (end_ p) elStart elEnd
      | _, _ => None
      end
  end.

(** ** The loop over the matched elements *)

(** The iteration of the loop at a node of the tree: the loop body when
    the node is in the list of [querySelectorAll], nothing otherwise. *)
Definition iterationAt (annotation : Annotation) (p : Position)
    (clauseInfo : ClauseInfo) (n : Node) : Iteration :=
  match n with
  | Element tagName attributes _ =>
      if matchesSelector tagName attributes
      then loopBody annotation p clauseInfo n
      else passOver
  | Text _ => passOver
  end.

(** The state the loop leaves behind below one node: the node as it stands
    in the document afterwards, the log lines in order, and whether
    [foundMatch] was set. *)
Record Visit : Type := {
  result : Node;
  logs : list LogEntry;
  found : bool
}.

(** The loop over the static list of [querySelectorAll], followed along the
    tree.  The list is in document order, so an element comes before its
    descendants and is judged on the subtree it had when the list was taken.
    Every matched element runs the loop body.  When the element itself is
    replaced, its old subtree leaves the document: the iterations of its
    descendants still log and still set [foundMatch], but their
    [replaceChild] acts on the detached subtree and the document keeps the
    replacement.  Otherwise the rewritten children stay in place. *)
Fixpoint visit (annotation : Annotation) (p : Position)
    (clauseInfo : ClauseInfo) (n : Node) : Visit :=
  match n with
  | Text _ => {| result := n; logs := []; found := false |}
  | Element tagName attributes childNodes =>
      let here := iterationAt annotation p clauseInfo n in
      let below := map (visit annotation p clauseInfo) childNodes in
      {| result :=
           match replacement here with
           | Some newElement => newElement
           | None => Element tagName attributes (map result below)
           end;
         logs := logged here ++ concat (map logs below);
         found := replaces here || existsb found below |}
  end.

(** ** The overlay pass *)

(** The callback of [visibleAnnotations.forEach] on the body's children:
    the missing-position guard, the catalog guard, then the loop and the
    no-match line.  [catalog] is the [clauses] property of the component,
    given by its lookups: [catalog !! key] is what [clauses[key]] finds,
    [None] when that is [undefined].  For an object literal this is
    [objectLiteral] of its entries, the inherited members included. *)
Definition forEachBody (catalog : gmap string ClauseInfo) (body : list Node)
    (annotation : Annotation) : list Node * list LogEntry :=
  match position annotation with
  | None =>
      (body, [AnnotationMissingPosition (type annotation)
                (JS.substring (selected_text annotation) 0 50)])
  | Some p =>
      match catalog !! convertClauseTypeToFrontendFormat (type annotation) with
      | None => (body, [])
      | Some clauseInfo =>
          let visited := map (visit annotation p clauseInfo) body in
          (map result visited,
           [LookingToHighlight (start p) (end_ p)
              (JS.substring (selected_text annotation) 0 50)]
           ++ concat (map logs visited)
           ++ (if existsb found visited then []
               else [CouldNotFindElement (start p) (end_ p)]))
      end
  end.

(** The sort key of the comparator: [position?.start || 0]. *)
Definition sortKey (annotation : Annotation) : Z :=
  match position annotation with
  | Some p => start p
  | None => 0
  end.

(** [Array.prototype.sort] with the comparator [key a - key b]: the sort is
    stable, so its result is the one of insertion from the right, each
    element going before the first one whose key is not smaller. *)
Fixpoint insertSorted (a : Annotation) (l : list Annotation) : list Annotation :=
  match l with
  | [] => [a]
  | b :: l' =>
      if sortKey a <=? sortKey b then a :: l else b :: insertSorted a l'
  end.

Definition sortByStart (l : list Annotation) : list Annotation :=
  fold_right insertSorted [] l.

(** The [document] property: the parsed body of [content], the content
    type, and the detected clauses.  [quirksMode] tells whether the parser
    leaves the document it builds from [content] in quirks mode, as it does
    for content without a doctype. *)
Record Document : Type := {
  content : list Node;
  content_type : option string;
  quirksMode : bool;
  clauses : list Annotation
}.

Definition isActive (activeFilters : list string) (annotation : Annotation)
  : bool :=
  existsb (String.eqb (convertClauseTypeToFrontendFormat (type annotation)))
    activeFilters.

(** The annotations that pass the filters, detected ones first, sorted by
    start offset. *)
Definition visibleAnnotations (document : Document)
    (activeFilters : list string) (userAnnotations : list Annotation)
  : list Annotation :=
  sortByStart (List.filter (isActive activeFilters) (clauses document)
               ++ List.filter (isActive activeFilters) userAnnotations).

(** The state threaded through [forEach]: the body and the log so far. *)
Definition forEachStep (catalog : gmap string ClauseInfo)
    (st : list Node * list LogEntry) (annotation : Annotation)
  : list Node * list LogEntry :=
  let r := forEachBody catalog (fst st) annotation in
  (fst r, snd st ++ snd r).

(** [processContent], from the parsed body to the body with the highlights
    spliced in, with the log.  The page toggle and the serialisation that
    follow the loop do not touch the highlights and are left out.  Content
    that is not HTML is returned as it is. *)
Definition processContent (document : Document)
    (catalog : gmap string ClauseInfo) (activeFilters : list string)
    (userAnnotations : list Annotation) : list Node * list LogEntry :=
  match content_type document with
  | Some "html" =>
      let visible := visibleAnnotations document activeFilters userAnnotations in
      fold_left (forEachStep catalog) visible
        (content document, [AnnotationsToHighlight (List.length visible)])
  | _ => (content document, [])
  end.

(** ** The click handler *)

(** ASCII white space, which separates the tokens of a [class] attribute. *)
Definition isAsciiWhitespace (c : ascii) : bool :=
  let n := nat_of_ascii c in
  ((n =? 9) || (n =? 10) || (n =? 12) || (n =? 13) || (n =? 32))%nat.

Fixpoint splitOnWhitespace (cur : string) (s : string) : list string :=
  match s with
  | EmptyString => if JS.truthy cur then [cur] else []
  | String c s' =>
      if isAsciiWhitespace c
      then (if JS.truthy cur then [cur] else []) ++ splitOnWhitespace "" s'
      else splitOnWhitespace (cur +:+ String c "") s'
  end.

(** [element.classList.contains(token)]. *)
Definition classListContains (token : string)
    (attributes : list (string * string)) : bool :=
  existsb (String.eqb token)
    (splitOnWhitespace "" (default "" (getAttribute "class" attributes))).

(** The template [`${clauseType}-${clause.position?.start}`]; a [null]
    clause type prints as [null], a missing position as [undefined]. *)
Definition clickedId (clauseType : option string) (clause : Annotation)
  : string :=
  default "null" clauseType +:+ "-"
  +:+ match position clause with
      | Some p => JS.toString (start p)
      | None => "undefined"
      end.

(** The [onClick] handler on the event target: the annotation handed to
    [onAnnotationClick], or [None] when the callback is not called. *)
Definition onClick (document : Document) (userAnnotations : list Annotation)
    (target : Node) : option Annotation :=
  match target with
  | Text _ => None
  | Element _ attributes _ =>
      if classListContains "clause-highlight" attributes
      then
        let clauseType := getAttribute "data-clause-type" attributes in
        List.find
          (fun clause =>
             bool_decide (Some (type clause) = clauseType)
             && bool_decide (Some (clickedId clauseType clause)
                             = getAttribute "data-annotation-id" attributes))
          (clauses document ++ userAnnotations)
      else None
  end.

(** ** The filter toggles and the pager of the viewer *)

(** [toggleFilter]: an active clause type is taken out, every copy of it,
    and an inactive one is added at the end. *)
Definition toggleFilter (prev : list string) (clauseType : string)
  : list string :=
  if existsb (String.eqb clauseType) prev
  then List.filter (fun type => negb (String.eqb type clauseType)) prev
  else prev ++ [clauseType].

(** The filters after a series of clicks on filter buttons. *)
Definition toggleAll (activeFilters : list string) (clicks : list string)
  : list string :=
  fold_left toggleFilter clicks activeFilters.

(** ASCII lower case of a code unit and of a string. *)
Definition toAsciiLowerCase (c : ascii) : ascii :=
  let n := nat_of_ascii c in
  if ((65 <=? n) && (n <=? 90))%nat then ascii_of_nat (n + 32) else c.

Fixpoint asciiLowerCase (s : string) : string :=
  match s with
  | EmptyString => EmptyString
  | String c s' => String (toAsciiLowerCase c) (asciiLowerCase s')
  end.

(** Whether an element is matched by the class selector [.token]: one of
    its class names is the token, compared without regard to ASCII case
    when the document is in quirks mode. *)
Definition matchesClassSelector (quirks : bool) (token : string)
    (attributes : list (string * string)) : bool :=
  existsb
    (fun className =>
       if quirks
       then String.eqb (asciiLowerCase className) (asciiLowerCase token)
       else String.eqb className token)
    (splitOnWhitespace "" (default "" (getAttribute "class" attributes))).

(** [doc.querySelectorAll('.page')]: the elements of class [page], in
    document order. *)
Fixpoint pagesOf (quirks : bool) (n : Node) : list Node :=
  match n with
  | Text _ => []
  | Element _ attributes childNodes =>
      (if matchesClassSelector quirks "page" attributes then [n] else [])
      ++ flat_map (pagesOf quirks) childNodes
  end.

(** The two states [currentPage] and [totalPages]. *)
Record Pager : Type := { currentPage : Z; totalPages : Z }.

(** Both states start at 1. *)
Definition initialPager : Pager := {| currentPage := 1; totalPages := 1 |}.

(** The effect that runs when the document changes, once the component is
    mounted: for HTML content the pages are counted and the first page is
    selected; for other content both states stay as they were. *)
Definition onDocumentChange (document : Document) (pager : Pager) : Pager :=
  match content_type document with
  | Some "html" =>
      {| currentPage := 1;
         totalPages :=
           Z.of_nat
             (List.length
                (flat_map (pagesOf (quirksMode document))
                   (content document))) |}
  | _ => pager
  end.

Definition goToPreviousPage (pager : Pager) : Pager :=
  if 1 <? currentPage pager
  then {| currentPage := currentPage pager - 1;
          totalPages := totalPages pager |}
  else pager.

Definition goToNextPage (pager : Pager) : Pager :=
  if currentPage pager <? totalPages pager
  then {| currentPage := currentPage pager + 1;
          totalPages := totalPages pager |}
  else pager.

(** What can happen to the pager. *)
Inductive PagerEvent : Type :=
| Previous
| Next
| DocumentChange (document : Document).

Definition pagerStep (pager : Pager) (event : PagerEvent) : Pager :=
  match event with
  | Previous => goToPreviousPage pager
  | Next => goToNextPage pager
  | DocumentChange document => onDocumentChange document pager
  end.

(** The value [processContent] gives to [style.display] of a page. *)
Inductive Display : Type := DisplayNone | DisplayBlock.

(** The page toggle at the end of [processContent],
    [pages.forEach((page, index) => ...)]: each page with the display value
    it is given, [index] counting from 0.  The text of the style attribute
    is not modelled. *)
Fixpoint pageDisplaysFrom (index : Z) (currentPage : Z) (pages : list Node)
  : list (Node * Display) :=
  match pages with
  | [] => []
  | page :: rest =>
      (page, if index + 1 =? currentPage then DisplayBlock else DisplayNone)
      :: pageDisplaysFrom (index + 1) currentPage rest
  end.

Definition pageDisplays (currentPage : Z) (pages : list Node)
  : list (Node * Display) :=
  pageDisplaysFrom 0 currentPage pages.

Definition isBlock (d : Node * Display) : bool :=
  match snd d with DisplayBlock => true | DisplayNone => false end.

(** The pager stays on a page that exists, or on page 1 when there is
    none. *)
Definition pagerInRange (pager : Pager) : Prop :=
  1 <= currentPage pager
  /\ (currentPage pager = 1 \/ currentPage pager <= totalPages pager).

(** No page lies inside an element the highlighting loop may rebuild. *)
Fixpoint pagesOutsideCandidates (quirks : bool) (n : Node) : bool :=
  match n with
  | Text _ => true
  | Element tagName attributes childNodes =>
      if matchesSelector tagName attributes
      then forallb
             (fun c => match pagesOf quirks c with [] => true | _ => false end)
             childNodes
      else forallb (pagesOutsideCandidates quirks) childNodes
  end.


(** The catalog of the document page ([CLAUSES] in
    [src/app/documents/[id]/page.tsx]), entry by entry in the order of the
    source, and as the map of these entries. *)
Definition CLAUSES_entries : list (string * ClauseInfo) :=
  [("force-majeure", {| name := "Force Majeure"; color := "#6366F1" |});
   ("limitation-of-liability",
    {| name := "Limitation of Liability"; color := "#0EA5E9" |});
   ("assignment", {| name := "Assignment"; color := "#F97316" |});
   ("severability", {| name := "Severability"; color := "#EC4899" |});
   ("no-waiver", {| name := "No Waiver"; color := "#14B8A6" |})].

Definition CLAUSES : gmap string ClauseInfo := list_to_map CLAUSES_entries.

(** [useState(Object.keys(clauses))] for that catalog: the keys in the
    order of the source. *)
Definition initialFilters : list string := map fst CLAUSES_entries.

(** The test of the visible list for one clause type, and its negation. *)
Definition ofType (k : string) (annotation : Annotation) : bool :=
  String.eqb (convertClauseTypeToFrontendFormat (type annotation)) k.

Definition notOfType (k : string) (annotation : Annotation) : bool :=
  negb (ofType k annotation).


(** ** Text selection and user annotations *)

(** [range.commonAncestorContainer]: a text node, given with its parent,
    or an element. *)
Inductive Container : Type :=
| TextContainer (parentNode : option Node)
| ElementContainer (element : Node).

(** What [handleSelectionChange] reads of [window.getSelection()]: the
    text of the selection, the number of ranges, the container and the
    start offset of the first range, and whether the content element
    contains that container. *)
Record WindowSelection : Type := {
  selectionText : string;
  rangeCount : nat;
  commonAncestorContainer : Container;
  startOffset : Z;
  insideContent : bool
}.

(** The [selection] state of the viewer; an offset computed from a range
    start that [parseInt] reads as [NaN] is [None]. *)
Module Selected.

Record t : Type := { text : string; start : option Z; end_ : option Z }.

End Selected.

(** White space for [trim]: the class [parseInt] skips. *)
Definition isTrimWhiteSpace (c : ascii) : bool := JS.isWhiteSpace c.

(** [s.trim() === ""]: every code unit is white space. *)
Fixpoint blank (s : string) : bool :=
  match s with
  | EmptyString => true
  | String c s' => isTrimWhiteSpace c && blank s'
  end.

(** The element the handler reads the range start from: the container
    itself, or the parent of a text container.  The parent of a text node
    is never a text node; a text node without parent is no element. *)
Definition closestElement (container : Container) : option Node :=
  match container with
  | TextContainer (Some (Element tagName attributes childNodes)) =>
      Some (Element tagName attributes childNodes)
  | TextContainer _ => None
  | ElementContainer (Element tagName attributes childNodes) =>
      Some (Element tagName attributes childNodes)
  | ElementContainer (Text _) => None
  end.

(** [handleSelectionChange]: the new [selection] state.  Without a
    selection, without a range, with a blank text or outside the content
    the state is reset.  Otherwise the offsets are 0 unless the element has
    a non-empty [data-start]; then the start is that number plus the length
    of the element's text before the start offset of the range, and the end
    is the start plus the length of the selected text. *)
Definition handleSelectionChange (selection : option WindowSelection)
  : option Selected.t :=
  match selection with
  | None => None
  | Some selection =>
      if (rangeCount selection =? 0)%nat || blank (selectionText selection)
      then None
      else if insideContent selection then
        let text := selectionText selection in
        let offsets :=
          match closestElement (commonAncestorContainer selection) with
          | Some (Element tagName attributes childNodes) =>
              match getAttribute "data-start" attributes with
              | Some dataStart =>
                  if JS.truthy dataStart then
                    let textBeforeSelection :=
                      JS.substring
                        (textContent (Element tagName attributes childNodes))
                        0 (startOffset selection) in
                    let start :=
                      (fun n => n + JS.length textBeforeSelection)
                        <$> JS.parseInt dataStart in
                    (start, (fun s => s + JS.length text) <$> start)
                  else (Some 0, Some 0)
              | None => (Some 0, Some 0)
              end
          | _ => (Some 0, Some 0)
          end in
        Some {| Selected.text := text;
                Selected.start := fst offsets;
                Selected.end_ := snd offsets |}
      else None
  end.

(** [handleAddAnnotation]: the arguments handed to [onAddAnnotation], when
    there is a selection; the selection is reset afterwards. *)
Definition handleAddAnnotation (selection : option Selected.t)
  : option (string * option Z * option Z) :=
  (fun s => (Selected.text s, Selected.start s, Selected.end_ s))
    <$> selection.

(** The annotation [addUserAnnotation] of the document page builds. *)
Definition userComment (text : string) (startPos endPos : Z) : Annotation :=
  {| type := "review-comments"; selected_text := text;
     reason := "User annotation"; confidence := 100;
     position := Some {| start := startPos; end_ := endPos |};
     user := true |}.

(** [addUserAnnotation]: the new annotation goes to the end of the user
    annotations. *)
Definition addUserAnnotation (prev : list Annotation) (text : string)
    (startPos endPos : Z) : list Annotation :=
  prev ++ [userComment text startPos endPos].

(** The user annotations after a series of comments, each with its text
    and offsets. *)
Definition addAll (comments : list (string * Z * Z)) : list Annotation :=
  fold_left (fun prev c => addUserAnnotation prev (fst (fst c)) (snd (fst c))
                             (snd c))
    comments [].

(** ** Display names and colours ([src/lib/api.ts]) *)

Definition displayNames : list (string * string) :=
  [("force_majeure", "Force Majeure");
   ("limitation_of_liability", "Limitation of Liability");
   ("assignment", "Assignment");
   ("severability", "Severability");
   ("no_waiver", "No Waiver");
   ("confidentiality", "Confidentiality");
   ("governing_law", "Governing Law")].

Definition colors : list (string * string) :=
  [("force_majeure", "#6366F1");
   ("limitation_of_liability", "#0EA5E9");
   ("assignment", "#F97316");
   ("severability", "#EC4899");
   ("no_waiver", "#14B8A6");
   ("confidentiality", "#10B981");
   ("governing_law", "#64748B")].

(** The own property of a table under a key, if it has one. *)
Definition ownProperty (key : string) (table : list (string * string))
  : option string :=
  getAttribute key table.

(** A word character of a regular expression, [\w]. *)
Definition isWordChar (c : ascii) : bool :=
  let n := nat_of_ascii c in
  (((48 <=? n) && (n <=? 57)) || ((65 <=? n) && (n <=? 90))
   || ((97 <=? n) && (n <=? 122)) || (n =? 95))%nat.

(** [toUpperCase] on one word character. *)
Definition toUpperCase (c : ascii) : ascii :=
  let n := nat_of_ascii c in
  if ((97 <=? n) && (n <=? 122))%nat then ascii_of_nat (n - 32) else c.

(** [s.replace(/\b\w/g, l => l.toUpperCase())]: a word character is put in
    upper case when no word character comes before it. *)
Fixpoint capitalizeWords (afterWordChar : bool) (s : string) : string :=
  match s with
  | EmptyString => EmptyString
  | String c s' =>
      String (if isWordChar c && negb afterWordChar then toUpperCase c else c)
        (capitalizeWords (isWordChar c) s')
  end.

(** The name made up for a clause type that is not in the table. *)
Definition fallbackDisplayName (clauseType : string) : string :=
  capitalizeWords false (replaceAll "_" " " clauseType).

(** [getClauseDisplayName]; [None] when the lookup finds an inherited
    member, which the function then returns in place of a string. *)
Definition getClauseDisplayName (clauseType : string) : option string :=
  match ownProperty clauseType displayNames with
  | Some displayName => Some displayName
  | None =>
      if existsb (String.eqb clauseType) inheritedNames then None
      else Some (fallbackDisplayName clauseType)
  end.

(** [getClauseColor], with slate as the default; [None] as above. *)
Definition getClauseColor (clauseType : string) : option string :=
  match ownProperty clauseType colors with
  | Some c => Some c
  | None =>
      if existsb (String.eqb clauseType) inheritedNames then None
      else Some "#64748B"
  end.


(** ** The list of detected clauses beside the document *)

(** The cards under [Detected Clauses]: for every entry of the catalog, in
    the order of [Object.entries], whose key is an active filter, the
    detected clauses of that type in the order of the document, each with
    the entry it is drawn with.  A click on a card hands its clause to
    [onAnnotationClick]. *)
Definition detectedCards (entries : list (string * ClauseInfo))
    (activeFilters : list string) (document : Document)
  : list (Annotation * ClauseInfo) :=
  if (List.length (clauses document) =? 0)%nat then []
  else
    flat_map
      (fun entry =>
         let clausesByType :=
           List.filter (ofType (fst entry)) (clauses document) in
         if (0 <? List.length clausesByType)%nat
         then map (fun clause => (clause, snd entry)) clausesByType
         else [])
      (List.filter
         (fun entry => existsb (String.eqb (fst entry)) activeFilters)
         entries).


(** ** Vocabulary of the properties *)

(** The element children of an element: what is left when the text nodes
    are set aside. *)
Definition isElement (n : Node) : bool :=
  match n with Element _ _ _ => true | Text _ => false end.

Definition elementChildren (n : Node) : list Node :=
  match n with
  | Text _ => []
  | Element _ _ childNodes => List.filter isElement childNodes
  end.

Definition attributesOf (n : Node) : list (string * string) :=
  match n with Text _ => [] | Element _ attributes _ => attributes end.

(** The text a highlighted span was given: its own text nodes, the tooltip
    element set aside. *)
Definition ownText (n : Node) : string :=
  match n with
  | Text data => data
  | Element _ _ childNodes =>
      fold_right
        (fun c acc => match c with Text d => d +:+ acc | Element _ _ _ => acc end)
        EmptyString childNodes
  end.

(** The shape of a replacement, by branch. *)
Inductive Spliced (annotation : Annotation) (p : Position)
    (clauseInfo : ClauseInfo) (tagName : string)
    (attributes : list (string * string)) (text : string) (elStart : Z)
  : Classification -> Node -> Prop :=
| SplicedContained :
    let relativeStart := start p - elStart in
    let relativeEnd := end_ p - elStart in
    0 <= relativeStart < relativeEnd ->
    relativeStart < JS.length text ->
    JS.substring text relativeStart relativeEnd <> "" ->
    Spliced annotation p clauseInfo tagName attributes text elStart Contained
      (Element tagName attributes
         (textChild (JS.substring text 0 relativeStart)
          ++ [containedSpan annotation p clauseInfo
                (JS.substring text relativeStart relativeEnd)]
          ++ textChild (JS.substring_from text relativeEnd)))
| SplicedLeft :
    let relativeStart := start p - elStart in
    0 <= relativeStart ->
    JS.substring_from text relativeStart <> "" ->
    Spliced annotation p clauseInfo tagName attributes text elStart LeftOverlap
      (Element tagName attributes
         (textChild (JS.substring text 0 relativeStart)
          ++ [overlapSpan annotation p clauseInfo
                (JS.substring_from text relativeStart)]))
| SplicedRight :
    let relativeEnd := end_ p - elStart in
    0 < relativeEnd ->
    JS.substring text 0 relativeEnd <> "" ->
    Spliced annotation p clauseInfo tagName attributes text elStart RightOverlap
      (Element tagName attributes
         ([overlapSpan annotation p clauseInfo
             (JS.substring text 0 relativeEnd)]
          ++ textChild (JS.substring_from text relativeEnd))).

(** A text node that is emitted only for a non-empty text. *)
Definition optionalText (t : string) : list Node :=
  match t with
  | EmptyString => []
  | String _ _ => [Text t]
  end.

(** The highlighted spans of a subtree, in document order: the elements
    the click handler answers to, those of class [clause-highlight]. *)
Fixpoint highlights (n : Node) : list Node :=
  match n with
  | Text _ => []
  | Element _ attributes childNodes =>
      (if classListContains "clause-highlight" attributes then [n] else [])
      ++ flat_map highlights childNodes
  end.


(** The body after the callback has run on each annotation of a list in
    turn, and the lines logged on the way. *)
Definition bodyAfter (catalog : gmap string ClauseInfo)
    (l : list Annotation) (body : list Node) : list Node :=
  fold_left (fun b a => fst (forEachBody catalog b a)) l body.

Fixpoint linesLogged (catalog : gmap string ClauseInfo)
    (l : list Annotation) (body : list Node) : list LogEntry :=
  match l with
  | [] => []
  | a :: l' =>
      snd (forEachBody catalog body a)
      ++ linesLogged catalog l' (fst (forEachBody catalog body a))
  end.

(** A document with another list of detected clauses. *)
Definition withClauses (document : Document) (found : list Annotation)
  : Document :=
  {| content := content document;
     content_type := content_type document;
     quirksMode := quirksMode document;
     clauses := found |}.

(** An annotation that cannot be rendered: no position, or a position whose
    end is not after its start. *)
Definition illFormed (annotation : Annotation) : Prop :=
  match position annotation with
  | None => True
  | Some p => end_ p <= start p
  end.

(** Sorted by the key of the comparator. *)
Definition sortedByStart (l : list Annotation) : Prop :=
  StronglySorted (fun a b => sortKey a <= sortKey b) l.


(** The range an element claims, when both bounds parse. *)
Definition rangeOf (n : Node) : option (Z * Z) :=
  match n with
  | Text _ => None
  | Element _ attributes _ =>
      match elStart attributes, elEnd attributes with
      | Some s, Some e => Some (s, e)
      | _, _ => None
      end
  end.


(** The test by which the click handler picks an annotation for a span
    made for [annotation] at position [p]: same type, same start. *)
Definition sameIdentifier (annotation : Annotation) (p : Position)
    (clause : Annotation) : bool :=
  bool_decide (type clause = type annotation)
  && bool_decide (start <$> position clause = Some (start p)).


(** A node has the attributes of a span the splicer makes for one of the
    annotations of [l]. *)
Definition madeFor (l : list Annotation) (h : Node) : Prop :=
  exists annotation p clauseInfo highlightedText,
    In annotation l
    /\ position annotation = Some p
    /\ (attributesOf h
        = attributesOf (containedSpan annotation p clauseInfo highlightedText)
        \/ attributesOf h
           = attributesOf (overlapSpan annotation p clauseInfo highlightedText)).


(** A node has the attributes of a span the splicer makes for one of the
    annotations of [l] that has a position and a catalog entry. *)
Definition renderedFor (catalog : gmap string ClauseInfo)
    (l : list Annotation) (h : Node) : Prop :=
  exists annotation p clauseInfo highlightedText,
    In annotation l
    /\ position annotation = Some p
    /\ catalog !! convertClauseTypeToFrontendFormat (type annotation)
       = Some clauseInfo
    /\ (attributesOf h
        = attributesOf (containedSpan annotation p clauseInfo highlightedText)
        \/ attributesOf h
           = attributesOf (overlapSpan annotation p clauseInfo highlightedText)).

(** The text the tooltip of a contained span adds to the text content of
    its element. *)
Definition tooltipText (annotation : Annotation) (clauseInfo : ClauseInfo)
  : string :=
  name clauseInfo +:+ JS.toString (confidence annotation) +:+ "% confidence".








(** ** The annotation dialog ([src/components/annotation-detail.tsx]) *)

(** [annotation.id || `${annotation.type}-${annotation.position?.start}`]:
    the key under which notes are stored.  The annotations the document
    page builds carry no [id], so the template is taken. *)
Definition noteAnnotationId (annotation : Annotation) : string :=
  type annotation +:+ "-"
  +:+ match position annotation with
      | Some p => JS.toString (start p)
      | None => "undefined"
      end.

(** [clauses[clauseType]] with the [clauseType] the document page passes,
    the type of the selected annotation in the hyphenated encoding.  The
    dialog reads [color] and [name] of the result, which throws when the
    lookup finds nothing. *)
Definition dialogClauseInfo (catalog : gmap string ClauseInfo)
    (annotation : Annotation) : option ClauseInfo :=
  catalog !! convertClauseTypeToFrontendFormat (type annotation).

(** The label, the icon colour and the advice of the confidence
    assessment. *)
Definition confidenceLevel (annotation : Annotation) : string :=
  if 90 <=? confidence annotation then "High"
  else if 70 <=? confidence annotation then "Medium"
  else if 40 <=? confidence annotation then "Low"
  else "Very Low".

Inductive IconColour : Type := Green | Amber | Red.

Definition confidenceIcon (annotation : Annotation) : IconColour :=
  if 90 <=? confidence annotation then Green
  else if 70 <=? confidence annotation then Amber
  else Red.

Definition confidenceAdvice (annotation : Annotation) : string :=
  if confidence annotation <? 40
  then "Very low confidence detection. Manual review strongly recommended."
  else if confidence annotation <? 70
  then "Low confidence detection. Manual review recommended."
  else if confidence annotation <? 90
  then "Medium confidence detection. Consider reviewing."
  else "High confidence detection.".



(** What [capitalizeWords] makes of one character. *)
Definition capitalized (afterWordChar : bool) (c : ascii) : ascii :=
  if isWordChar c && negb afterWordChar then toUpperCase c else c.

(** A string that starts with a small letter or an underscore, as every key
    of the tables and every inherited name does. *)
Definition startsSmall (s : string) : bool :=
  match s with
  | EmptyString => false
  | String c _ =>
      let n := nat_of_ascii c in
      (((97 <=? n) && (n <=? 122)) || (n =? 95))%nat
  end.


(** ** Running examples *)

Module Examples.

(** A leaf as the converter emits it: a span with its range and text. *)
Definition leaf (from to : Z) (text : string) : Node :=
  Element "span"
    [("data-start", JS.toString from); ("data-end", JS.toString to)]
    [Text text].

Definition governingLaw : ClauseInfo :=
  {| name := "Governing Law"; color := "#64748B" |}.

Definition reviewComments : ClauseInfo :=
  {| name := "Review Comments"; color := "#F59E0B" |}.

Definition catalog : gmap string ClauseInfo :=
  {[ "governing-law" := governingLaw; "review-comments" := reviewComments ]}.

(** A detected clause of type [governing_law]. *)
Definition detected (from to : Z) (text : string) : Annotation :=
  {| type := "governing_law"; selected_text := text;
     reason := "Names the governing law"; confidence := 95;
     position := Some {| start := from; end_ := to |}; user := false |}.

(** A user annotation, as [addUserAnnotation] builds it. *)
Definition comment (from to : Z) (text : string) : Annotation :=
  {| type := "review-comments"; selected_text := text;
     reason := "User annotation"; confidence := 100;
     position := Some {| start := from; end_ := to |}; user := true |}.

Definition sentence : string :=
  "This agreement is governed by the laws of Delaware.".

(** An HTML document whose content comes without a doctype. *)
Definition html (body : list Node) (found : list Annotation) : Document :=
  {| content := body; content_type := Some "html"; quirksMode := true;
     clauses := found |}.

(** The sentence as one leaf, and a clause on the words
    [laws of Delaware]. *)
Definition sentenceLeaf : Node := leaf 0 51 sentence.

Definition lawsPosition : Position := {| start := 34; end_ := 50 |}.

Definition lawsOfDelaware : Annotation := detected 34 50 "laws of Delaware".

Definition sentenceSpliced : Node :=
  Element "span" [("data-start", "0"); ("data-end", "51")]
    [Text "This agreement is governed by the ";
     containedSpan lawsOfDelaware lawsPosition governingLaw "laws of Delaware";
     Text "."].

(** An annotation without a position, of a clause type the example
    catalog does not know. *)
Definition unplaced : Annotation :=
  {| type := "indemnity"; selected_text := "shall indemnify";
     reason := "Indemnity clause"; confidence := 80;
     position := None; user := false |}.

(** A clause of a known type with an empty range. *)
Definition emptyLaw : Annotation := detected 40 40 "".


(** Three leaves in a row and a clause that starts in the first and ends
    in the third. *)
Definition threeLeaves : list Node :=
  [leaf 0 10 "0123456789"; leaf 10 20 "abcdefghij"; leaf 20 30 "ABCDEFGHIJ"].

Definition spanningPosition : Position := {| start := 5; end_ := 25 |}.

Definition spanning : Annotation := detected 5 25 "56789abcdefghijABCDE".

(** Two leaves whose ranges overlap and a clause inside both. *)
Definition overlappingLeaves : list Node :=
  [leaf 0 10 "0123456789"; leaf 5 15 "56789abcde"].

Definition insidePosition : Position := {| start := 6; end_ := 9 |}.

Definition inside : Annotation := detected 6 9 "678".


(** Two adjacent leaves cut from one text, and a clause across the cut. *)
Definition contract : string := "Either party may assign. No waiver.".

Definition adjacentLeft : Node := leaf 0 25 "Either party may assign. ".

Definition adjacentRight : Node := leaf 25 35 "No waiver.".

Definition acrossPosition : Position := {| start := 17; end_ := 27 |}.

Definition across : Annotation := detected 17 27 "assign. No".


(** One long leaf, two clauses whose ranges overlap in it, and two clauses
    of one type that start at the same offset. *)
Definition longText : string :=
  "0123456789abcdefghijABCDEFGHIJ0123456789abcdefghij".

Definition longLeaf : Node := leaf 0 50 longText.

Definition earlier : Annotation := detected 10 30 "abcdefghijABCDEFGHIJ".

Definition later : Annotation := detected 20 40 "ABCDEFGHIJ0123456789".

Definition twinLong : Annotation := detected 5 12 "56789ab".

Definition twinShort : Annotation := detected 5 8 "567".

Definition twinShortPosition : Position := {| start := 5; end_ := 8 |}.




Definition noWaiver : Annotation := detected 25 34 "No waiver".

(** A user comment on the words [laws of Delaware]. *)
Definition lawsComment : Annotation := comment 34 50 "laws of Delaware".


(** A span with a range around two leaves with ranges of their own. *)
Definition nestedLeaves : Node :=
  Element "span" [("data-start", "0"); ("data-end", "10")]
    [leaf 0 5 "01234"; leaf 5 10 "56789"].


(** A body of two pages, each with one leaf. *)
Definition twoPages : list Node :=
  [Element "div" [("class", "page")] [leaf 0 10 "0123456789"];
   Element "div" [("class", "page")] [leaf 10 20 "abcdefghij"]].


(** A selection of the words [laws of Delaware] in the sentence leaf, and
    a selection of two characters inside the highlight of those words. *)
Definition lawsSelection : WindowSelection :=
  {| selectionText := "laws of Delaware";
     rangeCount := 1;
     commonAncestorContainer := TextContainer (Some sentenceLeaf);
     startOffset := 34;
     insideContent := true |}.

Definition selectionInHighlight : WindowSelection :=
  {| selectionText := "of";
     rangeCount := 1;
     commonAncestorContainer :=
       TextContainer
         (Some (containedSpan lawsOfDelaware lawsPosition governingLaw
                  "laws of Delaware"));
     startOffset := 5;
     insideContent := true |}.


(** The entries of the running catalog in the order of the object, and a
    document with two detected clauses. *)
Definition catalogEntries : list (string * ClauseInfo) :=
  [("governing-law", governingLaw); ("review-comments", reviewComments)].

Definition twoClauses : Document :=
  html [adjacentLeft; adjacentRight]
    [noWaiver; detected 0 24 "Either party may assign"].






(** The long leaf after the splice for the earlier of the two clauses. *)
Definition longLeafSpliced : Node :=
  Element "span" [("data-start", "0"); ("data-end", "50")]
    [Text "0123456789";
     containedSpan earlier {| start := 10; end_ := 30 |} governingLaw
       "abcdefghijABCDEFGHIJ";
     Text "0123456789abcdefghij"].

Definition longLeafRespliced : Node :=
  Element "span" [("data-start", "0"); ("data-end", "50")]
    [Text "0123456789abcdefghij";
     containedSpan later {| start := 20; end_ := 40 |} governingLaw
       "ABCDEFGHIJGoverning ";
     Text "Law95% confidence0123456789abcdefghij"].


End Examples.

(** * Properties *)

(** ** Strings *)

Section StringFacts.

Implicit Types s t u : string.

Lemma string_append_cons c s t : String c s +:+ t = String c (s +:+ t).
Proof. reflexivity. Qed.

Lemma string_append_empty_l s : "" +:+ s = s.
Proof. reflexivity. Qed.

Lemma string_append_empty_r s : s +:+ "" = s.
Proof.
  induction s as [|c s IH]; [done | by rewrite string_append_cons, IH].
Qed.

Lemma string_append_assoc s t u : (s +:+ t) +:+ u = s +:+ (t +:+ u).
Proof.
  induction s as [|c s IH]; [done | by rewrite !string_append_cons, IH].
Qed.

Lemma string_length_append s t :
  String.length (s +:+ t) = (String.length s + String.length t)%nat.
Proof.
  induction s as [|c s IH]; [done | rewrite string_append_cons; simpl; by rewrite IH].
Qed.

Lemma string_take_drop n s : JS.take n s +:+ JS.drop n s = s.
Proof.
  revert s; induction n as [|n IH]; intros [|c s]; simpl; try done.
  by rewrite string_append_cons, IH.
Qed.

Lemma string_take_all n s : (String.length s <= n)%nat -> JS.take n s = s.
Proof.
  revert s; induction n as [|n IH]; intros [|c s]; simpl; intros H;
    try done; [lia | rewrite IH; [done | lia]].
Qed.

Lemma string_drop_all n s : (String.length s <= n)%nat -> JS.drop n s = "".
Proof.
  revert s; induction n as [|n IH]; intros [|c s]; simpl; intros H;
    try done; [lia | apply IH; lia].
Qed.

Lemma string_length_take n s :
  String.length (JS.take n s) = Nat.min n (String.length s).
Proof.
  revert s; induction n as [|n IH]; intros [|c s]; simpl; try done.
  by rewrite IH.
Qed.

Lemma string_length_drop n s :
  String.length (JS.drop n s) = (String.length s - n)%nat.
Proof.
  revert s; induction n as [|n IH]; intros [|c s]; simpl; try done.
Qed.

Lemma string_drop_drop n m s : JS.drop n (JS.drop m s) = JS.drop (m + n) s.
Proof.
  revert s; induction m as [|m IH]; intros s; simpl; [done |].
  destruct s as [|c s]; [by destruct n | apply IH].
Qed.

Lemma string_take_take n m s : JS.take n (JS.take m s) = JS.take (Nat.min n m) s.
Proof.
  revert m s; induction n as [|n IH]; intros [|m] [|c s]; simpl; try done.
  by rewrite IH.
Qed.

Lemma string_take_drop_commute n m s :
  JS.take n (JS.drop m s) = JS.drop m (JS.take (m + n) s).
Proof.
  revert s; induction m as [|m IH]; intros s; simpl; [done |].
  destruct s as [|c s]; [by destruct n | apply IH].
Qed.

(** A prefix split in two: the first [n] code units, then the next [m]. *)
Lemma string_take_plus n m s :
  JS.take (n + m) s = JS.take n s +:+ JS.take m (JS.drop n s).
Proof.
  revert s; induction n as [|n IH]; intros s; simpl; [done |].
  destruct s as [|c s]; simpl; [by destruct m |].
  by rewrite string_append_cons, IH.
Qed.

(** The library's [substring n m] is [m] code units from index [n]. *)
Lemma substring_take_drop n m s :
  String.substring n m s = JS.take m (JS.drop n s).
Proof.
  revert s; induction n as [|n IH]; intros s.
  - simpl. revert s; induction m as [|m IHm]; intros [|c s]; simpl;
      try done. by rewrite IHm.
  - destruct s as [|c s]; simpl; [by destruct m | apply IH].
Qed.

Lemma truthy_true s : JS.truthy s = true <-> s <> "".
Proof. destruct s; simpl; split; congruence. Qed.

Lemma string_length_zero s : String.length s = 0%nat <-> s = "".
Proof. destruct s; simpl; split; congruence. Qed.

Lemma js_length_nonneg s : 0 <= JS.length s.
Proof. unfold JS.length; lia. Qed.

(** [substring] between two indices in order and in range. *)
Lemma substring_in_range s a b :
  0 <= a <= b -> b <= JS.length s ->
  JS.substring s a b
  = JS.take (Z.to_nat (b - a)) (JS.drop (Z.to_nat a) s).
Proof.
  intros Ha Hb. unfold JS.substring, JS.clamp.
  replace (Z.min (Z.max a 0) (JS.length s)) with a by lia.
  replace (Z.min (Z.max b 0) (JS.length s)) with b by lia.
  by replace (Z.min a b) with a by lia; replace (Z.max a b) with b by lia.
Qed.

(** [substring] from a non-negative index, whatever the end index at or
    after it: it stops at the end of the string. *)
Lemma substring_from_index s a b :
  0 <= a <= b ->
  JS.substring s a b
  = JS.take (Z.to_nat (b - a)) (JS.drop (Z.to_nat a) s).
Proof.
  intros Ha. pose proof (js_length_nonneg s) as Hl.
  unfold JS.substring, JS.clamp, JS.length in *.
  replace (Z.max a 0) with a by lia. replace (Z.max b 0) with b by lia.
  destruct (Z.le_gt_cases b (Z.of_nat (String.length s))) as [Hb|Hb].
  - replace (Z.min a _) with a by lia. replace (Z.min b _) with b by lia.
    by replace (Z.min a b) with a by lia; replace (Z.max a b) with b by lia.
  - replace (Z.min b _) with (Z.of_nat (String.length s)) by lia.
    set (a' := Z.min a (Z.of_nat (String.length s))).
    replace (Z.min a' _) with a' by lia.
    replace (Z.max a' _) with (Z.of_nat (String.length s)) by lia.
    destruct (Z.le_gt_cases a (Z.of_nat (String.length s))) as [Hal|Hal].
    + replace a' with a by lia.
      rewrite !string_take_all; [done | |]; rewrite string_length_drop; lia.
    + replace a' with (Z.of_nat (String.length s)) by lia.
      rewrite !string_drop_all by lia. by destruct (Z.to_nat _), (Z.to_nat _).
Qed.

Lemma substring_prefix s a :
  0 <= a -> JS.substring s 0 a = JS.take (Z.to_nat a) s.
Proof.
  intros Ha. rewrite substring_from_index by lia. simpl.
  by rewrite Z.sub_0_r.
Qed.

Lemma substring_suffix s a :
  0 <= a -> JS.substring_from s a = JS.drop (Z.to_nat a) s.
Proof.
  intros Ha. unfold JS.substring_from.
  destruct (Z.le_gt_cases a (JS.length s)) as [Hl|Hl].
  - rewrite substring_in_range by lia. apply string_take_all.
    rewrite string_length_drop. unfold JS.length in *. lia.
  - unfold JS.substring, JS.clamp. pose proof (js_length_nonneg s).
    replace (Z.min (Z.max a 0) _) with (JS.length s) by lia.
    replace (Z.min (Z.max (JS.length s) 0) _) with (JS.length s) by lia.
    rewrite Z.min_id, Z.max_id, Z.sub_diag. simpl.
    rewrite (string_drop_all (Z.to_nat a)); [done |].
    unfold JS.length in *; lia.
Qed.

(** The three pieces of the contained case make up the text again. *)
Lemma substring_three_pieces s a b :
  0 <= a <= b ->
  JS.substring s 0 a +:+ JS.substring s a b +:+ JS.substring_from s b = s.
Proof.
  intros H. rewrite substring_prefix, substring_suffix by lia.
  rewrite substring_from_index by lia.
  rewrite <- string_append_assoc, <- string_take_plus.
  replace (Z.to_nat a + Z.to_nat (b - a))%nat with (Z.to_nat b) by lia.
  apply string_take_drop.
Qed.

Lemma substring_two_pieces s a :
  0 <= a -> JS.substring s 0 a +:+ JS.substring_from s a = s.
Proof.
  intros H. rewrite substring_prefix, substring_suffix by lia.
  apply string_take_drop.
Qed.

End StringFacts.

(** ** The classification *)

Section ClassifyFacts.

Variables start end_ elStart elEnd : Z.

Lemma classify_Contained :
  classify start end_ elStart elEnd = Some Contained ->
  elStart <= start /\ end_ <= elEnd.
Proof.
  unfold classify.
  repeat (case_match; try discriminate); intros _; lia.
Qed.

Lemma classify_LeftOverlap :
  classify start end_ elStart elEnd = Some LeftOverlap ->
  elStart <= start < elEnd /\ elEnd < end_.
Proof.
  unfold classify.
  repeat (case_match; try discriminate); intros _; lia.
Qed.

Lemma classify_RightOverlap :
  classify start end_ elStart elEnd = Some RightOverlap ->
  start < elStart < end_ /\ end_ <= elEnd.
Proof.
  unfold classify.
  repeat (case_match; try discriminate); intros _; lia.
Qed.

(** On a well-formed range the contained test alone decides the first
    branch. *)
Lemma classify_Contained_intro :
  start < end_ -> elStart <= start -> end_ <= elEnd ->
  classify start end_ elStart elEnd = Some Contained.
Proof.
  intros. unfold classify.
  repeat (case_match; try discriminate); try done; lia.
Qed.

Lemma classify_LeftOverlap_intro :
  elStart <= start < elEnd -> elEnd < end_ ->
  classify start end_ elStart elEnd = Some LeftOverlap.
Proof.
  intros. unfold classify.
  repeat (case_match; try discriminate); try done; lia.
Qed.

Lemma classify_RightOverlap_intro :
  start < elStart < end_ -> end_ <= elEnd ->
  classify start end_ elStart elEnd = Some RightOverlap.
Proof.
  intros. unfold classify.
  repeat (case_match; try discriminate); try done; lia.
Qed.

(** An element whose range lies strictly inside the annotation passes
    the enclosing overlap test and then matches no branch. *)
Lemma classify_strictly_inside :
  start < elStart -> elEnd < end_ ->
  classify start end_ elStart elEnd = None.
Proof.
  intros. unfold classify.
  repeat (case_match; try discriminate); try done; lia.
Qed.

(** Among the elements that intersect a well-formed position, those
    strictly inside it are the only ones that fall in no branch. *)
Lemma classify_None_intersecting :
  start < end_ -> start < elEnd -> elStart < end_ ->
  classify start end_ elStart elEnd = None
  <-> start < elStart /\ elEnd < end_.
Proof.
  intros. unfold classify.
  repeat (case_match; try discriminate); split; try done; lia.
Qed.

End ClassifyFacts.

(** ** The loop body *)

Section LoopBodyFacts.

Variables (annotation : Annotation) (p : Position) (clauseInfo : ClauseInfo).

(** Every replacement comes from one of the three branches, on an element
    whose bounds parse. *)
Lemma loopBody_replacement tagName attributes childNodes newElement :
  replacement (loopBody annotation p clauseInfo
                 (Element tagName attributes childNodes)) = Some newElement ->
  exists s e c,
    elStart attributes = Some s /\ elEnd attributes = Some e
    /\ classify (start p) (end_ p) s e = Some c
    /\ Spliced annotation p clauseInfo tagName attributes
         (textContent (Element tagName attributes childNodes)) s c newElement.
Proof.
  unfold loopBody.
  destruct (elStart attributes) as [s|]; [|discriminate].
  destruct (elEnd attributes) as [e|]; [|discriminate].
  destruct (classify (start p) (end_ p) s e) as [[| |]|] eqn:Hc;
    [| | |discriminate].
  - apply classify_Contained in Hc as Hb.
    case_match eqn:Hguard; [discriminate|].
    case_match eqn:Htext; [discriminate|].
    intros [= <-]. exists s, e, Contained. repeat split; try done.
    apply negb_false_iff, truthy_true in Htext.
    apply (SplicedContained annotation p clauseInfo tagName attributes
             (textContent (Element tagName attributes childNodes)) s);
      [lia | lia | done].
  - apply classify_LeftOverlap in Hc as Hb.
    case_match eqn:Htext; [|discriminate].
    intros [= <-]. exists s, e, LeftOverlap. repeat split; try done.
    apply truthy_true in Htext.
    replace (Z.max 0 (start p - s)) with (start p - s) in * by lia.
    apply (SplicedLeft annotation p clauseInfo tagName attributes
             (textContent (Element tagName attributes childNodes)) s);
      [lia | done].
  - apply classify_RightOverlap in Hc as Hb.
    case_match eqn:Htext; [|discriminate].
    intros [= <-]. exists s, e, RightOverlap. repeat split; try done.
    apply truthy_true in Htext.
    apply (SplicedRight annotation p clauseInfo tagName attributes
             (textContent (Element tagName attributes childNodes)) s);
      [lia | done].
Qed.


(** A position whose end is not after its start replaces nothing. *)
Lemma loopBody_degenerate element :
  end_ p <= start p ->
  replacement (loopBody annotation p clauseInfo element) = None.
Proof.
  intros Hd. destruct element as [data|tagName attributes childNodes];
    [done|].
  destruct (replacement _) as [newElement|] eqn:Hr; [|done].
  apply loopBody_replacement in Hr as (s & e & c & _ & _ & Hc & Hs).
  destruct Hs.
  - lia.
  - apply classify_LeftOverlap in Hc. lia.
  - apply classify_RightOverlap in Hc. lia.
Qed.

End LoopBodyFacts.

(** ** The highlight splicer *)

Lemma textChild_optionalText t : textChild t = optionalText t.
Proof. by destruct t. Qed.

Lemma ownText_containedSpan annotation p clauseInfo t :
  ownText (containedSpan annotation p clauseInfo t) = t.
Proof. destruct t; [done | apply string_append_empty_r]. Qed.

Lemma ownText_overlapSpan annotation p clauseInfo t :
  ownText (overlapSpan annotation p clauseInfo t) = t.
Proof. destruct t; [done | apply string_append_empty_r]. Qed.

Lemma elementChildren_splice tagName attributes pre span post :
  isElement span = true ->
  elementChildren
    (Element tagName attributes (optionalText pre ++ [span] ++ optionalText post))
  = [span].
Proof.
  intros Hs. simpl. rewrite !List.filter_app. simpl. rewrite Hs.
  by destruct pre, post.
Qed.



(** What a splice makes of the text content the element has when it is
    spliced.  The replacement keeps the tag and the attributes and holds, in
    order, a text node for the text before the highlight (only when that
    text is not empty), exactly one highlighted span, and a text node for
    the text after it (only when not empty).  In the contained case the
    highlighted text is the text content from index [start - elStart] up to
    [end - elStart], and the three texts make up the text content; in the
    left-overlap case there is no text after the span, in the right-overlap
    case none before it, and the two texts make up the text content. *)
Lemma splicer_output annotation p clauseInfo tagName attributes childNodes
    newElement :
  let element := Element tagName attributes childNodes in
  replacement (loopBody annotation p clauseInfo element) = Some newElement ->
  exists s c pre span post,
    elStart attributes = Some s
    /\ classification p element = Some c
    /\ newElement
       = Element tagName attributes
           (optionalText pre ++ [span] ++ optionalText post)
    /\ elementChildren newElement = [span]
    /\ ownText span <> ""
    /\ pre +:+ ownText span +:+ post = textContent element
    /\ match c with
       | Contained =>
           ownText span
           = String.substring (Z.to_nat (start p - s))
               (Z.to_nat (end_ p - start p)) (textContent element)
       | LeftOverlap => post = ""
       | RightOverlap => pre = ""
       end.
Proof.
  intros element Hr. subst element.
  apply loopBody_replacement in Hr as (s & e & c & Hs & He & Hc & Hspl).
  set (text := textContent (Element tagName attributes childNodes)) in *.
  assert (Hcl : classification p (Element tagName attributes childNodes)
                = Some c) by (simpl; by rewrite Hs, He).
  destruct Hspl as [rs re Hrs Hlen Hne | rs Hrs Hne | re Hre Hne].
  - exists s, Contained, (JS.substring text 0 rs),
      (containedSpan annotation p clauseInfo (JS.substring text rs re)),
      (JS.substring_from text re).
    rewrite !textChild_optionalText, ownText_containedSpan.
    repeat split; try done.
    + by apply elementChildren_splice.
    + apply substring_three_pieces. lia.
    + rewrite substring_take_drop, substring_from_index by lia.
      subst rs re. do 2 f_equal. lia.
  - exists s, LeftOverlap, (JS.substring text 0 rs),
      (overlapSpan annotation p clauseInfo (JS.substring_from text rs)), "".
    rewrite !textChild_optionalText, ownText_overlapSpan.
    repeat split; try done.
    + by apply (elementChildren_splice _ _ _ _ "").
    + rewrite string_append_empty_r. by apply substring_two_pieces.
  - exists s, RightOverlap, "",
      (overlapSpan annotation p clauseInfo (JS.substring text 0 re)),
      (JS.substring_from text re).
    rewrite !textChild_optionalText, ownText_overlapSpan.
    repeat split; try done.
    + by apply (elementChildren_splice _ _ "").
    + apply substring_two_pieces. lia.
Qed.

(** ** The clause-type converters *)

Lemma replaceAll_inverse a b s :
  occurs b s = false -> replaceAll b a (replaceAll a b s) = s.
Proof.
  induction s as [|c s IH]; simpl; [done |].
  intros [Hc Hs]%orb_false_iff. rewrite (IH Hs). f_equal.
  destruct (Ascii.eqb c a) eqn:Hca.
  - apply Ascii.eqb_eq in Hca. by rewrite Ascii.eqb_refl.
  - by rewrite Hc.
Qed.

(** C8.  The two converters undo each other on their input domains: a
    type in the underscored encoding, holding no hyphen, comes back from the
    hyphenated encoding unchanged, and a type in the hyphenated encoding,
    holding no underscore, comes back from the underscored encoding
    unchanged. *)
Theorem converters_mutually_inverse (t u : string) :
  occurs "-" t = false ->
  occurs "_" u = false ->
  convertClauseTypeToBackendFormat (convertClauseTypeToFrontendFormat t) = t
  /\ convertClauseTypeToFrontendFormat (convertClauseTypeToBackendFormat u) = u.
Proof.
  intros Ht Hu. split; by apply replaceAll_inverse.
Qed.

Lemma converters_mutually_inverse_witness :
  (occurs "-" "limitation_of_liability" = false
   /\ occurs "_" "limitation-of-liability" = false)
  /\ convertClauseTypeToBackendFormat
       (convertClauseTypeToFrontendFormat "limitation_of_liability")
     = "limitation_of_liability"
  /\ convertClauseTypeToFrontendFormat
       (convertClauseTypeToBackendFormat "limitation-of-liability")
     = "limitation-of-liability".
Proof.
  split; [split; reflexivity |].
  apply (converters_mutually_inverse "limitation_of_liability"
           "limitation-of-liability"); reflexivity.
Defined.

(** ** The attributes of a highlighted span *)

(** C7, as the code has it.  Every span the splicer emits, in each of the
    three branches, carries the clause type and the annotation identifier
    [type-start]; a span of the contained branch also carries the
    confidence of its annotation, whether the annotation was detected or
    written by a user. *)
Theorem span_attributes annotation p clauseInfo tagName attributes
    childNodes newElement :
  let element := Element tagName attributes childNodes in
  replacement (loopBody annotation p clauseInfo element) = Some newElement ->
  exists span,
    elementChildren newElement = [span]
    /\ getAttribute "data-clause-type" (attributesOf span)
       = Some (type annotation)
    /\ getAttribute "data-annotation-id" (attributesOf span)
       = Some (type annotation +:+ "-" +:+ JS.toString (start p))
    /\ (classification p element = Some Contained ->
        getAttribute "data-confidence" (attributesOf span)
        = Some (JS.toString (confidence annotation))).
Proof.
  intros element Hr. subst element.
  apply loopBody_replacement in Hr as (s & e & c & Hs & He & Hc & Hspl).
  assert (Hcl : classification p (Element tagName attributes childNodes)
                = Some c) by (simpl; by rewrite Hs, He).
  rewrite Hcl.
  destruct Hspl; rewrite !textChild_optionalText.
  - eexists. split; [by apply elementChildren_splice | done].
  - eexists.
    split; [by apply (elementChildren_splice _ _ _ _ "") | done].
  - eexists.
    split; [by apply (elementChildren_splice _ _ "") | done].
Qed.

Lemma span_attributes_witness :
  replacement
    (loopBody Examples.lawsOfDelaware Examples.lawsPosition
       Examples.governingLaw Examples.sentenceLeaf)
  = Some Examples.sentenceSpliced
  /\ exists span,
      elementChildren Examples.sentenceSpliced = [span]
      /\ getAttribute "data-clause-type" (attributesOf span)
         = Some "governing_law"
      /\ getAttribute "data-annotation-id" (attributesOf span)
         = Some ("governing_law" +:+ "-" +:+ JS.toString 34)
      /\ (classification Examples.lawsPosition Examples.sentenceLeaf
          = Some Contained ->
          getAttribute "data-confidence" (attributesOf span)
          = Some (JS.toString 95)).
Proof.
  split; [vm_compute; reflexivity |].
  apply (span_attributes Examples.lawsOfDelaware Examples.lawsPosition
           Examples.governingLaw "span"
           (attributesOf Examples.sentenceLeaf) [Text Examples.sentence]
           Examples.sentenceSpliced).
  vm_compute; reflexivity.
Defined.

(** ** The loop follows the list of matched elements *)

(** Induction on a node with the hypothesis for all its children. *)
Lemma Node_ind (P : Node -> Prop) :
  (forall data, P (Text data)) ->
  (forall tagName attributes childNodes,
      Forall P childNodes -> P (Element tagName attributes childNodes)) ->
  forall n, P n.
Proof.
  intros HText HElement.
  fix IH 1. intros [data|tagName attributes childNodes].
  - apply HText.
  - apply HElement. induction childNodes as [|c cs IHcs].
    + constructor.
    + constructor; [apply IH | apply IHcs].
Qed.

Section VisitFacts.

Variables (annotation : Annotation) (p : Position) (clauseInfo : ClauseInfo).

#[local] Abbreviation visit' := (visit annotation p clauseInfo).
#[local] Abbreviation body' := (loopBody annotation p clauseInfo).

Lemma visit_Element tagName attributes childNodes :
  let n := Element tagName attributes childNodes in
  visit' n
  = {| result :=
         match replacement (iterationAt annotation p clauseInfo n) with
         | Some newElement => newElement
         | None =>
             Element tagName attributes (map result (map visit' childNodes))
         end;
       logs := logged (iterationAt annotation p clauseInfo n)
               ++ concat (map logs (map visit' childNodes));
       found := replaces (iterationAt annotation p clauseInfo n)
                || existsb found (map visit' childNodes) |}.
Proof. reflexivity. Qed.

(** The log of the loop is the log of the loop body on each matched
    element, in document order. *)
Lemma visit_logs n :
  logs (visit' n) = flat_map (fun el => logged (body' el)) (querySelectorAll n).
Proof.
  induction n as [data|tagName attributes childNodes IH] using Node_ind;
    [done |].
  simpl. rewrite flat_map_app. f_equal.
  - destruct (matchesSelector tagName attributes); simpl;
      [by rewrite app_nil_r | done].
  - induction IH as [|c cs Hc _ IHcs]; simpl; [done |].
    by rewrite flat_map_app, Hc, IHcs.
Qed.

(** [foundMatch] is set exactly when the loop body replaces some matched
    element. *)
Lemma visit_found n :
  found (visit' n) = existsb (fun el => replaces (body' el)) (querySelectorAll n).
Proof.
  induction n as [data|tagName attributes childNodes IH] using Node_ind;
    [done |].
  simpl. rewrite existsb_app. f_equal.
  - destruct (matchesSelector tagName attributes); simpl;
      [by rewrite orb_false_r | done].
  - induction IH as [|c cs Hc _ IHcs]; simpl; [done |].
    by rewrite existsb_app, Hc, IHcs.
Qed.

Lemma visit_all_logs body :
  concat (map logs (map visit' body))
  = flat_map (fun el => logged (body' el)) (flat_map querySelectorAll body).
Proof.
  induction body as [|n body IH]; simpl; [done |].
  by rewrite flat_map_app, visit_logs, IH.
Qed.

Lemma visit_all_found body :
  existsb found (map visit' body)
  = existsb (fun el => replaces (body' el)) (flat_map querySelectorAll body).
Proof.
  induction body as [|n body IH]; simpl; [done |].
  by rewrite existsb_app, visit_found, IH.
Qed.

(** A position whose end is not after its start leaves the tree as it
    is. *)
Lemma visit_degenerate n :
  end_ p <= start p -> result (visit' n) = n /\ found (visit' n) = false.
Proof.
  intros Hd.
  induction n as [data|tagName attributes childNodes IH] using Node_ind;
    [done |].
  rewrite visit_Element. cbv zeta.
  assert (Hhere : replacement
                    (iterationAt annotation p clauseInfo
                       (Element tagName attributes childNodes))
                  = None).
  { unfold iterationAt. destruct (matchesSelector tagName attributes); [|done].
    by apply loopBody_degenerate. }
  unfold replaces. rewrite Hhere. clear Hhere. cbn [result found orb]. split.
  - f_equal. induction IH as [|c cs [Hc _] _ IHcs]; simpl; [done |].
    by rewrite Hc, IHcs.
  - induction IH as [|c cs [_ Hc] _ IHcs]; simpl; [done |].
    by rewrite Hc, IHcs.
Qed.

End VisitFacts.

(** ** The sort is stable *)

Section SortFacts.

Implicit Types (a x : Annotation) (l : list Annotation).

Lemma insertSorted_first a l :
  Forall (fun b => sortKey a <= sortKey b) l -> insertSorted a l = a :: l.
Proof.
  destruct 1 as [|b l Hb _]; simpl; [done |].
  by rewrite (proj2 (Z.leb_le _ _) Hb).
Qed.

(** Insertion puts the new element somewhere and moves nothing else. *)
Lemma insertSorted_spec a l :
  exists l1 l2, insertSorted a l = l1 ++ a :: l2 /\ l = l1 ++ l2.
Proof.
  induction l as [|b l (l1 & l2 & H1 & H2)]; simpl.
  - by exists [], [].
  - destruct (sortKey a <=? sortKey b).
    + by exists [], (b :: l).
    + exists (b :: l1), l2. simpl. by rewrite H1, H2.
Qed.

Lemma insertSorted_sorted a l :
  sortedByStart l -> sortedByStart (insertSorted a l).
Proof.
  unfold sortedByStart. induction 1 as [|b l Hl IH Hb]; simpl.
  - repeat constructor.
  - destruct (sortKey a <=? sortKey b) eqn:Hab.
    + apply Z.leb_le in Hab. constructor; [by constructor |].
      constructor; [done |].
      eapply Forall_impl; [exact Hb |]. simpl. intros; lia.
    + apply Z.leb_gt in Hab. constructor; [done |].
      destruct (insertSorted_spec a l) as (l1 & l2 & -> & ->).
      apply Forall_app in Hb as [H1 H2].
      apply Forall_app. split; [done |]. constructor; [lia | done].
Qed.

Lemma sortByStart_sorted l : sortedByStart (sortByStart l).
Proof.
  induction l as [|a l IH]; simpl; [constructor |].
  by apply insertSorted_sorted.
Qed.

(** Inserting into a sorted list goes the same way whether or not some
    element [x] of the list is there. *)
Lemma insertSorted_split a l1 x l2 :
  sortedByStart (l1 ++ x :: l2) ->
  exists t1 t2,
    insertSorted a (l1 ++ x :: l2) = t1 ++ x :: t2
    /\ insertSorted a (l1 ++ l2) = t1 ++ t2.
Proof.
  unfold sortedByStart. induction l1 as [|b l1 IH]; simpl; intros Hs.
  - apply StronglySorted_inv in Hs as [_ Hx].
    destruct (sortKey a <=? sortKey x) eqn:Hax.
    + apply Z.leb_le in Hax. exists [a], l2. split; [done |].
      apply insertSorted_first.
      eapply Forall_impl; [exact Hx |]. simpl. intros; lia.
    + by exists [], (insertSorted a l2).
  - apply StronglySorted_inv in Hs as [Hs _].
    destruct (sortKey a <=? sortKey b).
    + by exists (a :: b :: l1), l2.
    + destruct (IH Hs) as (t1 & t2 & H1 & H2).
      exists (b :: t1), t2. simpl. by rewrite H1, H2.
Qed.

(** Stability: taking one element out of the input takes it out of the
    output and leaves the others in the order they had. *)
Lemma sortByStart_remove l1 x l2 :
  exists t1 t2,
    sortByStart (l1 ++ x :: l2) = t1 ++ x :: t2
    /\ sortByStart (l1 ++ l2) = t1 ++ t2.
Proof.
  induction l1 as [|a l1 (t1 & t2 & H1 & H2)]; simpl.
  - apply insertSorted_spec.
  - rewrite H1, H2. apply insertSorted_split.
    rewrite <- H1. apply sortByStart_sorted.
Qed.

End SortFacts.

(** The sort keeps the annotations. *)
Lemma insertSorted_In a b l : In b (insertSorted a l) <-> b = a \/ In b l.
Proof.
  destruct (insertSorted_spec a l) as (l1 & l2 & -> & ->).
  rewrite !in_app_iff. simpl. intuition congruence.
Qed.

Lemma sortByStart_In b l : In b (sortByStart l) <-> In b l.
Proof.
  induction l as [|a l IH]; simpl; [done |].
  rewrite insertSorted_In, IH. intuition congruence.
Qed.

(** ** Annotations that leave the body as it is *)

Section PassFacts.

Variable catalog : gmap string ClauseInfo.

Lemma fold_forEachStep l body lines :
  fold_left (forEachStep catalog) l (body, lines)
  = (bodyAfter catalog l body, lines ++ linesLogged catalog l body).
Proof.
  revert body lines. induction l as [|a l IH]; intros body lines; simpl.
  - by rewrite app_nil_r.
  - unfold forEachStep at 2. simpl. rewrite IH. by rewrite <- app_assoc.
Qed.

Lemma bodyAfter_app l1 l2 body :
  bodyAfter catalog (l1 ++ l2) body
  = bodyAfter catalog l2 (bodyAfter catalog l1 body).
Proof. apply fold_left_app. Qed.

Lemma linesLogged_app l1 l2 body :
  linesLogged catalog (l1 ++ l2) body
  = linesLogged catalog l1 body
    ++ linesLogged catalog l2 (bodyAfter catalog l1 body).
Proof.
  revert body. induction l1 as [|a l1 IH]; intros body; simpl; [done |].
  by rewrite IH, <- app_assoc.
Qed.

(** An annotation without a position is skipped with one line. *)
Lemma forEachBody_no_position body a :
  position a = None ->
  forEachBody catalog body a
  = (body, [AnnotationMissingPosition (type a)
              (JS.substring (selected_text a) 0 50)]).
Proof. intros H. unfold forEachBody. by rewrite H. Qed.

(** An annotation whose type is not in the catalog is skipped in
    silence. *)
Lemma forEachBody_no_clauseInfo body a p :
  position a = Some p ->
  catalog !! convertClauseTypeToFrontendFormat (type a) = None ->
  forEachBody catalog body a = (body, []).
Proof. intros Hp Hc. unfold forEachBody. by rewrite Hp, Hc. Qed.

Lemma visit_all_degenerate a p clauseInfo body :
  end_ p <= start p ->
  map result (map (visit a p clauseInfo) body) = body
  /\ existsb found (map (visit a p clauseInfo) body) = false.
Proof.
  intros Hd. induction body as [|n body [IH1 IH2]]; simpl; [done |].
  destruct (visit_degenerate a p clauseInfo n Hd) as [-> ->].
  by rewrite IH1, IH2.
Qed.

(** An ill-formed annotation leaves the body as it is. *)
Lemma forEachBody_illFormed body a :
  illFormed a -> fst (forEachBody catalog body a) = body.
Proof.
  unfold illFormed, forEachBody. destruct (position a) as [p|]; [|done].
  intros Hd. destruct (catalog !! _) as [clauseInfo|]; [|done]. simpl.
  by apply visit_all_degenerate.
Qed.

(** Taking out of the sorted list an annotation that leaves every body as
    it is does not change the body after the pass. *)
Lemma bodyAfter_remove t1 x t2 body :
  (forall b, fst (forEachBody catalog b x) = b) ->
  bodyAfter catalog (t1 ++ x :: t2) body = bodyAfter catalog (t1 ++ t2) body.
Proof.
  intros Hx. rewrite !bodyAfter_app. simpl. unfold bodyAfter at 2.
  simpl. by rewrite Hx.
Qed.

Lemma linesLogged_remove t1 x t2 body :
  (forall b, forEachBody catalog b x = (b, [])) ->
  linesLogged catalog (t1 ++ x :: t2) body
  = linesLogged catalog (t1 ++ t2) body.
Proof.
  intros Hx. rewrite !linesLogged_app. simpl. by rewrite Hx.
Qed.

End PassFacts.

(** ** Taking an annotation out of the input *)

Section RemovalFacts.

Variables (document : Document) (catalog : gmap string ClauseInfo)
  (activeFilters : list string) (userAnnotations : list Annotation).

(** The visible list with and without one detected clause. *)
Lemma visible_remove_clause l1 x l2 :
  visibleAnnotations (withClauses document (l1 ++ x :: l2)) activeFilters
    userAnnotations
  = visibleAnnotations (withClauses document (l1 ++ l2)) activeFilters
      userAnnotations
  \/ exists t1 t2,
      visibleAnnotations (withClauses document (l1 ++ x :: l2)) activeFilters
        userAnnotations = t1 ++ x :: t2
      /\ visibleAnnotations (withClauses document (l1 ++ l2)) activeFilters
           userAnnotations = t1 ++ t2.
Proof.
  unfold visibleAnnotations. simpl. rewrite !List.filter_app. simpl.
  destruct (isActive activeFilters x); [right | by left].
  rewrite <- !app_assoc. simpl. apply sortByStart_remove.
Qed.

(** The visible list with and without one user annotation. *)
Lemma visible_remove_user l1 x l2 :
  visibleAnnotations document activeFilters (l1 ++ x :: l2)
  = visibleAnnotations document activeFilters (l1 ++ l2)
  \/ exists t1 t2,
      visibleAnnotations document activeFilters (l1 ++ x :: l2) = t1 ++ x :: t2
      /\ visibleAnnotations document activeFilters (l1 ++ l2) = t1 ++ t2.
Proof.
  unfold visibleAnnotations. rewrite !List.filter_app. simpl.
  destruct (isActive activeFilters x); [right | by left].
  rewrite !app_assoc. apply sortByStart_remove.
Qed.

Lemma processContent_html d users :
  content_type d = Some "html" ->
  processContent d catalog activeFilters users
  = (bodyAfter catalog (visibleAnnotations d activeFilters users) (content d),
     AnnotationsToHighlight
       (List.length (visibleAnnotations d activeFilters users))
     :: linesLogged catalog (visibleAnnotations d activeFilters users)
          (content d)).
Proof.
  intros H. unfold processContent. rewrite H. apply fold_forEachStep.
Qed.

Lemma processContent_not_html d users :
  content_type d <> Some "html" ->
  processContent d catalog activeFilters users = (content d, []).
Proof.
  intros H. unfold processContent.
  destruct (content_type d) as [t|]; [|done].
  destruct (decide (t = "html")) as [->|Hne]; [done |].
  repeat (case_match; try done).
Qed.

(** The body and the lines after the count, for two documents of the same
    content and two visible lists that differ by one annotation. *)
Lemma processContent_remove d d' users users' x :
  content d = content d' -> content_type d = content_type d' ->
  (visibleAnnotations d activeFilters users
   = visibleAnnotations d' activeFilters users'
   \/ exists t1 t2,
       visibleAnnotations d activeFilters users = t1 ++ x :: t2
       /\ visibleAnnotations d' activeFilters users' = t1 ++ t2) ->
  ((forall b, fst (forEachBody catalog b x) = b) ->
   fst (processContent d catalog activeFilters users)
   = fst (processContent d' catalog activeFilters users'))
  /\ ((forall b, forEachBody catalog b x = (b, [])) ->
      List.tl (snd (processContent d catalog activeFilters users))
      = List.tl (snd (processContent d' catalog activeFilters users'))).
Proof.
  intros Hc Ht Hv.
  destruct (decide (content_type d = Some "html")) as [Hh|Hh].
  - rewrite !processContent_html by congruence. simpl. rewrite <- Hc.
    destruct Hv as [->|(t1 & t2 & -> & ->)]; [done |]. split; intros Hx.
    + by apply bodyAfter_remove.
    + by apply linesLogged_remove.
  - rewrite !processContent_not_html by congruence. by rewrite Hc.
Qed.

End RemovalFacts.

(** ** The states of the filters *)

Section ToggleFacts.

Implicit Types (prev activeFilters : list string) (clauseType k : string).

Lemma includes_In k prev : existsb (String.eqb k) prev = true <-> In k prev.
Proof.
  rewrite existsb_exists. split.
  - intros (x & Hx & ->%String.eqb_eq). done.
  - intros H. exists k. by rewrite String.eqb_refl.
Qed.

Lemma includes_not_In k prev : existsb (String.eqb k) prev = false <-> ~ In k prev.
Proof.
  rewrite <- includes_In. by destruct (existsb _ _).
Qed.

Lemma toggleFilter_In prev clauseType k :
  In k (toggleFilter prev clauseType)
  <-> (k = clauseType /\ ~ In clauseType prev)
      \/ (k <> clauseType /\ In k prev).
Proof.
  unfold toggleFilter.
  destruct (existsb (String.eqb clauseType) prev) eqn:Hin.
  - apply includes_In in Hin. rewrite filter_In, negb_true_iff, String.eqb_neq.
    split; [intros [? ?]; by right | intros [[_ ?]|[? ?]]; done].
  - apply includes_not_In in Hin. rewrite in_app_iff. simpl. split.
    + intros [Hk|[<-|[]]]; [right | by left]. split; [congruence | done].
    + intros [[-> _]|[_ ?]]; auto.
Qed.

Lemma toggleFilter_NoDup prev clauseType :
  List.NoDup prev -> List.NoDup (toggleFilter prev clauseType).
Proof.
  intros Hnd. unfold toggleFilter.
  destruct (existsb (String.eqb clauseType) prev) eqn:Hin.
  - by apply List.NoDup_filter.
  - apply includes_not_In in Hin. apply List.NoDup_app; [done | |].
    + constructor; [by intros [] | constructor].
    + intros x Hx [<-|[]]. done.
Qed.

End ToggleFacts.

(** What holds of the filters at the start and of every button clicked
    holds of the filters after the clicks. *)
Lemma toggleAll_Forall (P : string -> Prop) activeFilters clicks :
  Forall P activeFilters -> Forall P clicks ->
  Forall P (toggleAll activeFilters clicks).
Proof.
  unfold toggleAll. intros Hf Hc. revert activeFilters Hf.
  induction Hc as [|c clicks Hc _ IH]; intros activeFilters Hf; simpl;
    [done |].
  apply IH. apply List.Forall_forall. intros k Hk%toggleFilter_In.
  destruct Hk as [[-> _]|[_ Hk]]; [done |].
  rewrite List.Forall_forall in Hf. by apply Hf.
Qed.

(** ** The catalog as an object literal *)

Section ObjectLiteralFacts.

Variable entries : list (string * ClauseInfo).

(** Under a key of its own the lookup finds the entry of the object. *)
Lemma objectLiteral_lookup_own k :
  In k (map fst entries) ->
  objectLiteral entries !! k
  = (list_to_map entries : gmap string ClauseInfo) !! k
  /\ is_Some (objectLiteral entries !! k).
Proof.
  intros Hk. unfold objectLiteral.
  destruct ((list_to_map entries : gmap string ClauseInfo) !! k)
    as [info|] eqn:Hl.
  - rewrite (lookup_union_Some_l _ _ _ _ Hl). split; [done | by eexists].
  - apply not_elem_of_list_to_map_2 in Hl. destruct Hl.
    apply in_map_iff in Hk as ([k' info] & <- & Hin).
    apply (list_elem_of_fmap_2 fst entries (k', info)).
    by apply list_elem_of_In.
Qed.

(** The filters of the viewer start as the keys of the catalog and a click
    toggles one of these keys, so every active filter is a key of the
    catalog. *)
Lemma filters_are_keys clicks :
  Forall (fun k => In k (map fst entries)) clicks ->
  Forall (fun k => In k (map fst entries))
    (toggleAll (map fst entries) clicks).
Proof.
  intros Hclicks. apply toggleAll_Forall; [| done].
  by apply List.Forall_forall.
Qed.

(** An annotation of the active set has an entry of its own. *)
Lemma active_is_key activeFilters x :
  Forall (fun k => In k (map fst entries)) activeFilters ->
  isActive activeFilters x = true ->
  In (convertClauseTypeToFrontendFormat (type x)) (map fst entries).
Proof.
  intros Hkeys Hx. unfold isActive in Hx.
  apply includes_In in Hx.
  rewrite List.Forall_forall in Hkeys. by apply Hkeys.
Qed.

(** With filters that are keys of the catalog, the pass looks up keys of
    the catalog only: it does the same on the object literal and on the
    map of its entries without the inherited members. *)
Lemma forEachStep_same_lookups (catalog catalog' : gmap string ClauseInfo)
    l st :
  Forall (fun a =>
            catalog !! convertClauseTypeToFrontendFormat (type a)
            = catalog' !! convertClauseTypeToFrontendFormat (type a)) l ->
  fold_left (forEachStep catalog) l st
  = fold_left (forEachStep catalog') l st.
Proof.
  intros Hl. revert st. induction Hl as [|a l Ha _ IH]; intros st; [done |].
  simpl. rewrite IH. f_equal. unfold forEachStep, forEachBody.
  by rewrite Ha.
Qed.

Lemma processContent_own_entries document activeFilters userAnnotations :
  Forall (fun k => In k (map fst entries)) activeFilters ->
  processContent document (objectLiteral entries) activeFilters
    userAnnotations
  = processContent document (list_to_map entries) activeFilters
      userAnnotations.
Proof.
  intros Hkeys. unfold processContent.
  destruct (content_type document) as [t|]; [| done].
  repeat (case_match; try done).
  apply forEachStep_same_lookups. apply List.Forall_forall.
  intros visible Hvisible. apply objectLiteral_lookup_own.
  apply (active_is_key activeFilters); [done |].
  unfold visibleAnnotations in Hvisible.
  rewrite sortByStart_In, in_app_iff, !filter_In in Hvisible. tauto.
Qed.

End ObjectLiteralFacts.

(** ** Failures stay local *)

(** C6.  The catalog is an object literal and the filters are those the
    viewer is in after any clicks on its filter buttons, one button for each
    key of the catalog.  An annotation without a position is skipped with
    one diagnostic and the body is left as it is.  An annotation whose
    position ends at or before its start produces no highlight, and at least
    one diagnostic when it is in the active set.  For any input, taking one
    ill-formed annotation out of the detected clauses or out of the user
    annotations does not change the body the pass produces, so the
    highlights of the others are the same. *)
Theorem failures_are_local (entries : list (string * ClauseInfo))
    (clicks : list string) document userAnnotations
    (l1 l2 : list Annotation) (x : Annotation) (body : list Node) :
  let catalog := objectLiteral entries in
  let activeFilters := toggleAll (map fst entries) clicks in
  Forall (fun k => In k (map fst entries)) clicks ->
  illFormed x ->
  (position x = None ->
   exists line,
     forEachBody catalog body x = (body, [line]) /\ isDiagnostic line = true)
  /\ (forall p,
        position x = Some p ->
        fst (forEachBody catalog body x) = body
        /\ (isActive activeFilters x = true ->
            exists line,
              In line (snd (forEachBody catalog body x))
              /\ isDiagnostic line = true))
  /\ fst (processContent (withClauses document (l1 ++ x :: l2)) catalog
            activeFilters userAnnotations)
     = fst (processContent (withClauses document (l1 ++ l2)) catalog
              activeFilters userAnnotations)
  /\ fst (processContent document catalog activeFilters (l1 ++ x :: l2))
     = fst (processContent document catalog activeFilters (l1 ++ l2)).
Proof.
  intros catalog activeFilters Hclicks Hx.
  pose proof (filters_are_keys entries clicks Hclicks) as Hkeys.
  fold activeFilters in Hkeys.
  assert (Hneutral : forall b, fst (forEachBody catalog b x) = b)
    by (intros b; by apply forEachBody_illFormed).
  split; [|split; [|split]].
  - intros Hp. eexists. split; [by apply forEachBody_no_position | done].
  - intros p Hp. split; [apply Hneutral |].
    intros Hactive.
    destruct (proj2 (objectLiteral_lookup_own entries _
                       (active_is_key entries activeFilters x Hkeys Hactive)))
      as [clauseInfo Hc].
    exists (CouldNotFindElement (start p) (end_ p)).
    split; [|done].
    unfold illFormed in Hx. rewrite Hp in Hx.
    unfold forEachBody. subst catalog. rewrite Hp, Hc. simpl.
    destruct (visit_all_degenerate x p clauseInfo body Hx) as [_ ->].
    right. apply in_or_app. right. by left.
  - apply (processContent_remove catalog activeFilters
             (withClauses document (l1 ++ x :: l2))
             (withClauses document (l1 ++ l2)) _ _ x eq_refl eq_refl
             (visible_remove_clause document activeFilters userAnnotations
                l1 x l2)).
    exact Hneutral.
  - apply (processContent_remove catalog activeFilters document document
             _ _ x eq_refl eq_refl
             (visible_remove_user document activeFilters l1 x l2)).
    exact Hneutral.
Qed.

Lemma failures_are_local_witness :
  (Forall (fun k => In k (map fst Examples.catalogEntries))
     ["review-comments"]
   /\ illFormed Examples.emptyLaw
   /\ position Examples.emptyLaw = Some {| start := 40; end_ := 40 |}
   /\ isActive (toggleAll (map fst Examples.catalogEntries)
                  ["review-comments"]) Examples.emptyLaw = true)
  /\ fst (forEachBody (objectLiteral Examples.catalogEntries)
            [Examples.sentenceLeaf] Examples.emptyLaw)
     = [Examples.sentenceLeaf]
  /\ exists line,
      In line
        (snd (forEachBody (objectLiteral Examples.catalogEntries)
                [Examples.sentenceLeaf] Examples.emptyLaw))
      /\ isDiagnostic line = true.
Proof.
  assert (H1 : Forall (fun k => In k (map fst Examples.catalogEntries))
                 ["review-comments"]).
  { constructor; [right; by left | constructor]. }
  assert (H2 : illFormed Examples.emptyLaw)
    by (unfold illFormed, Examples.emptyLaw, Examples.detected; simpl; lia).
  assert (H3 : position Examples.emptyLaw
               = Some {| start := 40; end_ := 40 |}) by reflexivity.
  assert (H4 : isActive (toggleAll (map fst Examples.catalogEntries)
                           ["review-comments"]) Examples.emptyLaw = true)
    by reflexivity.
  split; [done |].
  destruct (proj1 (proj2
    (failures_are_local Examples.catalogEntries ["review-comments"]
       (Examples.html [Examples.sentenceLeaf] []) [] []
       [Examples.lawsOfDelaware] Examples.emptyLaw [Examples.sentenceLeaf]
       H1 H2)) _ H3) as [Hbody Hline].
  split; [exact Hbody | exact (Hline H4)].
Defined.

(** ** The interval resolver *)

(** C2, at the failing input.  A clause over [5, 25) on three leaves with
    ranges [0, 10), [10, 20) and [20, 30): the middle leaf intersects the
    clause, lies strictly inside it, falls in none of the three branches
    and comes out of the pass unchanged, while the first and the last leaf
    are spliced. *)
Theorem strictly_inside_leaf_not_highlighted :
  classification Examples.spanningPosition (Examples.leaf 10 20 "abcdefghij")
  = None
  /\ fst (processContent (Examples.html Examples.threeLeaves [Examples.spanning])
            Examples.catalog ["governing-law"] [])
     = [Element "span" [("data-start", "0"); ("data-end", "10")]
          [Text "01234";
           overlapSpan Examples.spanning Examples.spanningPosition
             Examples.governingLaw "56789"];
        Examples.leaf 10 20 "abcdefghij";
        Element "span" [("data-start", "20"); ("data-end", "30")]
          [overlapSpan Examples.spanning Examples.spanningPosition
             Examples.governingLaw "ABCDE";
           Text "FGHIJ"]].
Proof. split; vm_compute; reflexivity. Qed.

(** The same for every element strictly inside a position: the loop body
    passes it over. *)
Lemma loopBody_strictly_inside annotation p clauseInfo element s e :
  rangeOf element = Some (s, e) ->
  start p < s -> e < end_ p ->
  loopBody annotation p clauseInfo element = passOver.
Proof.
  destruct element as [data|tagName attributes childNodes]; [done |].
  unfold rangeOf, loopBody.
  destruct (elStart attributes) as [s'|]; [|done].
  destruct (elEnd attributes) as [e'|]; [|done].
  intros [= -> ->] Hs He. by rewrite classify_strictly_inside.
Qed.

(** C3 as stated fails: two leaves whose ranges both hold the clause are
    both classified as containing it, and the pass splices the later one
    after the first. *)
Lemma later_leaf_spliced_after_contained_match :
  map (classification Examples.insidePosition) Examples.overlappingLeaves
  = [Some Contained; Some Contained]
  /\ fst (processContent
            (Examples.html Examples.overlappingLeaves [Examples.inside])
            Examples.catalog ["governing-law"] [])
     = [Element "span" [("data-start", "0"); ("data-end", "10")]
          [Text "012345";
           containedSpan Examples.inside Examples.insidePosition
             Examples.governingLaw "678";
           Text "9"];
        Element "span" [("data-start", "5"); ("data-end", "15")]
          [Text "5";
           containedSpan Examples.inside Examples.insidePosition
             Examples.governingLaw "678";
           Text "9abcde"]].
Proof. split; vm_compute; reflexivity. Qed.

(** The same on a document whose ranges are consistent: a span with a
    range around two leaves.  The outer span is spliced first, as
    containing the clause; the loop then still runs its body on the first
    inner leaf, which logs a second match. *)
Example nested_candidates_both_run :
  snd (processContent
         (Examples.html [Examples.nestedLeaves] [Examples.detected 1 3 "12"])
         Examples.catalog ["governing-law"] [])
  = [AnnotationsToHighlight 1; LookingToHighlight 1 3 "12";
     FoundTextToHighlight "12"; FoundTextToHighlight "12"].
Proof. vm_compute; reflexivity. Qed.

(** C3, as the code has it.  The loop runs its body on every matched
    element in document order, without leaving early: the log and
    [foundMatch] are those of the loop body over the whole list.  When two
    elements have disjoint ranges and the position is well formed, an
    element classified as containing the position is the only one of the
    two that is spliced. *)
Theorem every_candidate_is_classified annotation p clauseInfo body :
  concat (map logs (map (visit annotation p clauseInfo) body))
  = flat_map (fun el => logged (loopBody annotation p clauseInfo el))
      (flat_map querySelectorAll body)
  /\ existsb found (map (visit annotation p clauseInfo) body)
     = existsb (fun el => replaces (loopBody annotation p clauseInfo el))
         (flat_map querySelectorAll body)
  /\ forall el other s e s' e',
      start p < end_ p ->
      rangeOf el = Some (s, e) ->
      rangeOf other = Some (s', e') ->
      e <= s' \/ e' <= s ->
      classification p el = Some Contained ->
      replacement (loopBody annotation p clauseInfo other) = None.
Proof.
  split; [apply visit_all_logs | split; [apply visit_all_found |]].
  intros el other s e s' e' Hp Hel Hother Hdisjoint Hc.
  destruct el as [data|tagName attributes childNodes]; [done |].
  destruct other as [data|tagName' attributes' childNodes']; [done |].
  simpl in Hel, Hother, Hc.
  destruct (elStart attributes) as [s0|]; [|done].
  destruct (elEnd attributes) as [e0|]; [|done].
  injection Hel as -> ->. apply classify_Contained in Hc.
  destruct (replacement _) as [newElement|] eqn:Hr; [|done].
  apply loopBody_replacement in Hr as (s1 & e1 & c & Hs1 & He1 & Hc1 & _).
  rewrite Hs1, He1 in Hother. injection Hother as -> ->.
  destruct c.
  - apply classify_Contained in Hc1. lia.
  - apply classify_LeftOverlap in Hc1. lia.
  - apply classify_RightOverlap in Hc1. lia.
Qed.

Lemma every_candidate_is_classified_witness :
  (start Examples.spanningPosition < end_ Examples.spanningPosition
   /\ rangeOf (Examples.leaf 0 30 "x") = Some (0, 30)
   /\ rangeOf (Examples.leaf 30 40 "y") = Some (30, 40)
   /\ (30 <= 30 \/ 40 <= 0)
   /\ classification Examples.spanningPosition (Examples.leaf 0 30 "x")
      = Some Contained)
  /\ replacement
       (loopBody Examples.spanning Examples.spanningPosition
          Examples.governingLaw (Examples.leaf 30 40 "y")) = None.
Proof.
  assert (H1 : start Examples.spanningPosition < end_ Examples.spanningPosition)
    by (simpl; lia).
  assert (H2 : rangeOf (Examples.leaf 0 30 "x") = Some (0, 30))
    by (vm_compute; reflexivity).
  assert (H3 : rangeOf (Examples.leaf 30 40 "y") = Some (30, 40))
    by (vm_compute; reflexivity).
  assert (H4 : 30 <= 30 \/ 40 <= 0) by (left; lia).
  assert (H5 : classification Examples.spanningPosition
                 (Examples.leaf 0 30 "x") = Some Contained)
    by (vm_compute; reflexivity).
  split; [done |].
  exact (proj2 (proj2
    (every_candidate_is_classified Examples.spanning
       Examples.spanningPosition Examples.governingLaw []))
    _ _ _ _ _ _ H1 H2 H3 H4 H5).
Defined.

(** ** A clause across two adjacent leaves *)

(** The end of one slice of a text followed by the start of the next
    slice is the slice across the cut. *)
Lemma slices_across_cut (D : string) (a b c d e : nat) :
  (a <= b < c)%nat -> (c < d <= e)%nat -> (e <= String.length D)%nat ->
  let first := JS.take (c - a) (JS.drop a D) in
  let second := JS.take (e - c) (JS.drop c D) in
  JS.drop (b - a) first +:+ JS.take (d - c) second
  = JS.take (d - b) (JS.drop b D)
  /\ JS.drop (b - a) first <> ""
  /\ JS.take (d - c) second <> "".
Proof.
  intros Hab Hcd He first second. subst first second.
  assert (H1 : JS.drop (b - a) (JS.take (c - a) (JS.drop a D))
               = JS.take (c - b) (JS.drop b D)).
  { rewrite (string_take_drop_commute (c - a) a), string_drop_drop.
    replace (a + (c - a))%nat with c by lia.
    replace (a + (b - a))%nat with b by lia.
    rewrite (string_take_drop_commute (c - b) b).
    by replace (b + (c - b))%nat with c by lia. }
  assert (H2 : JS.take (d - c) (JS.take (e - c) (JS.drop c D))
               = JS.take (d - c) (JS.drop (c - b) (JS.drop b D))).
  { rewrite string_take_take, string_drop_drop.
    replace (Nat.min (d - c) (e - c)) with (d - c)%nat by lia.
    by replace (b + (c - b))%nat with c by lia. }
  rewrite H1, H2. split; [|split].
  - rewrite <- string_take_plus. by replace (c - b + (d - c))%nat with (d - b)%nat by lia.
  - intros Hempty%string_length_zero. rewrite string_length_take, string_length_drop in Hempty. lia.
  - intros Hempty%string_length_zero.
    rewrite string_length_take, !string_length_drop in Hempty. lia.
Qed.

(** C5.  Two adjacent leaves hold the slices [s1, m) and [m, e2) of the
    document text, and the clause, whose selected text is the slice
    [start, end) of that text, falls in the left-overlap branch on the first
    and in the right-overlap branch on the second.  Then both are spliced,
    each with one highlighted span, and the text of the first span followed
    by the text of the second is the selected text of the clause. *)
Theorem split_coverage (documentText : string) annotation p clauseInfo
    (first second : Node) (s1 m e2 : Z) :
  rangeOf first = Some (s1, m) ->
  rangeOf second = Some (m, e2) ->
  0 <= s1 -> e2 <= JS.length documentText ->
  textContent first = JS.substring documentText s1 m ->
  textContent second = JS.substring documentText m e2 ->
  selected_text annotation = JS.substring documentText (start p) (end_ p) ->
  classification p first = Some LeftOverlap ->
  classification p second = Some RightOverlap ->
  exists new1 new2 span1 span2,
    replacement (loopBody annotation p clauseInfo first) = Some new1
    /\ replacement (loopBody annotation p clauseInfo second) = Some new2
    /\ elementChildren new1 = [span1]
    /\ elementChildren new2 = [span2]
    /\ ownText span1 +:+ ownText span2 = selected_text annotation.
Proof.
  intros Hr1 Hr2 Hs1 He2 Ht1 Ht2 Hsel Hc1 Hc2.
  destruct first as [data|tag1 attrs1 ch1]; [done |].
  destruct second as [data|tag2 attrs2 ch2]; [done |].
  simpl in Hr1, Hr2, Hc1, Hc2. unfold loopBody.
  destruct (elStart attrs1) as [s|]; [|done].
  destruct (elEnd attrs1) as [e|]; [|done]. injection Hr1 as -> ->.
  destruct (elStart attrs2) as [s|]; [|done].
  destruct (elEnd attrs2) as [e|]; [|done]. injection Hr2 as -> ->.
  rewrite Hc1, Hc2, Ht1, Ht2.
  apply classify_LeftOverlap in Hc1. apply classify_RightOverlap in Hc2.
  replace (Z.max 0 (start p - s1)) with (start p - s1) by lia.
  unfold JS.length in He2.
  destruct (slices_across_cut documentText (Z.to_nat s1) (Z.to_nat (start p))
              (Z.to_nat m) (Z.to_nat (end_ p)) (Z.to_nat e2))
    as (Hcat & Hne1 & Hne2); [lia | lia | lia |].
  assert (Hh1 : JS.substring_from (JS.substring documentText s1 m)
                  (start p - s1)
                = JS.drop (Z.to_nat (start p) - Z.to_nat s1)
                    (JS.take (Z.to_nat m - Z.to_nat s1)
                       (JS.drop (Z.to_nat s1) documentText))).
  { rewrite substring_suffix, substring_from_index by lia.
    by rewrite !Z2Nat.inj_sub by lia. }
  assert (Hh2 : JS.substring (JS.substring documentText m e2) 0 (end_ p - m)
                = JS.take (Z.to_nat (end_ p) - Z.to_nat m)
                    (JS.take (Z.to_nat e2 - Z.to_nat m)
                       (JS.drop (Z.to_nat m) documentText))).
  { rewrite substring_prefix, substring_from_index by lia.
    by rewrite !Z2Nat.inj_sub by lia. }
  rewrite Hh1, Hh2.
  rewrite (proj2 (truthy_true _) Hne1), (proj2 (truthy_true _) Hne2).
  do 4 eexists. simpl replacement. rewrite !textChild_optionalText.
  split; [done |]. split; [done |].
  split; [by apply (elementChildren_splice _ _ _ _ "") |].
  split; [by apply (elementChildren_splice _ _ "") |].
  rewrite !ownText_overlapSpan, Hcat, Hsel.
  rewrite substring_from_index by lia.
  by rewrite Z2Nat.inj_sub by lia.
Qed.

Lemma split_coverage_witness :
  (rangeOf Examples.adjacentLeft = Some (0, 25)
   /\ rangeOf Examples.adjacentRight = Some (25, 35)
   /\ 0 <= 0 /\ 35 <= JS.length Examples.contract
   /\ textContent Examples.adjacentLeft
      = JS.substring Examples.contract 0 25
   /\ textContent Examples.adjacentRight
      = JS.substring Examples.contract 25 35
   /\ selected_text Examples.across = JS.substring Examples.contract 17 27
   /\ classification Examples.acrossPosition Examples.adjacentLeft
      = Some LeftOverlap
   /\ classification Examples.acrossPosition Examples.adjacentRight
      = Some RightOverlap)
  /\ exists new1 new2 span1 span2,
      replacement
        (loopBody Examples.across Examples.acrossPosition
           Examples.governingLaw Examples.adjacentLeft) = Some new1
      /\ replacement
           (loopBody Examples.across Examples.acrossPosition
              Examples.governingLaw Examples.adjacentRight) = Some new2
      /\ elementChildren new1 = [span1]
      /\ elementChildren new2 = [span2]
      /\ ownText span1 +:+ ownText span2 = "assign. No".
Proof.
  split; [repeat split; vm_compute; congruence |].
  apply (split_coverage Examples.contract Examples.across
           Examples.acrossPosition Examples.governingLaw
           Examples.adjacentLeft Examples.adjacentRight 0 25 35);
    vm_compute; congruence.
Defined.

(** ** The click handler *)

Section ToStringFacts.

Lemma to_int_not_nil n : Z.to_int n <> Decimal.Pos Decimal.Nil
                         /\ Z.to_int n <> Decimal.Neg Decimal.Nil.
Proof.
  destruct n as [|q|q]; simpl; split; try discriminate;
    intros [= H]; by apply DecimalPos.Unsigned.to_uint_nonnil in H.
Qed.

Lemma toString_parses n :
  NilZero.int_of_string (JS.toString n) = Some (Z.to_int n).
Proof.
  destruct (to_int_not_nil n). by apply NilZero.isi.
Qed.

(** Distinct integers print differently. *)
Lemma toString_inj n m : JS.toString n = JS.toString m -> n = m.
Proof.
  intros H. apply DecimalZ.to_int_inj.
  pose proof (toString_parses n) as Hn. rewrite H, toString_parses in Hn.
  by injection Hn.
Qed.

(** No integer prints as [undefined]. *)
Lemma toString_not_undefined n : JS.toString n <> "undefined".
Proof.
  intros H. pose proof (toString_parses n) as Hn. rewrite H in Hn.
  vm_compute in Hn. discriminate.
Qed.

End ToStringFacts.

Section ClickFacts.

Variables (document : Document) (userAnnotations : list Annotation).
Variables (annotation : Annotation) (p : Position) (clauseInfo : ClauseInfo).

(** The spans of both kinds are of class [clause-highlight] and carry the
    type and the identifier. *)
Lemma span_read_back highlightedText span :
  span = containedSpan annotation p clauseInfo highlightedText
  \/ span = overlapSpan annotation p clauseInfo highlightedText ->
  classListContains "clause-highlight" (attributesOf span) = true
  /\ getAttribute "data-clause-type" (attributesOf span)
     = Some (type annotation)
  /\ getAttribute "data-annotation-id" (attributesOf span)
     = Some (annotationId annotation p).
Proof.
  intros [->| ->]; (split; [|by split]);
    unfold classListContains, containedSpan, overlapSpan, highlightClassName;
    simpl; by destruct (user annotation).
Qed.

(** The identifier read back from a span selects by type and start. *)
Lemma identifier_test clause :
  bool_decide (Some (type clause) = Some (type annotation))
  && bool_decide (Some (clickedId (Some (type annotation)) clause)
                  = Some (annotationId annotation p))
  = sameIdentifier annotation p clause.
Proof.
  unfold sameIdentifier, clickedId, annotationId. simpl.
  destruct (decide (type clause = type annotation)) as [Ht|Ht].
  - rewrite (bool_decide_eq_true_2 (Some (type clause) = Some (type annotation)))
      by congruence.
    rewrite (bool_decide_eq_true_2 (type clause = type annotation)) by done.
    simpl. apply bool_decide_ext. split.
    + intros [= H]. apply (inj (String.app _)), (inj (String.app _)) in H.
      destruct (position clause) as [q|]; simpl.
      * by apply toString_inj in H as ->.
      * symmetry in H. by apply toString_not_undefined in H.
    + destruct (position clause) as [q|]; simpl; [|done].
      by intros [= ->].
  - rewrite (bool_decide_eq_false_2 (Some (type clause) = Some (type annotation)))
      by congruence.
    by rewrite (bool_decide_eq_false_2 (type clause = type annotation)).
Qed.

(** A click on a span of either kind looks the union up by type and
    start. *)
Lemma onClick_span highlightedText span :
  span = containedSpan annotation p clauseInfo highlightedText
  \/ span = overlapSpan annotation p clauseInfo highlightedText ->
  onClick document userAnnotations span
  = List.find (sameIdentifier annotation p) (clauses document ++ userAnnotations).
Proof.
  intros Hkind.
  destruct (span_read_back highlightedText span Hkind) as (Hclass & Htype & Hid).
  assert (Hel : exists tagName attributes childNodes,
             span = Element tagName attributes childNodes)
    by (destruct Hkind as [->| ->]; unfold containedSpan, overlapSpan; eauto).
  destruct Hel as (tagName & attributes & childNodes & ->).
  simpl in Hclass, Htype, Hid. unfold onClick.
  rewrite Hclass, Htype, Hid.
  induction (clauses document ++ userAnnotations) as [|c l IH]; simpl;
    [done |].
  by rewrite identifier_test, IH.
Qed.

End ClickFacts.

(** ** Two annotations on one leaf *)

Section SharedLeafFacts.

Lemma textContent_app tagName attributes l1 l2 :
  textContent (Element tagName attributes (l1 ++ l2))
  = textContent (Element tagName attributes l1)
    +:+ textContent (Element tagName attributes l2).
Proof.
  induction l1 as [|c l1 IH]; [done |].
  change (textContent c +:+ textContent (Element tagName attributes (l1 ++ l2))
          = (textContent c +:+ textContent (Element tagName attributes l1))
            +:+ textContent (Element tagName attributes l2)).
  by rewrite IH, string_append_assoc.
Qed.

Lemma textContent_textChild tagName attributes t :
  textContent (Element tagName attributes (textChild t)) = t.
Proof. destruct t; [done | apply string_append_empty_r]. Qed.

Lemma textContent_single tagName attributes n :
  textContent (Element tagName attributes [n]) = textContent n.
Proof. apply string_append_empty_r. Qed.


(** The contained span carries its tooltip in its text content. *)
Lemma textContent_containedSpan annotation p clauseInfo t :
  textContent (containedSpan annotation p clauseInfo t)
  = t +:+ name clauseInfo +:+ JS.toString (confidence annotation)
    +:+ "% confidence".
Proof.
  unfold containedSpan, tooltip, textChild.
  destruct t as [|c t], (name clauseInfo) as [|d nm];
    cbn [textContent fold_right JS.truthy app];
    by rewrite ?string_append_empty_r, ?string_append_empty_l.
Qed.





End SharedLeafFacts.

(** ** A leaf spliced twice, the first time as contained *)

Section TooltipFacts.

Lemma tooltipText_length annotation clauseInfo :
  0 < JS.length (tooltipText annotation clauseInfo).
Proof.
  unfold tooltipText, JS.length. rewrite !string_length_append. simpl. lia.
Qed.

(** The text content of a leaf after a contained splice: the text before
    the highlight, the highlighted text, the text of the tooltip and the
    text after the highlight. *)
Lemma textContent_contained_splice annotation p clauseInfo tagName attributes
    text a b :
  textContent
    (Element tagName attributes
       (textChild (JS.substring text 0 a)
        ++ [containedSpan annotation p clauseInfo (JS.substring text a b)]
        ++ textChild (JS.substring_from text b)))
  = JS.substring text 0 a +:+ JS.substring text a b
    +:+ tooltipText annotation clauseInfo +:+ JS.substring_from text b.
Proof.
  rewrite !textContent_app, !textContent_textChild, textContent_single,
    textContent_containedSpan.
  unfold tooltipText. by rewrite !string_append_assoc.
Qed.

End TooltipFacts.

(** The pass at the failing input of C4.  Of two clauses over [10, 30) and
    [20, 40) in one leaf, the second is spliced into the leaf as the first
    splice left it: its highlighted text starts with the characters of its
    range and goes on with the text of the first tooltip, and the leaf ends
    up with the rest of that tooltip text as plain text. *)
Example second_clause_highlights_tooltip_text :
  fst (processContent
         (Examples.html [Examples.longLeaf]
            [Examples.earlier; Examples.later])
         (objectLiteral Examples.catalogEntries) ["governing-law"] [])
  = [Examples.longLeafRespliced]
  /\ map ownText (highlights Examples.longLeafRespliced)
     = ["ABCDEFGHIJGoverning "]
  /\ JS.substring Examples.longText 20 40 = "ABCDEFGHIJ0123456789".
Proof. repeat split; vm_compute; reflexivity. Qed.

(** C4, where the code departs from it.  A leaf holds one text node and is
    spliced for a first annotation contained in it; the tooltip of that
    splice is part of the text content of the leaf from then on.  A splice
    of the leaf for a second annotation takes its three texts from that text
    content: together they are the text before the first highlight, the
    first highlighted text, the text of the first tooltip and the text after
    it, which is longer than the original text of the leaf, and in the
    contained case the second highlighted text is cut from it at the offsets
    of the second annotation. *)
Theorem second_splice_reads_tooltip_text first pFirst infoFirst second
    pSecond infoSecond tagName attributes (t : string) afterFirst
    afterSecond :
  let leaf := Element tagName attributes [Text t] in
  replacement (loopBody first pFirst infoFirst leaf) = Some afterFirst ->
  classification pFirst leaf = Some Contained ->
  replacement (loopBody second pSecond infoSecond afterFirst)
  = Some afterSecond ->
  exists s c pre span post,
    elStart attributes = Some s
    /\ textContent afterFirst
       = JS.substring t 0 (start pFirst - s)
         +:+ JS.substring t (start pFirst - s) (end_ pFirst - s)
         +:+ tooltipText first infoFirst
         +:+ JS.substring_from t (end_ pFirst - s)
    /\ classification pSecond afterFirst = Some c
    /\ afterSecond
       = Element tagName attributes
           (optionalText pre ++ [span] ++ optionalText post)
    /\ elementChildren afterSecond = [span]
    /\ pre +:+ ownText span +:+ post = textContent afterFirst
    /\ JS.length t < JS.length (pre +:+ ownText span +:+ post)
    /\ match c with
       | Contained =>
           ownText span
           = String.substring (Z.to_nat (start pSecond - s))
               (Z.to_nat (end_ pSecond - start pSecond))
               (textContent afterFirst)
       | LeftOverlap => post = ""
       | RightOverlap => pre = ""
       end.
Proof.
  intros leaf Hfirst Hclass Hsecond. subst leaf.
  apply loopBody_replacement in Hfirst as (s & e & c1 & Hs & He & Hc1 & Hspl).
  assert (Hcl : classification pFirst (Element tagName attributes [Text t])
                = Some c1) by (simpl; by rewrite Hs, He).
  rewrite Hcl in Hclass. injection Hclass as ->.
  rewrite textContent_single in Hspl. cbn [textContent] in Hspl.
  inversion Hspl as [rs re Hrs Hlen Hne Heq | |]; subst rs re.
  clear Hspl. subst afterFirst.
  set (afterFirst :=
         Element tagName attributes
           (textChild (JS.substring t 0 (start pFirst - s))
            ++ [containedSpan first pFirst infoFirst
                  (JS.substring t (start pFirst - s) (end_ pFirst - s))]
            ++ textChild (JS.substring_from t (end_ pFirst - s)))) in *.
  assert (Htext : textContent afterFirst
                  = JS.substring t 0 (start pFirst - s)
                    +:+ JS.substring t (start pFirst - s) (end_ pFirst - s)
                    +:+ tooltipText first infoFirst
                    +:+ JS.substring_from t (end_ pFirst - s))
    by apply textContent_contained_splice.
  assert (Hlonger : JS.length t < JS.length (textContent afterFirst)).
  { rewrite Htext.
    pose proof (f_equal String.length
                  (substring_three_pieces t (start pFirst - s)
                     (end_ pFirst - s) ltac:(lia))) as Hpieces.
    pose proof (tooltipText_length first infoFirst) as Htip.
    unfold JS.length in *. rewrite !string_length_append in *. lia. }
  destruct (splicer_output second pSecond infoSecond tagName attributes _
              afterSecond Hsecond)
    as (s' & c & pre & span & post & Hs' & Hc & Hnew & Hchildren & _
        & Hsum & Hbranch).
  assert (s' = s) as -> by congruence.
  exists s, c, pre, span, post.
  fold afterFirst in Hc, Hsum, Hbranch.
  repeat split; try done. by rewrite Hsum.
Qed.

Lemma second_splice_reads_tooltip_text_witness :
  (replacement
     (loopBody Examples.earlier {| start := 10; end_ := 30 |}
        Examples.governingLaw Examples.longLeaf)
   = Some Examples.longLeafSpliced
   /\ classification {| start := 10; end_ := 30 |} Examples.longLeaf
      = Some Contained
   /\ replacement
        (loopBody Examples.later {| start := 20; end_ := 40 |}
           Examples.governingLaw Examples.longLeafSpliced)
      = Some Examples.longLeafRespliced)
  /\ exists s c pre span post,
      elStart (attributesOf Examples.longLeaf) = Some s
      /\ textContent Examples.longLeafSpliced
         = JS.substring Examples.longText 0 (10 - s)
           +:+ JS.substring Examples.longText (10 - s) (30 - s)
           +:+ tooltipText Examples.earlier Examples.governingLaw
           +:+ JS.substring_from Examples.longText (30 - s)
      /\ classification {| start := 20; end_ := 40 |} Examples.longLeafSpliced
         = Some c
      /\ Examples.longLeafRespliced
         = Element "span" (attributesOf Examples.longLeaf)
             (optionalText pre ++ [span] ++ optionalText post)
      /\ elementChildren Examples.longLeafRespliced = [span]
      /\ pre +:+ ownText span +:+ post
         = textContent Examples.longLeafSpliced
      /\ JS.length Examples.longText
         < JS.length (pre +:+ ownText span +:+ post)
      /\ match c with
         | Contained =>
             ownText span
             = String.substring (Z.to_nat (20 - s)) (Z.to_nat (40 - 20))
                 (textContent Examples.longLeafSpliced)
         | LeftOverlap => post = ""
         | RightOverlap => pre = ""
         end.
Proof.
  assert (H1 : replacement
                 (loopBody Examples.earlier {| start := 10; end_ := 30 |}
                    Examples.governingLaw Examples.longLeaf)
               = Some Examples.longLeafSpliced) by (vm_compute; reflexivity).
  assert (H2 : classification {| start := 10; end_ := 30 |} Examples.longLeaf
               = Some Contained) by (vm_compute; reflexivity).
  assert (H3 : replacement
                 (loopBody Examples.later {| start := 20; end_ := 40 |}
                    Examples.governingLaw Examples.longLeafSpliced)
               = Some Examples.longLeafRespliced)
    by (vm_compute; reflexivity).
  split; [done |].
  exact (second_splice_reads_tooltip_text Examples.earlier
           {| start := 10; end_ := 30 |} Examples.governingLaw Examples.later
           {| start := 20; end_ := 40 |} Examples.governingLaw "span"
           (attributesOf Examples.longLeaf) Examples.longText
           Examples.longLeafSpliced Examples.longLeafRespliced H1 H2 H3).
Defined.

(** ** Two annotations on one leaf, the first spliced as an overlap *)

Section PlaceFacts.

Variables (annotation : Annotation) (p : Position) (clauseInfo : ClauseInfo).






End PlaceFacts.

Section SubstringFacts.



End SubstringFacts.




(** C7 as stated fails for a user annotation inside one leaf: its span
    carries a confidence attribute, the fixed value 100. *)
Lemma user_highlight_carries_confidence :
  user Examples.lawsComment = true
  /\ map (fun span => getAttribute "data-confidence" (attributesOf span))
       (flat_map highlights
          (fst (processContent (Examples.html [Examples.sentenceLeaf] [])
                  Examples.catalog ["review-comments"]
                  [Examples.lawsComment])))
     = [Some "100"].
Proof. split; vm_compute; reflexivity. Qed.

(** ** Where the highlights of the output come from *)

Section Provenance.

Variable visible : list Annotation.

Lemma highlights_textChild t : flat_map highlights (textChild t) = [].
Proof. by destruct t. Qed.

Lemma highlights_containedSpan annotation p clauseInfo t :
  highlights (containedSpan annotation p clauseInfo t)
  = [containedSpan annotation p clauseInfo t].
Proof.
  unfold containedSpan, tooltip, highlightClassName.
  destruct t, (name clauseInfo), (user annotation); reflexivity.
Qed.

Lemma highlights_overlapSpan annotation p clauseInfo t :
  highlights (overlapSpan annotation p clauseInfo t)
  = [overlapSpan annotation p clauseInfo t].
Proof.
  unfold overlapSpan, highlightClassName.
  destruct t, (user annotation); reflexivity.
Qed.

(** [madeFor] looks at the attributes only. *)
Lemma madeFor_attributes h h' :
  attributesOf h = attributesOf h' -> madeFor visible h -> madeFor visible h'.
Proof.
  intros Heq (a & p & info & t & Ha & Hp & Hk).
  exists a, p, info, t. by rewrite <- Heq.
Qed.

Lemma Forall_flat_map_highlights (P : Node -> Prop) l :
  Forall P (flat_map highlights l)
  <-> Forall (fun n => Forall P (highlights n)) l.
Proof.
  induction l as [|n l IH]; simpl.
  - split; constructor.
  - rewrite Forall_app, IH. split.
    + intros [H1 H2]. by constructor.
    + intros H. apply Forall_cons_1 in H. done.
Qed.

(** The head of [highlights] on an element depends on its attributes. *)
Lemma highlights_head tagName attributes childNodes childNodes' :
  Forall (madeFor visible)
    (highlights (Element tagName attributes childNodes)) ->
  Forall (madeFor visible) (flat_map highlights childNodes') ->
  Forall (madeFor visible)
    (highlights (Element tagName attributes childNodes')).
Proof.
  cbn [highlights]. intros [Hhead _]%Forall_app Hrest.
  apply Forall_app. split; [|done].
  destruct (classListContains "clause-highlight" attributes); [|constructor].
  apply Forall_cons_1 in Hhead as [Hhead _].
  constructor; [|constructor].
  by apply (madeFor_attributes (Element tagName attributes childNodes)).
Qed.

(** One loop over the tree for a visible annotation keeps every highlight
    among those made for visible annotations. *)
Lemma visit_madeFor annotation p clauseInfo n :
  In annotation visible -> position annotation = Some p ->
  Forall (madeFor visible) (highlights n) ->
  Forall (madeFor visible)
    (highlights (result (visit annotation p clauseInfo n))).
Proof.
  intros Hin Hp.
  induction n as [data|tagName attributes childNodes IH] using Node_ind;
    [done |].
  intros Hn. rewrite visit_Element. cbv zeta. cbn [result].
  destruct (replacement _) as [newElement|] eqn:Hr.
  - unfold iterationAt in Hr.
    destruct (matchesSelector tagName attributes); [|done].
    apply loopBody_replacement in Hr as (s & e & c & _ & _ & _ & Hs).
    assert (Hmade : forall t,
               madeFor visible (containedSpan annotation p clauseInfo t)
               /\ madeFor visible (overlapSpan annotation p clauseInfo t)).
    { intros t. split; exists annotation, p, clauseInfo, t; auto. }
    destruct Hs; apply (highlights_head _ _ childNodes); try done;
      rewrite !flat_map_app, !highlights_textChild; cbn [flat_map];
      rewrite ?highlights_containedSpan, ?highlights_overlapSpan;
      cbn [app]; constructor; try constructor; apply Hmade.
  - apply (highlights_head _ _ childNodes); [done |].
    cbn [highlights] in Hn. apply Forall_app in Hn as [_ Hn].
    apply Forall_flat_map_highlights in Hn.
    apply Forall_flat_map_highlights.
    clear Hr. induction IH as [|c cs Hc _ IHcs]; simpl; [constructor |].
    apply Forall_cons_1 in Hn as [Hn1 Hn2].
    constructor; [by apply Hc | by apply IHcs].
Qed.

Lemma forEachBody_madeFor catalog annotation body :
  In annotation visible ->
  Forall (madeFor visible) (flat_map highlights body) ->
  Forall (madeFor visible)
    (flat_map highlights (fst (forEachBody catalog body annotation))).
Proof.
  intros Hin Hbody. unfold forEachBody.
  destruct (position annotation) as [p|] eqn:Hp; [|done].
  destruct (catalog !! _) as [clauseInfo|]; [|done]. cbn [fst].
  apply Forall_flat_map_highlights in Hbody.
  apply Forall_flat_map_highlights.
  induction Hbody as [|n body Hn _ IH]; simpl; [constructor |].
  constructor; [by apply visit_madeFor | done].
Qed.

Lemma bodyAfter_madeFor catalog l body :
  (forall a, In a l -> In a visible) ->
  Forall (madeFor visible) (flat_map highlights body) ->
  Forall (madeFor visible) (flat_map highlights (bodyAfter catalog l body)).
Proof.
  revert body. induction l as [|a l IH]; intros body Hl Hbody; [done |].
  apply IH; [intros a' Ha'; apply Hl; by right |].
  apply forEachBody_madeFor; [apply Hl; by left | done].
Qed.

End Provenance.

(** The visible annotations are annotations of the union the click handler
    searches. *)
Lemma visible_in_union document activeFilters userAnnotations a :
  In a (visibleAnnotations document activeFilters userAnnotations) ->
  In a (clauses document ++ userAnnotations).
Proof.
  unfold visibleAnnotations. rewrite sortByStart_In, !in_app_iff.
  rewrite !filter_In. tauto.
Qed.

(** Every highlight of the output was made for an annotation of the union,
    when the document comes without highlights. *)
Lemma processContent_madeFor document catalog activeFilters userAnnotations :
  flat_map highlights (content document) = [] ->
  Forall (madeFor (clauses document ++ userAnnotations))
    (flat_map highlights
       (fst (processContent document catalog activeFilters userAnnotations))).
Proof.
  intros Hclean.
  destruct (decide (content_type document = Some "html")) as [Hh|Hh].
  - rewrite processContent_html by done. cbn [fst].
    apply bodyAfter_madeFor; [apply visible_in_union |].
    rewrite Hclean. constructor.
  - rewrite processContent_not_html by done. cbn [fst].
    rewrite Hclean. constructor.
Qed.

(** ** A clause type the catalog does not know *)

(** C10.  The catalog is an object literal and the filters are those the
    viewer is in after any clicks on its filter buttons, one button for each
    key of the catalog.  An annotation whose clause type, in the hyphenated
    encoding, is no key of the catalog makes no difference to the pass: with
    it among the detected clauses or among the user annotations, the body
    and the whole log are what they are without it, so the pass logs nothing
    for it, no diagnostic included, and processes the others the same.  No
    highlight of the output carries its clause type, when the document comes
    without highlights.  The guard of the callback itself returns in silence
    for an annotation that has a position and for which the lookup finds
    nothing. *)
Theorem unknown_type_skipped_silently (entries : list (string * ClauseInfo))
    (clicks : list string) document userAnnotations
    (l1 l2 : list Annotation) (x : Annotation) :
  let catalog := objectLiteral entries in
  let activeFilters := toggleAll (map fst entries) clicks in
  Forall (fun k => In k (map fst entries)) clicks ->
  ~ In (convertClauseTypeToFrontendFormat (type x)) (map fst entries) ->
  processContent (withClauses document (l1 ++ x :: l2)) catalog
    activeFilters userAnnotations
  = processContent (withClauses document (l1 ++ l2)) catalog
      activeFilters userAnnotations
  /\ processContent document catalog activeFilters (l1 ++ x :: l2)
     = processContent document catalog activeFilters (l1 ++ l2)
  /\ (flat_map highlights (content document) = [] ->
      forall span,
        In span
          (flat_map highlights
             (fst (processContent document catalog activeFilters
                     userAnnotations))) ->
        getAttribute "data-clause-type" (attributesOf span)
        <> Some (type x))
  /\ (catalog !! convertClauseTypeToFrontendFormat (type x) = None ->
      forall body p,
        position x = Some p -> forEachBody catalog body x = (body, [])).
Proof.
  intros catalog activeFilters Hclicks Hx.
  pose proof (filters_are_keys entries clicks Hclicks) as Hkeys.
  fold activeFilters in Hkeys.
  assert (Hown : forall a,
             isActive activeFilters a = true ->
             In (convertClauseTypeToFrontendFormat (type a))
               (map fst entries))
    by (intros a; by apply active_is_key).
  assert (Hinactive : isActive activeFilters x = false).
  { destruct (isActive activeFilters x) eqn:Ha; [| done].
    destruct Hx. by apply Hown. }
  split; [|split; [|split]].
  - unfold processContent, visibleAnnotations. simpl.
    rewrite !List.filter_app. simpl. by rewrite Hinactive.
  - unfold processContent, visibleAnnotations.
    rewrite !List.filter_app. simpl. by rewrite Hinactive.
  - intros Hclean span Hspan.
    assert (Hmade : Forall
                      (madeFor
                         (visibleAnnotations document activeFilters
                            userAnnotations))
                      (flat_map highlights
                         (fst (processContent document catalog activeFilters
                                 userAnnotations)))).
    { destruct (decide (content_type document = Some "html")) as [Hh|Hh].
      - rewrite processContent_html by done. cbn [fst].
        apply bodyAfter_madeFor; [done |]. rewrite Hclean. constructor.
      - rewrite processContent_not_html by done. cbn [fst].
        rewrite Hclean. constructor. }
    rewrite List.Forall_forall in Hmade.
    destruct (Hmade span Hspan) as (a & p & info & t & Ha & _ & Hattrs).
    assert (Htype : getAttribute "data-clause-type" (attributesOf span)
                    = Some (type a))
      by (destruct Hattrs as [-> | ->]; reflexivity).
    rewrite Htype. intros [= Heq].
    unfold visibleAnnotations in Ha.
    rewrite sortByStart_In, in_app_iff, !filter_In in Ha.
    assert (Hactive : isActive activeFilters a = true) by tauto.
    apply Hown in Hactive. rewrite Heq in Hactive. by destruct Hx.
  - intros Hnone body p Hp.
    by apply (forEachBody_no_clauseInfo catalog body x p).
Qed.

Lemma unknown_type_skipped_silently_witness :
  (Forall (fun k => In k (map fst Examples.catalogEntries))
     ["review-comments"; "review-comments"]
   /\ ~ In (convertClauseTypeToFrontendFormat (type Examples.unplaced))
          (map fst Examples.catalogEntries))
  /\ processContent
       (withClauses (Examples.html [Examples.sentenceLeaf] [])
          ([Examples.lawsOfDelaware] ++ Examples.unplaced :: []))
       (objectLiteral Examples.catalogEntries)
       (toggleAll (map fst Examples.catalogEntries)
          ["review-comments"; "review-comments"]) []
     = processContent
         (withClauses (Examples.html [Examples.sentenceLeaf] [])
            ([Examples.lawsOfDelaware] ++ []))
         (objectLiteral Examples.catalogEntries)
         (toggleAll (map fst Examples.catalogEntries)
            ["review-comments"; "review-comments"]) [].
Proof.
  assert (H1 : Forall (fun k => In k (map fst Examples.catalogEntries))
                 ["review-comments"; "review-comments"]).
  { constructor; [right; by left |].
    constructor; [right; by left | constructor]. }
  assert (H2 : ~ In (convertClauseTypeToFrontendFormat
                       (type Examples.unplaced))
                 (map fst Examples.catalogEntries)).
  { simpl. intros [H|[H|[]]]; discriminate H. }
  split; [done |].
  exact (proj1
    (unknown_type_skipped_silently Examples.catalogEntries
       ["review-comments"; "review-comments"]
       (Examples.html [Examples.sentenceLeaf] []) [] [Examples.lawsOfDelaware]
       [] Examples.unplaced H1 H2)).
Defined.

(** A lookup under a name every object inherits finds the inherited member,
    so in a state no click leads to, with such a name among the filters, an
    annotation of that type is highlighted, with the member's [color]. *)
Example inherited_name_is_looked_up :
  objectLiteral Examples.catalogEntries !! "constructor"
  = Some {| name := "Object"; color := "undefined" |}
  /\ map ownText
       (flat_map highlights
          (fst (processContent
                  (Examples.html [Examples.sentenceLeaf]
                     [{| type := "constructor";
                         selected_text := "laws of Delaware";
                         reason := "Named like an inherited member";
                         confidence := 80;
                         position := Some Examples.lawsPosition;
                         user := false |}])
                  (objectLiteral Examples.catalogEntries)
                  ["constructor"] [])))
     = ["laws of Delaware"].
Proof. split; vm_compute; reflexivity. Qed.

(** ** Clicks on rendered highlights *)

Lemma highlights_are_elements n h : In h (highlights n) -> isElement h = true.
Proof.
  induction n as [data|tagName attributes childNodes IH] using Node_ind;
    [done |].
  cbn [highlights]. rewrite in_app_iff. intros [Hh|Hh].
  - destruct (classListContains _ _); [|done]. by destruct Hh as [<-|[]].
  - induction IH as [|c cs Hc _ IHcs]; simpl in Hh; [done |].
    apply in_app_iff in Hh as [Hh|Hh]; [by apply Hc | by apply IHcs].
Qed.

(** The click handler reads of its target the attributes only. *)
Lemma onClick_attributes document userAnnotations h h' :
  isElement h = true -> isElement h' = true ->
  attributesOf h = attributesOf h' ->
  onClick document userAnnotations h = onClick document userAnnotations h'.
Proof.
  destruct h as [|t a c], h' as [|t' a' c']; try done.
  simpl. by intros _ _ ->.
Qed.

(** The lookup by type and start finds an annotation of that type and
    start, and finds the given one when it is the only such. *)
Lemma find_sameIdentifier (union : list Annotation) annotation p :
  In annotation union -> position annotation = Some p ->
  exists resolved,
    List.find (sameIdentifier annotation p) union = Some resolved
    /\ type resolved = type annotation
    /\ start <$> position resolved = Some (start p)
    /\ ((forall other,
            In other union ->
            type other = type annotation ->
            start <$> position other = Some (start p) ->
            other = annotation) ->
        resolved = annotation).
Proof.
  intros Hin Hp.
  destruct (List.find (sameIdentifier annotation p) union)
    as [resolved|] eqn:Hfind.
  - apply find_some in Hfind as [Hres Htest].
    apply andb_prop in Htest as [Ht Hs].
    apply bool_decide_eq_true in Ht. apply bool_decide_eq_true in Hs.
    exists resolved. repeat split; try done. intros Hunique. by apply Hunique.
  - exfalso. apply (find_none _ _ Hfind) in Hin.
    unfold sameIdentifier in Hin. rewrite Hp in Hin. simpl in Hin.
    by rewrite !bool_decide_eq_true_2 in Hin.
Qed.

(** C9, as the code has it.  Take a document that comes without
    highlights.  Every highlighted span of the output of the pass was made
    for an annotation of the union of detected clauses and user annotations
    and carries its type and its identifier [type-start]; a click on the
    span returns the first annotation of the union, detected clauses first,
    that has that type and that start offset; this is the annotation the
    span was made for when no other annotation of the union has the same
    type and the same start offset. *)
Theorem click_resolves_by_type_and_start document catalog activeFilters
    userAnnotations span :
  flat_map highlights (content document) = [] ->
  In span
    (flat_map highlights
       (fst (processContent document catalog activeFilters userAnnotations))) ->
  exists annotation p,
    In annotation (clauses document ++ userAnnotations)
    /\ position annotation = Some p
    /\ getAttribute "data-clause-type" (attributesOf span)
       = Some (type annotation)
    /\ getAttribute "data-annotation-id" (attributesOf span)
       = Some (type annotation +:+ "-" +:+ JS.toString (start p))
    /\ onClick document userAnnotations span
       = List.find (sameIdentifier annotation p)
           (clauses document ++ userAnnotations)
    /\ exists resolved,
        onClick document userAnnotations span = Some resolved
        /\ type resolved = type annotation
        /\ start <$> position resolved = Some (start p)
        /\ ((forall other,
                In other (clauses document ++ userAnnotations) ->
                type other = type annotation ->
                start <$> position other = Some (start p) ->
                other = annotation) ->
            resolved = annotation).
Proof.
  intros Hclean Hspan.
  pose proof (processContent_madeFor document catalog activeFilters
                userAnnotations Hclean) as Hall.
  rewrite List.Forall_forall in Hall.
  destruct (Hall span Hspan) as (a & p & info & t & Ha & Hp & Hkind).
  assert (Hel : isElement span = true).
  { apply in_flat_map in Hspan as (n & _ & Hn).
    by apply (highlights_are_elements n). }
  assert (Hsame : exists span0,
             attributesOf span = attributesOf span0
             /\ (span0 = containedSpan a p info t
                 \/ span0 = overlapSpan a p info t)).
  { destruct Hkind as [Hk|Hk]; eexists; (split; [exact Hk |]); auto. }
  destruct Hsame as (span0 & Hattrs & Hkind0).
  destruct (span_read_back a p info t span0 Hkind0) as (_ & Htype & Hid).
  assert (Hclick : onClick document userAnnotations span
                   = List.find (sameIdentifier a p)
                       (clauses document ++ userAnnotations)).
  { rewrite <- (onClick_span document userAnnotations a p info t span0 Hkind0).
    apply onClick_attributes; [done | | done].
    by destruct Hkind0 as [->| ->]. }
  exists a, p. rewrite Hattrs, Hclick.
  repeat (split; [done |]).
  by apply find_sameIdentifier.
Qed.

Lemma click_resolves_by_type_and_start_witness :
  (flat_map highlights [Examples.sentenceLeaf] = []
   /\ In (containedSpan Examples.lawsOfDelaware Examples.lawsPosition
            Examples.governingLaw "laws of Delaware")
        (flat_map highlights
           (fst (processContent
                   (Examples.html [Examples.sentenceLeaf]
                      [Examples.lawsOfDelaware])
                   Examples.catalog ["governing-law"] []))))
  /\ exists annotation p,
      In annotation ([Examples.lawsOfDelaware] ++ [])
      /\ position annotation = Some p
      /\ onClick
           (Examples.html [Examples.sentenceLeaf] [Examples.lawsOfDelaware])
           []
           (containedSpan Examples.lawsOfDelaware Examples.lawsPosition
              Examples.governingLaw "laws of Delaware")
         = List.find (sameIdentifier annotation p)
             ([Examples.lawsOfDelaware] ++ []).
Proof.
  assert (H1 : flat_map highlights [Examples.sentenceLeaf] = [])
    by (vm_compute; reflexivity).
  assert (H2 : In (containedSpan Examples.lawsOfDelaware Examples.lawsPosition
                     Examples.governingLaw "laws of Delaware")
                 (flat_map highlights
                    (fst (processContent
                            (Examples.html [Examples.sentenceLeaf]
                               [Examples.lawsOfDelaware])
                            Examples.catalog ["governing-law"] []))))
    by (vm_compute; left; reflexivity).
  split; [done |].
  destruct (click_resolves_by_type_and_start
              (Examples.html [Examples.sentenceLeaf] [Examples.lawsOfDelaware])
              Examples.catalog ["governing-law"] [] _ H1 H2)
    as (a & p & Ha & Hp & _ & _ & Hclick & _).
  by exists a, p.
Defined.

(** C9 as stated fails when two clauses of one type start at the same
    offset: the highlight the pass leaves in the leaf was made for the
    second clause, and a click on it returns the first. *)
Lemma click_returns_another_annotation :
  flat_map highlights
    (fst (processContent
            (Examples.html [Examples.longLeaf]
               [Examples.twinLong; Examples.twinShort])
            Examples.catalog ["governing-law"] []))
  = [containedSpan Examples.twinShort Examples.twinShortPosition
       Examples.governingLaw "567"]
  /\ onClick
       (Examples.html [Examples.longLeaf]
          [Examples.twinLong; Examples.twinShort]) []
       (containedSpan Examples.twinShort Examples.twinShortPosition
          Examples.governingLaw "567")
     = Some Examples.twinLong
  /\ Examples.twinLong <> Examples.twinShort.
Proof. repeat split; [vm_compute; reflexivity .. | discriminate]. Qed.

(** * Further properties of the viewer *)

(** ** The filter toggles *)

(** X1.  A click on a filter button flips whether its clause type is
    active and leaves every other clause type as it was. *)
Theorem toggleFilter_flips_one (prev : list string) (clauseType : string) :
  (In clauseType (toggleFilter prev clauseType) <-> ~ In clauseType prev)
  /\ forall k,
      k <> clauseType ->
      (In k (toggleFilter prev clauseType) <-> In k prev).
Proof.
  split.
  - rewrite toggleFilter_In. split; [intros [[_ ?]|[? _]]; done | by left].
  - intros k Hk. rewrite toggleFilter_In.
    split; [intros [[? _]|[_ ?]]; done | by right].
Qed.

(** X2.  Starting from a list of catalog keys without duplicates, clicks on
    the buttons of catalog keys leave a list of catalog keys without
    duplicates. *)
Theorem toggles_keep_catalog_keys (catalog : gmap string ClauseInfo)
    (activeFilters clicks : list string) :
  List.NoDup activeFilters ->
  Forall (fun k => is_Some (catalog !! k)) activeFilters ->
  Forall (fun k => is_Some (catalog !! k)) clicks ->
  List.NoDup (toggleAll activeFilters clicks)
  /\ Forall (fun k => is_Some (catalog !! k)) (toggleAll activeFilters clicks).
Proof.
  unfold toggleAll. intros Hnd Hkeys Hclicks. revert activeFilters Hnd Hkeys.
  induction Hclicks as [|c clicks Hc _ IH]; intros activeFilters Hnd Hkeys;
    simpl; [done |].
  apply IH; [by apply toggleFilter_NoDup |].
  apply List.Forall_forall. intros k Hk%toggleFilter_In.
  destruct Hk as [[-> _]|[_ Hk]]; [done |].
  rewrite List.Forall_forall in Hkeys. by apply Hkeys.
Qed.

Lemma toggles_keep_catalog_keys_witness :
  (List.NoDup initialFilters
   /\ Forall (fun k => is_Some (CLAUSES !! k)) initialFilters
   /\ Forall (fun k => is_Some (CLAUSES !! k)) ["assignment"; "no-waiver"])
  /\ List.NoDup (toggleAll initialFilters ["assignment"; "no-waiver"])
  /\ Forall (fun k => is_Some (CLAUSES !! k))
       (toggleAll initialFilters ["assignment"; "no-waiver"]).
Proof.
  assert (H1 : List.NoDup initialFilters).
  { unfold initialFilters. simpl. repeat constructor; simpl; intuition congruence. }
  assert (H2 : Forall (fun k => is_Some (CLAUSES !! k)) initialFilters).
  { unfold initialFilters. simpl.
    repeat (constructor; [eexists; vm_compute; reflexivity |]).
    constructor. }
  assert (H3 : Forall (fun k => is_Some (CLAUSES !! k))
                 ["assignment"; "no-waiver"]).
  { repeat (constructor; [eexists; vm_compute; reflexivity |]).
    constructor. }
  split; [done |].
  exact (toggles_keep_catalog_keys CLAUSES initialFilters
           ["assignment"; "no-waiver"] H1 H2 H3).
Defined.

(** ** Filters and the visible list *)

Section FilterFacts.

Implicit Types (a : Annotation) (l : list Annotation).

Lemma isActive_In activeFilters a :
  isActive activeFilters a = true
  <-> In (convertClauseTypeToFrontendFormat (type a)) activeFilters.
Proof. apply includes_In. Qed.

(** Whether an annotation is active depends on the members of the filter
    list only. *)
Lemma isActive_members f1 f2 a :
  (forall k, In k f1 <-> In k f2) -> isActive f1 a = isActive f2 a.
Proof.
  intros H. apply eq_true_iff_eq. by rewrite !isActive_In, H.
Qed.

Lemma visibleAnnotations_members document f1 f2 userAnnotations :
  (forall k, In k f1 <-> In k f2) ->
  visibleAnnotations document f1 userAnnotations
  = visibleAnnotations document f2 userAnnotations.
Proof.
  intros H. unfold visibleAnnotations.
  by rewrite !(List.filter_ext _ _ (fun a => isActive_members f1 f2 a H)).
Qed.

Lemma Forall_filter_sub (Q : Annotation -> Prop) P l :
  Forall Q l -> Forall Q (List.filter P l).
Proof.
  induction 1 as [|b l Hb _ IH]; simpl; [constructor |].
  destruct (P b); [by constructor | done].
Qed.

(** Insertion into a sorted list and a filter. *)
Lemma filter_insertSorted P a l :
  sortedByStart l ->
  List.filter P (insertSorted a l)
  = if P a then insertSorted a (List.filter P l) else List.filter P l.
Proof.
  unfold sortedByStart. induction 1 as [|b l Hl IH Hb].
  - simpl. by destruct (P a).
  - cbn [insertSorted]. destruct (sortKey a <=? sortKey b) eqn:Hab.
    + apply Z.leb_le in Hab. cbn [List.filter]. destruct (P a); [|done].
      symmetry. apply insertSorted_first.
      change (Forall (fun c => sortKey a <= sortKey c)
                (List.filter P (b :: l))).
      apply Forall_filter_sub. constructor; [done |].
      eapply Forall_impl; [exact Hb |]. simpl. intros; lia.
    + cbn [List.filter]. rewrite IH.
      destruct (P b), (P a); try done. cbn [insertSorted]. by rewrite Hab.
Qed.

(** The sort and a filter commute: the sort is stable. *)
Lemma filter_sortByStart P l :
  List.filter P (sortByStart l) = sortByStart (List.filter P l).
Proof.
  induction l as [|a l IH]; [done |].
  cbn [sortByStart fold_right List.filter].
  rewrite filter_insertSorted by apply sortByStart_sorted.
  fold (sortByStart l). rewrite IH. by destruct (P a).
Qed.

Lemma filter_filter (P Q : Annotation -> bool) l :
  List.filter P (List.filter Q l) = List.filter (fun a => Q a && P a) l.
Proof.
  induction l as [|a l IH]; simpl; [done |].
  destruct (Q a); simpl; [destruct (P a) |]; by rewrite ?IH.
Qed.

Lemma filter_visibleAnnotations P document activeFilters userAnnotations :
  List.filter P (visibleAnnotations document activeFilters userAnnotations)
  = sortByStart
      (List.filter (fun a => isActive activeFilters a && P a)
         (clauses document ++ userAnnotations)).
Proof.
  unfold visibleAnnotations.
  by rewrite filter_sortByStart, !List.filter_app, !filter_filter.
Qed.

End FilterFacts.

(** X3.  Clicking the same filter button twice changes nothing in what the
    pass produces: the body and the log are those of the filters before the
    two clicks. *)
Theorem double_toggle_restores_rendering document catalog activeFilters
    userAnnotations (clauseType : string) :
  processContent document catalog
    (toggleFilter (toggleFilter activeFilters clauseType) clauseType)
    userAnnotations
  = processContent document catalog activeFilters userAnnotations.
Proof.
  assert (Hmem : forall k,
             In k (toggleFilter (toggleFilter activeFilters clauseType)
                     clauseType)
             <-> In k activeFilters).
  { intros k. rewrite !toggleFilter_In.
    destruct (String.eqb_spec k clauseType) as [->|Hne];
      destruct (in_dec string_dec clauseType activeFilters); intuition. }
  unfold processContent.
  by rewrite (visibleAnnotations_members document _ activeFilters
                userAnnotations Hmem).
Qed.

(** X4.  A click on the button of a clause type leaves the visible
    annotations of the other types as they were, in the same order.  When
    the type was active, no annotation of that type is visible afterwards;
    when it was not, all annotations of that type are visible afterwards,
    sorted by start. *)
Theorem toggle_changes_one_type document activeFilters userAnnotations
    (clauseType : string) :
  List.filter (notOfType clauseType)
    (visibleAnnotations document (toggleFilter activeFilters clauseType)
       userAnnotations)
  = List.filter (notOfType clauseType)
      (visibleAnnotations document activeFilters userAnnotations)
  /\ (In clauseType activeFilters ->
      List.filter (ofType clauseType)
        (visibleAnnotations document (toggleFilter activeFilters clauseType)
           userAnnotations) = [])
  /\ (~ In clauseType activeFilters ->
      List.filter (ofType clauseType)
        (visibleAnnotations document (toggleFilter activeFilters clauseType)
           userAnnotations)
      = sortByStart
          (List.filter (ofType clauseType)
             (clauses document ++ userAnnotations))).
Proof.
  pose proof (toggleFilter_In activeFilters clauseType) as Hin.
  rewrite !filter_visibleAnnotations. split; [|split].
  - f_equal. apply List.filter_ext. intros a.
    unfold notOfType, ofType.
    destruct (String.eqb_spec (convertClauseTypeToFrontendFormat (type a))
                clauseType) as [He|Hne]; simpl; [by rewrite !andb_false_r |].
    rewrite !andb_true_r. apply eq_true_iff_eq.
    rewrite !isActive_In, Hin. intuition.
  - intros Hc. replace [] with (sortByStart []) by done. f_equal.
    rewrite <- (List.filter_false (clauses document ++ userAnnotations)).
    apply List.filter_ext. intros a. unfold ofType.
    destruct (String.eqb_spec (convertClauseTypeToFrontendFormat (type a))
                clauseType) as [He|Hne]; [|by rewrite andb_false_r].
    rewrite andb_true_r. apply not_true_is_false.
    rewrite isActive_In, Hin, He. intuition.
  - intros Hc. f_equal. apply List.filter_ext. intros a. unfold ofType.
    destruct (String.eqb_spec (convertClauseTypeToFrontendFormat (type a))
                clauseType) as [He|Hne]; [|by rewrite andb_false_r].
    rewrite andb_true_r. apply isActive_In. rewrite Hin, He. by left.
Qed.

Lemma toggle_changes_one_type_witness :
  In "assignment" initialFilters
  /\ List.filter (ofType "assignment")
       (visibleAnnotations
          (Examples.html [] [Examples.lawsOfDelaware]) 
          (toggleFilter initialFilters "assignment") []) = [].
Proof.
  assert (H : In "assignment" initialFilters)
    by (unfold initialFilters; simpl; auto).
  split; [exact H |].
  exact (proj1 (proj2
    (toggle_changes_one_type (Examples.html [] [Examples.lawsOfDelaware])
       initialFilters [] "assignment")) H).
Defined.

(** ** The pager *)

(** X5.  Whatever the sequence of document changes and clicks on Previous
    and Next, the current page is at least 1 and, unless it is 1, at most
    the number of pages. *)
Theorem pager_stays_in_range (events : list PagerEvent) :
  pagerInRange (fold_left pagerStep events initialPager).
Proof.
  assert (Hstep : forall pager event,
             pagerInRange pager -> pagerInRange (pagerStep pager event)).
  { intros [cur total] event [H1 H2]. simpl in H1, H2.
    destruct event as [| |document]; unfold pagerInRange; simpl.
    - unfold goToPreviousPage. simpl.
      destruct (1 <? cur) eqn:Hc; simpl; [apply Z.ltb_lt in Hc |]; lia.
    - unfold goToNextPage. simpl.
      destruct (cur <? total) eqn:Hc; simpl; [apply Z.ltb_lt in Hc |]; lia.
    - unfold onDocumentChange.
      repeat (case_match; try (simpl; lia)). }
  assert (Hall : forall pager,
             pagerInRange pager ->
             pagerInRange (fold_left pagerStep events pager)).
  { induction events as [|event events IH]; intros pager Hp; [done |].
    simpl. by apply IH, Hstep. }
  apply Hall. unfold pagerInRange, initialPager. simpl. lia.
Qed.

Section PagerFacts.

(** Clicks on Previous and Next keep the number of pages. *)
Lemma navigation_totalPages clicks pager :
  Forall (fun e => e = Previous \/ e = Next) clicks ->
  totalPages (fold_left pagerStep clicks pager) = totalPages pager.
Proof.
  intros Hc. revert pager.
  induction Hc as [|e clicks [->| ->] _ IH]; intros pager; simpl; [done | |];
    rewrite IH; unfold goToPreviousPage, goToNextPage; by case_match.
Qed.

Lemma navigation_in_range clicks pager :
  Forall (fun e => e = Previous \/ e = Next) clicks ->
  1 <= currentPage pager <= totalPages pager ->
  1 <= currentPage (fold_left pagerStep clicks pager) <= totalPages pager.
Proof.
  intros Hc. revert pager.
  induction Hc as [|e clicks [->| ->] _ IH]; intros [cur total] Hp;
    simpl in *; [done | |].
  - unfold goToPreviousPage. simpl.
    destruct (1 <? cur) eqn:Hlt; [apply Z.ltb_lt in Hlt |].
    + apply (IH {| currentPage := cur - 1; totalPages := total |}).
      simpl. lia.
    + by apply (IH {| currentPage := cur; totalPages := total |}).
  - unfold goToNextPage. simpl.
    destruct (cur <? total) eqn:Hlt; [apply Z.ltb_lt in Hlt |].
    + apply (IH {| currentPage := cur + 1; totalPages := total |}).
      simpl. lia.
    + by apply (IH {| currentPage := cur; totalPages := total |}).
Qed.

(** The toggle shows the page whose number is the current page and no
    other. *)
Lemma pageDisplaysFrom_blocks index currentPage pages :
  List.length (List.filter isBlock (pageDisplaysFrom index currentPage pages))
  = if (index <? currentPage)
       && (currentPage <=? index + Z.of_nat (List.length pages))
    then 1%nat else 0%nat.
Proof.
  revert index. induction pages as [|page pages IH]; intros index.
  - simpl. case_match eqn:Hc; [|done].
    apply andb_prop in Hc as [H1%Z.ltb_lt H2%Z.leb_le]. lia.
  - cbn [pageDisplaysFrom List.filter]. unfold isBlock at 1. cbn [snd].
    assert (Hlen : Z.of_nat (List.length (page :: pages))
                   = Z.of_nat (List.length pages) + 1)
      by (cbn [List.length]; lia).
    rewrite Hlen.
    destruct (index + 1 =? currentPage) eqn:Heq;
      cbn [List.length]; rewrite IH;
      [apply Z.eqb_eq in Heq | apply Z.eqb_neq in Heq];
      destruct (index + 1 <? currentPage) eqn:H1,
               (currentPage <=? index + 1 + Z.of_nat (List.length pages))
                 eqn:H2,
               (index <? currentPage) eqn:H3,
               (currentPage <=? index + (Z.of_nat (List.length pages) + 1))
                 eqn:H4;
      try done;
      rewrite ?Z.ltb_lt, ?Z.ltb_ge, ?Z.leb_le, ?Z.leb_gt in *; lia.
Qed.

End PagerFacts.

(** ** Pages and highlighting *)

Section PageFacts.

Variables (annotation : Annotation) (p : Position) (clauseInfo : ClauseInfo).
Variable quirks : bool.

Lemma pagesOf_textChild t : flat_map (pagesOf quirks) (textChild t) = [].
Proof. by destruct t. Qed.

Lemma pagesOf_containedSpan t :
  pagesOf quirks (containedSpan annotation p clauseInfo t) = [].
Proof.
  unfold containedSpan, tooltip, highlightClassName.
  destruct quirks, t, (name clauseInfo), (user annotation); reflexivity.
Qed.

Lemma pagesOf_overlapSpan t :
  pagesOf quirks (overlapSpan annotation p clauseInfo t) = [].
Proof.
  unfold overlapSpan, highlightClassName.
  destruct quirks, t, (user annotation); reflexivity.
Qed.

(** A spliced element holds no page below itself. *)
Lemma pagesOf_spliced tagName attributes text s c newElement :
  Spliced annotation p clauseInfo tagName attributes text s c newElement ->
  exists childNodes',
    newElement = Element tagName attributes childNodes'
    /\ flat_map (pagesOf quirks) childNodes' = [].
Proof.
  destruct 1; eexists; (split; [reflexivity |]);
    rewrite !flat_map_app, !pagesOf_textChild; cbn [flat_map];
    by rewrite ?pagesOf_containedSpan, ?pagesOf_overlapSpan.
Qed.

Lemma length_flat_map_le (f g : Node -> list Node) l :
  Forall (fun n => (List.length (f n) <= List.length (g n))%nat) l ->
  (List.length (flat_map f l) <= List.length (flat_map g l))%nat.
Proof.
  induction 1 as [|n l Hn _ IH]; simpl; [done |].
  rewrite !length_app. lia.
Qed.

(** The loop adds no page. *)
Lemma visit_pages_le n :
  (List.length (pagesOf quirks (result (visit annotation p clauseInfo n)))
   <= List.length (pagesOf quirks n))%nat.
Proof.
  induction n as [data|tagName attributes childNodes IH] using Node_ind;
    [done |].
  rewrite visit_Element. cbv zeta. cbn [result].
  destruct (replacement _) as [newElement|] eqn:Hr.
  - unfold iterationAt in Hr.
    destruct (matchesSelector tagName attributes); [|done].
    apply loopBody_replacement in Hr as (s & e & c & _ & _ & _ & Hs).
    apply pagesOf_spliced in Hs as (childNodes' & -> & Hnone).
    cbn [pagesOf]. rewrite Hnone, !length_app.
    destruct (matchesClassSelector quirks "page" attributes); simpl; lia.
  - cbn [pagesOf]. rewrite !length_app.
    assert (Hbelow : (List.length
                        (flat_map (pagesOf quirks)
                           (map result
                              (map (visit annotation p clauseInfo)
                                 childNodes)))
                      <= List.length (flat_map (pagesOf quirks) childNodes))%nat).
    { clear Hr. induction IH as [|c0 cs H0 _ IHcs]; [done |].
      simpl. rewrite !length_app. lia. }
    destruct (matchesClassSelector quirks "page" attributes); simpl; lia.
Qed.

Lemma visit_page_free n :
  pagesOf quirks n = [] -> pagesOf quirks (result (visit annotation p clauseInfo n)) = [].
Proof.
  intros H. pose proof (visit_pages_le n) as Hle. rewrite H in Hle.
  by destruct (pagesOf quirks (result _)); [|simpl in Hle; lia].
Qed.

(** When no page lies inside a candidate, the loop keeps the number of
    pages and leaves no page inside a candidate. *)
Lemma visit_pages n :
  pagesOutsideCandidates quirks n = true ->
  List.length (pagesOf quirks (result (visit annotation p clauseInfo n)))
  = List.length (pagesOf quirks n)
  /\ pagesOutsideCandidates quirks (result (visit annotation p clauseInfo n)) = true.
Proof.
  induction n as [data|tagName attributes childNodes IH] using Node_ind;
    [done |].
  intros Hout. rewrite visit_Element. cbv zeta. cbn [result].
  cbn [pagesOutsideCandidates] in Hout.
  destruct (replacement _) as [newElement|] eqn:Hr.
  - unfold iterationAt in Hr.
    destruct (matchesSelector tagName attributes) eqn:Hm; [|done].
    apply loopBody_replacement in Hr as (s & e & c & _ & _ & _ & Hs).
    apply pagesOf_spliced in Hs as (childNodes' & -> & Hnone).
    cbn [pagesOf pagesOutsideCandidates]. rewrite Hm, Hnone. split.
    + rewrite !length_app.
      replace (List.length (flat_map (pagesOf quirks) childNodes)) with 0%nat;
        [by destruct (matchesClassSelector quirks "page" attributes) |].
      symmetry. apply length_zero_iff_nil.
      clear IH. induction childNodes as [|c0 cs IHcs]; [done |].
      cbn [forallb] in Hout. apply andb_prop in Hout as [H0 Hcs].
      simpl. destruct (pagesOf quirks c0); [by apply IHcs | done].
    + clear -Hnone. induction childNodes' as [|c0 cs IHcs]; [done |].
      simpl in Hnone. apply app_eq_nil in Hnone as [H0 Hcs].
      simpl. rewrite H0. by apply IHcs.
  - cbn [pagesOf pagesOutsideCandidates]. clear Hr.
    destruct (matchesSelector tagName attributes).
    + assert (Hfree : Forall (fun c => pagesOf quirks c = []) childNodes).
      { clear IH. induction childNodes as [|c0 cs IHcs]; [constructor |].
        cbn [forallb] in Hout. apply andb_prop in Hout as [H0 Hcs].
        constructor; [by destruct (pagesOf quirks c0) | by apply IHcs]. }
      clear IH Hout.
      assert (Hnew : flat_map (pagesOf quirks)
                       (map result
                          (map (visit annotation p clauseInfo) childNodes))
                     = []).
      { clear -Hfree. induction Hfree as [|c0 cs H0 _ IHcs]; [done |].
        simpl. by rewrite (visit_page_free c0 H0), IHcs. }
      assert (Hold : flat_map (pagesOf quirks) childNodes = []).
      { clear -Hfree. induction Hfree as [|c0 cs H0 _ IHcs]; [done |].
        simpl. by rewrite H0, IHcs. }
      split.
      * rewrite Hnew, Hold.
        by destruct (matchesClassSelector quirks "page" attributes).
      * clear -Hfree.
        induction Hfree as [|c0 cs H0 _ IHcs]; [done |].
        simpl. by rewrite (visit_page_free c0 H0), IHcs.
    + split.
      * rewrite !length_app.
        assert (Hsame : List.length
                          (flat_map (pagesOf quirks)
                             (map result
                                (map (visit annotation p clauseInfo)
                                   childNodes)))
                        = List.length (flat_map (pagesOf quirks) childNodes)).
        { induction IH as [|c0 cs H0 _ IHcs]; [done |].
          cbn [forallb] in Hout. apply andb_prop in Hout as [Hc0 Hcs].
          simpl. rewrite !length_app.
          by rewrite (proj1 (H0 Hc0)), (IHcs Hcs). }
        rewrite Hsame.
        by destruct (matchesClassSelector quirks "page" attributes).
      * induction IH as [|c0 cs H0 _ IHcs]; [done |].
        cbn [forallb] in Hout. apply andb_prop in Hout as [Hc0 Hcs].
        simpl. by rewrite (proj2 (H0 Hc0)), (IHcs Hcs).
Qed.

End PageFacts.

Lemma forEachBody_pages quirks catalog annotation body :
  forallb (pagesOutsideCandidates quirks) body = true ->
  List.length (flat_map (pagesOf quirks) (fst (forEachBody catalog body annotation)))
  = List.length (flat_map (pagesOf quirks) body)
  /\ forallb (pagesOutsideCandidates quirks) (fst (forEachBody catalog body annotation))
     = true.
Proof.
  intros Hout. unfold forEachBody.
  destruct (position annotation) as [p|]; [|done].
  destruct (catalog !! _) as [clauseInfo|]; [|done]. cbn [fst].
  induction body as [|n body IH]; [done |].
  cbn [forallb] in Hout. apply andb_prop in Hout as [Hn Hbody].
  destruct (visit_pages annotation p clauseInfo quirks n Hn) as [H1 H2].
  destruct (IH Hbody) as [H3 H4].
  simpl. rewrite !length_app, H1, H2, H3, H4. done.
Qed.

Lemma bodyAfter_pages quirks catalog l body :
  forallb (pagesOutsideCandidates quirks) body = true ->
  List.length (flat_map (pagesOf quirks) (bodyAfter catalog l body))
  = List.length (flat_map (pagesOf quirks) body).
Proof.
  revert body. induction l as [|a l IH]; intros body Hout; [done |].
  destruct (forEachBody_pages quirks catalog a body Hout) as [H1 H2].
  change (bodyAfter catalog (a :: l) body)
    with (bodyAfter catalog l (fst (forEachBody catalog body a))).
  by rewrite (IH _ H2).
Qed.

(** X6.  When no page lies inside an element with a range, highlighting
    keeps the number of pages: the pass toggles as many pages as the pager
    counted in the content before highlighting. *)
Theorem highlighting_keeps_page_count document catalog activeFilters
    userAnnotations :
  forallb (pagesOutsideCandidates (quirksMode document)) (content document) = true ->
  List.length
    (flat_map (pagesOf (quirksMode document))
       (fst (processContent document catalog activeFilters userAnnotations)))
  = List.length (flat_map (pagesOf (quirksMode document)) (content document)).
Proof.
  intros Hout.
  destruct (decide (content_type document = Some "html")) as [Hh|Hh].
  - rewrite processContent_html by done. cbn [fst].
    by apply bodyAfter_pages.
  - by rewrite processContent_not_html.
Qed.

Lemma highlighting_keeps_page_count_witness :
  forallb (pagesOutsideCandidates true) Examples.twoPages = true
  /\ List.length
       (flat_map (pagesOf true)
          (fst (processContent
                  (Examples.html Examples.twoPages [Examples.spanning])
                  Examples.catalog ["governing-law"] [])))
     = List.length (flat_map (pagesOf true) Examples.twoPages).
Proof.
  assert (H : forallb (pagesOutsideCandidates true) Examples.twoPages = true)
    by (vm_compute; reflexivity).
  split; [exact H |].
  exact (highlighting_keeps_page_count
           (Examples.html Examples.twoPages [Examples.spanning])
           Examples.catalog ["governing-law"] [] H).
Defined.

(** X7.  After an HTML document with at least one page is loaded, whatever
    the clicks on Previous and Next, the pass shows exactly one page of the
    highlighted document, provided no page lies inside an element with a
    range. *)
Theorem exactly_one_page_shown document catalog activeFilters userAnnotations
    (clicks : list PagerEvent) :
  content_type document = Some "html" ->
  forallb (pagesOutsideCandidates (quirksMode document)) (content document) = true ->
  flat_map (pagesOf (quirksMode document)) (content document) <> [] ->
  Forall (fun e => e = Previous \/ e = Next) clicks ->
  List.length
    (List.filter isBlock
       (pageDisplays
          (currentPage
             (fold_left pagerStep clicks
                (onDocumentChange document initialPager)))
          (flat_map (pagesOf (quirksMode document))
             (fst (processContent document catalog activeFilters
                     userAnnotations)))))
  = 1%nat.
Proof.
  intros Hh Hout Hpages Hclicks.
  assert (Hload : onDocumentChange document initialPager
                  = {| currentPage := 1;
                       totalPages :=
                         Z.of_nat
                           (List.length (flat_map (pagesOf (quirksMode document)) (content document)))
                    |})
    by (unfold onDocumentChange; by rewrite Hh).
  rewrite Hload.
  assert (Hn : (0 < List.length (flat_map (pagesOf (quirksMode document)) (content document)))%nat)
    by (destruct (flat_map (pagesOf (quirksMode document)) (content document)); simpl; [done | lia]).
  pose proof (navigation_in_range clicks _ Hclicks
                (ltac:(simpl; lia)
                 : 1 <= currentPage
                           {| currentPage := 1;
                              totalPages :=
                                Z.of_nat
                                  (List.length
                                     (flat_map (pagesOf (quirksMode document)) (content document)))
                           |}
                   <= totalPages
                        {| currentPage := 1;
                           totalPages :=
                             Z.of_nat
                               (List.length
                                  (flat_map (pagesOf (quirksMode document)) (content document)))
                        |})) as Hrange.
  simpl in Hrange.
  unfold pageDisplays. rewrite pageDisplaysFrom_blocks.
  rewrite processContent_html by done. cbn [fst].
  rewrite bodyAfter_pages by done.
  destruct (0 <? _) eqn:H1; [|apply Z.ltb_ge in H1; lia].
  destruct (_ <=? _) eqn:H2; [done | apply Z.leb_gt in H2; lia].
Qed.

Lemma exactly_one_page_shown_witness :
  (content_type (Examples.html Examples.twoPages [Examples.spanning])
   = Some "html"
   /\ forallb (pagesOutsideCandidates true) Examples.twoPages = true
   /\ flat_map (pagesOf true) Examples.twoPages <> []
   /\ Forall (fun e => e = Previous \/ e = Next) [Next; Next; Previous])
  /\ List.length
       (List.filter isBlock
          (pageDisplays
             (currentPage
                (fold_left pagerStep [Next; Next; Previous]
                   (onDocumentChange
                      (Examples.html Examples.twoPages [Examples.spanning])
                      initialPager)))
             (flat_map (pagesOf true)
                (fst (processContent
                        (Examples.html Examples.twoPages [Examples.spanning])
                        Examples.catalog ["governing-law"] [])))))
     = 1%nat.
Proof.
  assert (H1 : content_type
                 (Examples.html Examples.twoPages [Examples.spanning])
               = Some "html") by reflexivity.
  assert (H2 : forallb (pagesOutsideCandidates true) Examples.twoPages = true)
    by (vm_compute; reflexivity).
  assert (H3 : flat_map (pagesOf true) Examples.twoPages <> [])
    by (vm_compute; discriminate).
  assert (H4 : Forall (fun e => e = Previous \/ e = Next)
                 [Next; Next; Previous])
    by (repeat constructor; auto).
  split; [done |].
  exact (exactly_one_page_shown
           (Examples.html Examples.twoPages [Examples.spanning])
           Examples.catalog ["governing-law"] [] [Next; Next; Previous]
           H1 H2 H3 H4).
Defined.

(** The selector of the pages depends on the mode of the document: without
    a doctype an element of class [Page] is a page, and one inside an
    element with a range is then a page inside a candidate. *)
Example page_class_by_mode :
  let page := Element "div" [("class", "Page")] [Text "0123456789"] in
  let ranged :=
    Element "span" [("data-start", "0"); ("data-end", "10")] [page] in
  pagesOf true page = [page]
  /\ pagesOf false page = []
  /\ pagesOutsideCandidates true ranged = false
  /\ pagesOutsideCandidates false ranged = true.
Proof. repeat split; reflexivity. Qed.

(** ** Highlights, filters and the catalog *)

Section RenderedFacts.

Variables (catalog : gmap string ClauseInfo) (visible : list Annotation).

Lemma renderedFor_attributes h h' :
  attributesOf h = attributesOf h' ->
  renderedFor catalog visible h -> renderedFor catalog visible h'.
Proof.
  intros Heq (a & p & info & t & Ha & Hp & Hc & Hk).
  exists a, p, info, t. by rewrite <- Heq.
Qed.

Lemma highlights_head_rendered tagName attributes childNodes childNodes' :
  Forall (renderedFor catalog visible)
    (highlights (Element tagName attributes childNodes)) ->
  Forall (renderedFor catalog visible) (flat_map highlights childNodes') ->
  Forall (renderedFor catalog visible)
    (highlights (Element tagName attributes childNodes')).
Proof.
  cbn [highlights]. intros [Hhead _]%Forall_app Hrest.
  apply Forall_app. split; [|done].
  destruct (classListContains "clause-highlight" attributes); [|constructor].
  apply Forall_cons_1 in Hhead as [Hhead _].
  constructor; [|constructor].
  by apply (renderedFor_attributes (Element tagName attributes childNodes)).
Qed.

Lemma visit_renderedFor annotation p clauseInfo n :
  In annotation visible -> position annotation = Some p ->
  catalog !! convertClauseTypeToFrontendFormat (type annotation)
  = Some clauseInfo ->
  Forall (renderedFor catalog visible) (highlights n) ->
  Forall (renderedFor catalog visible)
    (highlights (result (visit annotation p clauseInfo n))).
Proof.
  intros Hin Hp Hc.
  induction n as [data|tagName attributes childNodes IH] using Node_ind;
    [done |].
  intros Hn. rewrite visit_Element. cbv zeta. cbn [result].
  destruct (replacement _) as [newElement|] eqn:Hr.
  - unfold iterationAt in Hr.
    destruct (matchesSelector tagName attributes); [|done].
    apply loopBody_replacement in Hr as (s & e & c & _ & _ & _ & Hs).
    assert (Hmade : forall t,
               renderedFor catalog visible
                 (containedSpan annotation p clauseInfo t)
               /\ renderedFor catalog visible
                    (overlapSpan annotation p clauseInfo t)).
    { intros t. split; exists annotation, p, clauseInfo, t; auto. }
    destruct Hs; apply (highlights_head_rendered _ _ childNodes); try done;
      rewrite !flat_map_app, !highlights_textChild; cbn [flat_map];
      rewrite ?highlights_containedSpan, ?highlights_overlapSpan;
      cbn [app]; constructor; try constructor; apply Hmade.
  - apply (highlights_head_rendered _ _ childNodes); [done |].
    cbn [highlights] in Hn. apply Forall_app in Hn as [_ Hn].
    apply Forall_flat_map_highlights in Hn.
    apply Forall_flat_map_highlights.
    clear Hr. induction IH as [|c cs Hc0 _ IHcs]; simpl; [constructor |].
    apply Forall_cons_1 in Hn as [Hn1 Hn2].
    constructor; [by apply Hc0 | by apply IHcs].
Qed.

Lemma forEachBody_renderedFor annotation body :
  In annotation visible ->
  Forall (renderedFor catalog visible) (flat_map highlights body) ->
  Forall (renderedFor catalog visible)
    (flat_map highlights (fst (forEachBody catalog body annotation))).
Proof.
  intros Hin Hbody. unfold forEachBody.
  destruct (position annotation) as [p|] eqn:Hp; [|done].
  destruct (catalog !! _) as [clauseInfo|] eqn:Hc; [|done]. cbn [fst].
  apply Forall_flat_map_highlights in Hbody.
  apply Forall_flat_map_highlights.
  induction Hbody as [|n body Hn _ IH]; simpl; [constructor |].
  constructor; [by apply visit_renderedFor | done].
Qed.

Lemma bodyAfter_renderedFor l body :
  (forall a, In a l -> In a visible) ->
  Forall (renderedFor catalog visible) (flat_map highlights body) ->
  Forall (renderedFor catalog visible)
    (flat_map highlights (bodyAfter catalog l body)).
Proof.
  revert body. induction l as [|a l IH]; intros body Hl Hbody; [done |].
  apply IH; [intros a' Ha'; apply Hl; by right |].
  apply forEachBody_renderedFor; [apply Hl; by left | done].
Qed.

End RenderedFacts.

(** Every highlight of the output was made for a visible annotation with
    a position and a catalog entry, when the document comes without
    highlights. *)
Lemma processContent_renderedFor document catalog activeFilters
    userAnnotations :
  flat_map highlights (content document) = [] ->
  Forall
    (renderedFor catalog
       (visibleAnnotations document activeFilters userAnnotations))
    (flat_map highlights
       (fst (processContent document catalog activeFilters userAnnotations))).
Proof.
  intros Hclean.
  destruct (decide (content_type document = Some "html")) as [Hh|Hh].
  - rewrite processContent_html by done. cbn [fst].
    apply bodyAfter_renderedFor; [done |]. rewrite Hclean. constructor.
  - rewrite processContent_not_html by done. cbn [fst].
    rewrite Hclean. constructor.
Qed.

Lemma visible_is_active document activeFilters userAnnotations a :
  In a (visibleAnnotations document activeFilters userAnnotations) ->
  isActive activeFilters a = true.
Proof.
  unfold visibleAnnotations. rewrite sortByStart_In, in_app_iff, !filter_In.
  tauto.
Qed.

(** X8.  Take a document that comes without highlights.  Every highlight
    of the output carries a clause type that, in the hyphenated encoding,
    is one of the active filters and has an entry in the catalog: no
    highlight of a disabled or unknown type is rendered. *)
Theorem highlights_only_of_active_types document catalog activeFilters
    userAnnotations span :
  flat_map highlights (content document) = [] ->
  In span
    (flat_map highlights
       (fst (processContent document catalog activeFilters userAnnotations))) ->
  exists clauseType,
    getAttribute "data-clause-type" (attributesOf span) = Some clauseType
    /\ In (convertClauseTypeToFrontendFormat clauseType) activeFilters
    /\ is_Some (catalog !! convertClauseTypeToFrontendFormat clauseType).
Proof.
  intros Hclean Hspan.
  pose proof (processContent_renderedFor document catalog activeFilters
                userAnnotations Hclean) as Hall.
  rewrite List.Forall_forall in Hall.
  destruct (Hall span Hspan) as (a & p & info & t & Ha & Hp & Hc & Hkind).
  exists (type a). split; [|split].
  - destruct Hkind as [-> | ->]; reflexivity.
  - apply isActive_In. by eapply visible_is_active.
  - by exists info.
Qed.

Lemma highlights_only_of_active_types_witness :
  (flat_map highlights [Examples.sentenceLeaf] = []
   /\ In (containedSpan Examples.lawsOfDelaware Examples.lawsPosition
            Examples.governingLaw "laws of Delaware")
        (flat_map highlights
           (fst (processContent
                   (Examples.html [Examples.sentenceLeaf]
                      [Examples.lawsOfDelaware])
                   Examples.catalog ["governing-law"] []))))
  /\ exists clauseType,
      getAttribute "data-clause-type"
        (attributesOf
           (containedSpan Examples.lawsOfDelaware Examples.lawsPosition
              Examples.governingLaw "laws of Delaware"))
      = Some clauseType
      /\ In (convertClauseTypeToFrontendFormat clauseType) ["governing-law"]
      /\ is_Some
           (Examples.catalog !! convertClauseTypeToFrontendFormat clauseType).
Proof.
  assert (H1 : flat_map highlights [Examples.sentenceLeaf] = [])
    by (vm_compute; reflexivity).
  assert (H2 : In (containedSpan Examples.lawsOfDelaware Examples.lawsPosition
                     Examples.governingLaw "laws of Delaware")
                 (flat_map highlights
                    (fst (processContent
                            (Examples.html [Examples.sentenceLeaf]
                               [Examples.lawsOfDelaware])
                            Examples.catalog ["governing-law"] []))))
    by (vm_compute; left; reflexivity).
  split; [done |].
  exact (highlights_only_of_active_types
           (Examples.html [Examples.sentenceLeaf] [Examples.lawsOfDelaware])
           Examples.catalog ["governing-law"] [] _ H1 H2).
Defined.

(** ** From a click to the annotation dialog *)

(** X9.  Take a document that comes without highlights.  A click on a
    highlight of the output finds an annotation, and the catalog the viewer
    rendered with has an entry for its type: the dialog's catalog lookup
    for the clicked annotation never comes back empty. *)
Theorem clicked_annotation_has_catalog_entry document catalog activeFilters
    userAnnotations span :
  flat_map highlights (content document) = [] ->
  In span
    (flat_map highlights
       (fst (processContent document catalog activeFilters userAnnotations))) ->
  exists resolved,
    onClick document userAnnotations span = Some resolved
    /\ is_Some (dialogClauseInfo catalog resolved).
Proof.
  intros Hclean Hspan.
  pose proof (processContent_renderedFor document catalog activeFilters
                userAnnotations Hclean) as Hall.
  rewrite List.Forall_forall in Hall.
  destruct (Hall span Hspan) as (a & p & info & t & Ha & Hp & Hc & Hkind).
  apply visible_in_union in Ha.
  assert (Hel : isElement span = true).
  { apply in_flat_map in Hspan as (n & _ & Hn).
    by apply (highlights_are_elements n). }
  assert (Hsame : exists span0,
             attributesOf span = attributesOf span0
             /\ (span0 = containedSpan a p info t
                 \/ span0 = overlapSpan a p info t)).
  { destruct Hkind as [Hk|Hk]; eexists; (split; [exact Hk |]); auto. }
  destruct Hsame as (span0 & Hattrs & Hkind0).
  assert (Hclick : onClick document userAnnotations span
                   = List.find (sameIdentifier a p)
                       (clauses document ++ userAnnotations)).
  { rewrite <- (onClick_span document userAnnotations a p info t span0 Hkind0).
    apply onClick_attributes; [done | | done].
    by destruct Hkind0 as [->| ->]. }
  destruct (find_sameIdentifier _ a p Ha Hp) as (resolved & Hfind & Ht & _).
  exists resolved. rewrite Hclick. split; [done |].
  unfold dialogClauseInfo. rewrite Ht. by exists info.
Qed.

Lemma clicked_annotation_has_catalog_entry_witness :
  (flat_map highlights [Examples.sentenceLeaf] = []
   /\ In (containedSpan Examples.lawsOfDelaware Examples.lawsPosition
            Examples.governingLaw "laws of Delaware")
        (flat_map highlights
           (fst (processContent
                   (Examples.html [Examples.sentenceLeaf]
                      [Examples.lawsOfDelaware])
                   Examples.catalog ["governing-law"] []))))
  /\ exists resolved,
      onClick
        (Examples.html [Examples.sentenceLeaf] [Examples.lawsOfDelaware]) []
        (containedSpan Examples.lawsOfDelaware Examples.lawsPosition
           Examples.governingLaw "laws of Delaware")
      = Some resolved
      /\ is_Some (dialogClauseInfo Examples.catalog resolved).
Proof.
  assert (H1 : flat_map highlights [Examples.sentenceLeaf] = [])
    by (vm_compute; reflexivity).
  assert (H2 : In (containedSpan Examples.lawsOfDelaware Examples.lawsPosition
                     Examples.governingLaw "laws of Delaware")
                 (flat_map highlights
                    (fst (processContent
                            (Examples.html [Examples.sentenceLeaf]
                               [Examples.lawsOfDelaware])
                            Examples.catalog ["governing-law"] []))))
    by (vm_compute; left; reflexivity).
  split; [done |].
  exact (clicked_annotation_has_catalog_entry
           (Examples.html [Examples.sentenceLeaf] [Examples.lawsOfDelaware])
           Examples.catalog ["governing-law"] [] _ H1 H2).
Defined.

(** X10.  Whatever element is clicked, when the click handler hands an
    annotation to the dialog, the key under which the dialog stores notes
    for it is the identifier the clicked element carries, also when several
    annotations share that identifier. *)
Theorem note_key_is_clicked_identifier document userAnnotations target
    resolved :
  onClick document userAnnotations target = Some resolved ->
  getAttribute "data-annotation-id" (attributesOf target)
  = Some (noteAnnotationId resolved).
Proof.
  destruct target as [data|tagName attributes childNodes]; [done |].
  unfold onClick. destruct (classListContains _ _); [|done].
  intros [_ Htest]%find_some.
  apply andb_prop in Htest as [Ht Hid].
  apply bool_decide_eq_true in Ht. apply bool_decide_eq_true in Hid.
  simpl. rewrite <- Hid, <- Ht. reflexivity.
Qed.

Lemma note_key_is_clicked_identifier_witness :
  onClick (Examples.html [Examples.sentenceLeaf] [Examples.lawsOfDelaware]) []
    (containedSpan Examples.lawsOfDelaware Examples.lawsPosition
       Examples.governingLaw "laws of Delaware")
  = Some Examples.lawsOfDelaware
  /\ getAttribute "data-annotation-id"
       (attributesOf
          (containedSpan Examples.lawsOfDelaware Examples.lawsPosition
             Examples.governingLaw "laws of Delaware"))
     = Some (noteAnnotationId Examples.lawsOfDelaware).
Proof.
  assert (H : onClick
                (Examples.html [Examples.sentenceLeaf]
                   [Examples.lawsOfDelaware]) []
                (containedSpan Examples.lawsOfDelaware Examples.lawsPosition
                   Examples.governingLaw "laws of Delaware")
              = Some Examples.lawsOfDelaware)
    by (vm_compute; reflexivity).
  split; [exact H |].
  exact (note_key_is_clicked_identifier _ _ _ _ H).
Defined.

(** X11.  The label, the icon and the advice of the confidence assessment
    always agree: from 90 up they say high (green), from 70 to 89 medium
    (amber), from 40 to 69 low (red) and below 40 very low (red). *)
Theorem confidence_assessment_agrees (annotation : Annotation) :
  (90 <= confidence annotation
   /\ confidenceLevel annotation = "High"
   /\ confidenceIcon annotation = Green
   /\ confidenceAdvice annotation = "High confidence detection.")
  \/ (70 <= confidence annotation < 90
      /\ confidenceLevel annotation = "Medium"
      /\ confidenceIcon annotation = Amber
      /\ confidenceAdvice annotation
         = "Medium confidence detection. Consider reviewing.")
  \/ (40 <= confidence annotation < 70
      /\ confidenceLevel annotation = "Low"
      /\ confidenceIcon annotation = Red
      /\ confidenceAdvice annotation
         = "Low confidence detection. Manual review recommended.")
  \/ (confidence annotation < 40
      /\ confidenceLevel annotation = "Very Low"
      /\ confidenceIcon annotation = Red
      /\ confidenceAdvice annotation
         = "Very low confidence detection. Manual review strongly recommended.").
Proof.
  unfold confidenceLevel, confidenceIcon, confidenceAdvice.
  destruct (90 <=? confidence annotation) eqn:H90;
    destruct (70 <=? confidence annotation) eqn:H70;
    destruct (40 <=? confidence annotation) eqn:H40;
    destruct (confidence annotation <? 40) eqn:L40;
    destruct (confidence annotation <? 70) eqn:L70;
    destruct (confidence annotation <? 90) eqn:L90;
    rewrite ?Z.leb_le, ?Z.leb_gt, ?Z.ltb_lt, ?Z.ltb_ge in *;
    try lia;
    [left | right; left | right; right; left | right; right; right];
    repeat split; try done; lia.
Qed.

(** ** From a selection to a highlight *)

Section SelectionFacts.

Lemma blank_empty : blank "" = true.
Proof. reflexivity. Qed.

Lemma not_blank_not_empty s : blank s = false -> s <> "".
Proof. by intros H ->. Qed.

Lemma length_substring_prefix t i :
  0 <= i <= JS.length t -> JS.length (JS.substring t 0 i) = i.
Proof.
  intros Hi. rewrite substring_prefix by lia. unfold JS.length in *.
  rewrite string_length_take. lia.
Qed.

End SelectionFacts.

(** X12.  A selection inside the text of a leaf comes back as a highlight
    of the same text.  The leaf holds one text node, its [data-start] parses
    and its [data-end] is the start plus the length of the text; the
    selection is not blank, lies in the content, starts at offset [i] of the
    text node and is the text from there on.  Then the handler records the
    range from [data-start + i] for the length of the selection, and the
    loop body, run on the leaf for the user annotation made of that range,
    puts exactly the selected text in the highlighted span. *)
Theorem selection_round_trip tagName attributes (t dataStart : string)
    (s i : Z) (selection : WindowSelection) (clauseInfo : ClauseInfo) :
  let leaf := Element tagName attributes [Text t] in
  let text := selectionText selection in
  getAttribute "data-start" attributes = Some dataStart ->
  JS.truthy dataStart = true ->
  JS.parseInt dataStart = Some s ->
  elEnd attributes = Some (s + JS.length t) ->
  rangeCount selection <> 0%nat ->
  blank text = false ->
  insideContent selection = true ->
  commonAncestorContainer selection = TextContainer (Some leaf) ->
  startOffset selection = i ->
  0 <= i -> i + JS.length text <= JS.length t ->
  text = JS.substring t i (i + JS.length text) ->
  handleSelectionChange (Some selection)
  = Some {| Selected.text := text;
            Selected.start := Some (s + i);
            Selected.end_ := Some (s + i + JS.length text) |}
  /\ exists newElement,
      replacement
        (loopBody (userComment text (s + i) (s + i + JS.length text))
           {| start := s + i; end_ := s + i + JS.length text |}
           clauseInfo leaf)
      = Some newElement
      /\ elementChildren newElement
         = [containedSpan (userComment text (s + i) (s + i + JS.length text))
              {| start := s + i; end_ := s + i + JS.length text |}
              clauseInfo text].
Proof.
  intros leaf text. subst leaf text.
  intros Hds Htruthy Hparse Hend Hcount Hblank Hinside Hcont Hoff Hi Hj Htext.
  assert (Hne : selectionText selection <> "")
    by by apply not_blank_not_empty.
  assert (Hlen : 0 < JS.length (selectionText selection)).
  { unfold JS.length. destruct (selectionText selection); [done | simpl; lia]. }
  assert (Htc : textContent (Element tagName attributes [Text t]) = t)
    by apply string_append_empty_r.
  split.
  - unfold handleSelectionChange.
    destruct (rangeCount selection) as [|n] eqn:Hn; [done |].
    rewrite Hblank, Hinside, Hcont. cbn [Nat.eqb orb closestElement].
    rewrite Hds, Htruthy, Hparse, Hoff, Htc.
    rewrite length_substring_prefix by lia. reflexivity.
  - unfold loopBody.
    assert (Hstart : elStart attributes = Some s).
    { unfold elStart, attributeOrZero. by rewrite Hds, Htruthy. }
    rewrite Hstart, Hend. cbn [start end_].
    rewrite classify_Contained_intro by lia.
    rewrite Htc.
    replace (s + i - s) with i by lia.
    replace (s + i + JS.length (selectionText selection) - s)
      with (i + JS.length (selectionText selection)) by lia.
    rewrite <- Htext.
    destruct ((i + JS.length (selectionText selection) <=? i)
              || (JS.length t <=? i)) eqn:Hguard.
    { apply orb_prop in Hguard as [H|H]; apply Z.leb_le in H; lia. }
    rewrite (proj2 (truthy_true _) Hne). cbn [negb].
    eexists. split; [reflexivity |].
    rewrite !textChild_optionalText. by apply elementChildren_splice.
Qed.

Lemma selection_round_trip_witness :
  (getAttribute "data-start" (attributesOf Examples.sentenceLeaf) = Some "0"
   /\ JS.truthy "0" = true
   /\ JS.parseInt "0" = Some 0
   /\ elEnd (attributesOf Examples.sentenceLeaf)
      = Some (0 + JS.length Examples.sentence)
   /\ rangeCount Examples.lawsSelection <> 0%nat
   /\ blank (selectionText Examples.lawsSelection) = false
   /\ insideContent Examples.lawsSelection = true
   /\ commonAncestorContainer Examples.lawsSelection
      = TextContainer
          (Some (Element "span" (attributesOf Examples.sentenceLeaf)
                   [Text Examples.sentence]))
   /\ startOffset Examples.lawsSelection = 34
   /\ 0 <= 34
   /\ 34 + JS.length (selectionText Examples.lawsSelection)
      <= JS.length Examples.sentence
   /\ selectionText Examples.lawsSelection
      = JS.substring Examples.sentence 34
          (34 + JS.length (selectionText Examples.lawsSelection)))
  /\ handleSelectionChange (Some Examples.lawsSelection)
     = Some {| Selected.text := "laws of Delaware";
               Selected.start := Some 34;
               Selected.end_ := Some 50 |}.
Proof.
  assert (H1 : getAttribute "data-start" (attributesOf Examples.sentenceLeaf)
               = Some "0") by (vm_compute; reflexivity).
  assert (H2 : JS.truthy "0" = true) by reflexivity.
  assert (H3 : JS.parseInt "0" = Some 0) by (vm_compute; reflexivity).
  assert (H4 : elEnd (attributesOf Examples.sentenceLeaf)
               = Some (0 + JS.length Examples.sentence))
    by (vm_compute; reflexivity).
  assert (H5 : rangeCount Examples.lawsSelection <> 0%nat)
    by (simpl; lia).
  assert (H6 : blank (selectionText Examples.lawsSelection) = false)
    by (vm_compute; reflexivity).
  assert (H7 : insideContent Examples.lawsSelection = true) by reflexivity.
  assert (H8 : commonAncestorContainer Examples.lawsSelection
               = TextContainer
                   (Some (Element "span" (attributesOf Examples.sentenceLeaf)
                            [Text Examples.sentence]))) by reflexivity.
  assert (H9 : startOffset Examples.lawsSelection = 34) by reflexivity.
  assert (H10 : 0 <= 34) by lia.
  assert (H11 : 34 + JS.length (selectionText Examples.lawsSelection)
                <= JS.length Examples.sentence)
    by (vm_compute; congruence).
  assert (H12 : selectionText Examples.lawsSelection
                = JS.substring Examples.sentence 34
                    (34 + JS.length (selectionText Examples.lawsSelection)))
    by (vm_compute; reflexivity).
  split; [done |].
  exact (proj1
    (selection_round_trip "span" (attributesOf Examples.sentenceLeaf)
       Examples.sentence "0" 0 34 Examples.lawsSelection
       Examples.governingLaw H1 H2 H3 H4 H5 H6 H7 H8 H9 H10 H11 H12)).
Defined.

Section LostSelectionFacts.

(** The spans the splicer makes carry no [data-start]. *)
Lemma span_without_range annotation p clauseInfo t :
  getAttribute "data-start"
    (attributesOf (containedSpan annotation p clauseInfo t)) = None
  /\ getAttribute "data-start"
       (attributesOf (overlapSpan annotation p clauseInfo t)) = None.
Proof. split; reflexivity. Qed.

End LostSelectionFacts.

(** X13.  A selection whose closest element carries no [data-start], as
    every highlighted span, is recorded at the offsets 0 and 0, and the
    user annotation made of it is never rendered: the pass leaves every
    body as it is for it. *)
Theorem selection_without_range_start_is_lost (selection : WindowSelection)
    (catalog : gmap string ClauseInfo) (body : list Node) :
  rangeCount selection <> 0%nat ->
  blank (selectionText selection) = false ->
  insideContent selection = true ->
  (forall element,
      closestElement (commonAncestorContainer selection) = Some element ->
      getAttribute "data-start" (attributesOf element) = None) ->
  handleSelectionChange (Some selection)
  = Some {| Selected.text := selectionText selection;
            Selected.start := Some 0;
            Selected.end_ := Some 0 |}
  /\ fst (forEachBody catalog body (userComment (selectionText selection) 0 0))
     = body.
Proof.
  intros Hcount Hblank Hinside Hnone. split.
  - unfold handleSelectionChange.
    destruct (rangeCount selection) as [|n]; [done |].
    rewrite Hblank, Hinside. cbn [Nat.eqb orb].
    destruct (closestElement _) as [[data|tagName attributes childNodes]|]
      eqn:Hc; try done.
    specialize (Hnone _ eq_refl). simpl in Hnone. by rewrite Hnone.
  - apply forEachBody_illFormed. unfold illFormed. simpl. lia.
Qed.

Lemma selection_without_range_start_is_lost_witness :
  (rangeCount Examples.selectionInHighlight <> 0%nat
   /\ blank (selectionText Examples.selectionInHighlight) = false
   /\ insideContent Examples.selectionInHighlight = true
   /\ (forall element,
         closestElement
           (commonAncestorContainer Examples.selectionInHighlight)
         = Some element ->
         getAttribute "data-start" (attributesOf element) = None))
  /\ handleSelectionChange (Some Examples.selectionInHighlight)
     = Some {| Selected.text := "of";
               Selected.start := Some 0;
               Selected.end_ := Some 0 |}.
Proof.
  assert (H1 : rangeCount Examples.selectionInHighlight <> 0%nat)
    by (simpl; lia).
  assert (H2 : blank (selectionText Examples.selectionInHighlight) = false)
    by (vm_compute; reflexivity).
  assert (H3 : insideContent Examples.selectionInHighlight = true)
    by reflexivity.
  assert (H4 : forall element,
             closestElement
               (commonAncestorContainer Examples.selectionInHighlight)
             = Some element ->
             getAttribute "data-start" (attributesOf element) = None).
  { intros element [= <-]. reflexivity. }
  split; [done |].
  exact (proj1
    (selection_without_range_start_is_lost Examples.selectionInHighlight
       Examples.catalog [] H1 H2 H3 H4)).
Defined.

Section UserCommentFacts.

Lemma addAll_types_from prev comments :
  Forall (fun a => type a = "review-comments") prev ->
  Forall (fun a => type a = "review-comments")
    (fold_left
       (fun prev c =>
          addUserAnnotation prev (fst (fst c)) (snd (fst c)) (snd c))
       comments prev).
Proof.
  revert prev. induction comments as [|c comments IH]; intros prev Hprev;
    simpl; [done |].
  apply IH. unfold addUserAnnotation. apply List.Forall_app. split; [done |].
  by constructor.
Qed.

Lemma filter_none {A} (f : A -> bool) (l : list A) :
  Forall (fun a => f a = false) l -> List.filter f l = [].
Proof.
  induction 1 as [|a l Ha _ IH]; simpl; [done |]. by rewrite Ha.
Qed.

End UserCommentFacts.

(** X14.  With the catalog of the document page, whose keys are the
    initial filters, and whatever buttons of it were clicked, the comments
    the user added are never rendered: the pass gives the same body and the
    same log as without them. *)
Theorem user_comments_are_never_rendered (document : Document)
    (clicks : list string) (comments : list (string * Z * Z)) :
  Forall (fun k => is_Some (CLAUSES !! k)) clicks ->
  processContent document CLAUSES (toggleAll initialFilters clicks)
    (addAll comments)
  = processContent document CLAUSES (toggleAll initialFilters clicks) [].
Proof.
  intros Hclicks.
  assert (Hkeys : Forall (fun k => is_Some (CLAUSES !! k))
                    (toggleAll initialFilters clicks)).
  { apply toggleAll_Forall; [| done]. unfold initialFilters. simpl.
    repeat (constructor; [eexists; vm_compute; reflexivity |]).
    constructor. }
  assert (Hnone : List.filter (isActive (toggleAll initialFilters clicks))
                    (addAll comments) = []).
  { apply filter_none.
    eapply List.Forall_impl; [| apply (addAll_types_from [] comments);
                                 constructor].
    intros a Ha. simpl in Ha.
    destruct (isActive _ a) eqn:Hact; [| done].
    apply isActive_In in Hact. rewrite Ha in Hact.
    rewrite List.Forall_forall in Hkeys. apply Hkeys in Hact.
    destruct Hact as [info Hinfo]. vm_compute in Hinfo. done. }
  unfold processContent, visibleAnnotations. by rewrite Hnone.
Qed.

Lemma user_comments_are_never_rendered_witness :
  Forall (fun k => is_Some (CLAUSES !! k)) ["assignment"]
  /\ processContent (Examples.html [Examples.adjacentLeft; Examples.adjacentRight] [Examples.noWaiver]) CLAUSES
       (toggleAll initialFilters ["assignment"])
       (addAll [("laws of Delaware", 34, 50)])
     = processContent (Examples.html [Examples.adjacentLeft; Examples.adjacentRight] [Examples.noWaiver]) CLAUSES
         (toggleAll initialFilters ["assignment"]) [].
Proof.
  assert (H : Forall (fun k => is_Some (CLAUSES !! k)) ["assignment"]).
  { repeat (constructor; [eexists; vm_compute; reflexivity |]).
    constructor. }
  split; [done |].
  exact (user_comments_are_never_rendered (Examples.html [Examples.adjacentLeft; Examples.adjacentRight] [Examples.noWaiver]) ["assignment"]
           [("laws of Delaware", 34, 50)] H).
Defined.

Section DetectedCardFacts.

Lemma filter_disjoint_union {A} (p q : A -> bool) (l : list A) :
  (forall a, p a = true -> q a = true -> False) ->
  Permutation (List.filter (fun a => p a || q a) l)
    (List.filter p l ++ List.filter q l).
Proof.
  intros Hdisjoint. induction l as [|a l IH]; simpl; [done |].
  destruct (p a) eqn:Hp, (q a) eqn:Hq; simpl.
  - destruct (Hdisjoint a Hp Hq).
  - by apply perm_skip.
  - etransitivity; [apply perm_skip, IH |]. apply Permutation_middle.
  - done.
Qed.

Lemma cards_by_key (keys : list string) (l : list Annotation) :
  List.NoDup keys ->
  Permutation (flat_map (fun k => List.filter (ofType k) l) keys)
    (List.filter
       (fun c =>
          existsb
            (String.eqb (convertClauseTypeToFrontendFormat (type c))) keys)
       l).
Proof.
  induction 1 as [|k keys Hk _ IH]; simpl.
  - by rewrite filter_none; [| apply List.Forall_forall].
  - etransitivity; [apply Permutation_app_head, IH |]. symmetry.
    apply (filter_disjoint_union (ofType k)).
    intros c Hc%String.eqb_eq Hin%includes_In. by rewrite Hc in Hin.
Qed.

Lemma map_when_nonempty {A B} (f : A -> B) (l : list A) :
  (if (0 <? List.length l)%nat then map f l else []) = map f l.
Proof. by destruct l. Qed.

Lemma cards_annotations entries activeFilters document :
  map fst (detectedCards entries activeFilters document)
  = flat_map (fun k => List.filter (ofType k) (clauses document))
      (List.filter (fun k => existsb (String.eqb k) activeFilters)
         (map fst entries)).
Proof.
  unfold detectedCards.
  destruct (List.length (clauses document) =? 0)%nat eqn:Hlen.
  - apply Nat.eqb_eq, List.length_zero_iff_nil in Hlen. rewrite Hlen.
    simpl.
    induction (List.filter _ (map fst entries)) as [|k keys IH]; simpl;
      [done | exact IH].
  - clear Hlen. induction entries as [|[k info] entries IH]; simpl; [done |].
    destruct (existsb (String.eqb k) activeFilters); simpl; [| done].
    rewrite List.map_app, IH, map_when_nonempty, List.map_map. simpl.
    by rewrite List.map_id.
Qed.

End DetectedCardFacts.

(** X15.  When the keys of the catalog are distinct and the active filters
    are keys of it, the cards beside the document show the detected clauses
    the pass over the content is given, each once, and every card is drawn
    with the catalog entry the pass looks up for its clause. *)
Theorem cards_are_the_visible_detected (entries : list (string * ClauseInfo))
    (activeFilters : list string) (document : Document) :
  List.NoDup (map fst entries) ->
  Forall (fun k => In k (map fst entries)) activeFilters ->
  Permutation (map fst (detectedCards entries activeFilters document))
    (List.filter (isActive activeFilters) (clauses document))
  /\ Forall
       (fun card =>
          (list_to_map entries : gmap string ClauseInfo)
            !! convertClauseTypeToFrontendFormat (type (fst card))
          = Some (snd card))
       (detectedCards entries activeFilters document).
Proof.
  intros Hnodup Hkeys. split.
  - rewrite cards_annotations.
    etransitivity; [apply cards_by_key; by apply List.NoDup_filter |].
    erewrite List.filter_ext; [reflexivity |].
    intros c. apply eq_true_iff_eq.
    rewrite includes_In, isActive_In, List.filter_In, includes_In.
    rewrite List.Forall_forall in Hkeys. split; [by intros [_ ?] |].
    intros Hin. split; [by apply Hkeys | done].
  - apply List.Forall_forall. intros [c info] Hcard. simpl.
    unfold detectedCards in Hcard.
    destruct (_ =? _)%nat; [done |].
    apply List.in_flat_map in Hcard as ([k info'] & Hentry & Hcard).
    apply List.filter_In in Hentry as [Hentry _]. simpl in Hcard.
    destruct (0 <? _)%nat; [| done].
    apply List.in_map_iff in Hcard as (c' & [= -> ->] & Hc).
    apply List.filter_In in Hc as [_ Hc%String.eqb_eq]. rewrite Hc.
    apply elem_of_list_to_map_1.
    + by apply NoDup_ListNoDup.
    + by apply list_elem_of_In.
Qed.

Lemma cards_are_the_visible_detected_witness :
  (List.NoDup (map fst Examples.catalogEntries)
   /\ Forall (fun k => In k (map fst Examples.catalogEntries))
        ["governing-law"])
  /\ Permutation
       (map fst
          (detectedCards Examples.catalogEntries ["governing-law"]
             Examples.twoClauses))
       (List.filter (isActive ["governing-law"])
          (clauses Examples.twoClauses)).
Proof.
  assert (H1 : List.NoDup (map fst Examples.catalogEntries)).
  { simpl. repeat constructor; simpl; intuition congruence. }
  assert (H2 : Forall (fun k => In k (map fst Examples.catalogEntries))
                 ["governing-law"]).
  { repeat constructor. }
  split; [done |].
  exact (proj1
    (cards_are_the_visible_detected Examples.catalogEntries
       ["governing-law"] Examples.twoClauses H1 H2)).
Defined.

Section DisplayNameFacts.

Lemma getAttribute_In key table value :
  getAttribute key table = Some value -> In (key, value) table.
Proof.
  induction table as [|[k v] table IH]; simpl; [done |].
  destruct (String.eqb k key) eqn:Hk.
  - apply String.eqb_eq in Hk as ->. intros [= ->]. by left.
  - intros H. right. by apply IH.
Qed.

Lemma capitalized_again w c :
  capitalized w (capitalized w c) = capitalized w c
  /\ isWordChar (capitalized w c) = isWordChar c.
Proof.
  destruct w, c as [[] [] [] [] [] [] [] []]; split; reflexivity.
Qed.

Lemma capitalized_no_underscore w c :
  Ascii.eqb c "_" = false -> Ascii.eqb (capitalized w c) "_" = false.
Proof.
  destruct w, c as [[] [] [] [] [] [] [] []]; intros H; try reflexivity;
    discriminate H.
Qed.

Lemma capitalizeWords_again w s :
  capitalizeWords w (capitalizeWords w s) = capitalizeWords w s.
Proof.
  revert w. induction s as [|c s IH]; intros w; simpl; [done |].
  fold (capitalized w c).
  destruct (capitalized_again w c) as [Hc Hw].
  fold (capitalized w (capitalized w c)). rewrite Hc, Hw. f_equal. apply IH.
Qed.

Lemma occurs_capitalizeWords w s :
  occurs "_" s = false -> occurs "_" (capitalizeWords w s) = false.
Proof.
  revert w. induction s as [|c s IH]; intros w; simpl; [done |].
  intros [Hc Hs]%orb_false_iff. fold (capitalized w c).
  apply orb_false_iff. split; [| by apply IH].
  by apply capitalized_no_underscore.
Qed.

Lemma occurs_replaced (a b : ascii) s :
  Ascii.eqb a b = false -> occurs a (replaceAll a b s) = false.
Proof.
  intros Hab. induction s as [|c s IH]; simpl; [done |].
  apply orb_false_iff. split; [| done].
  destruct (Ascii.eqb c a) eqn:Hc; [| done]. by rewrite Ascii.eqb_sym.
Qed.

Lemma replaceAll_absent (a b : ascii) s :
  occurs a s = false -> replaceAll a b s = s.
Proof.
  induction s as [|c s IH]; simpl; [done |].
  intros [Hc Hs]%orb_false_iff. by rewrite (IH Hs), Hc.
Qed.

Lemma fallbackDisplayName_again s :
  fallbackDisplayName (fallbackDisplayName s) = fallbackDisplayName s.
Proof.
  unfold fallbackDisplayName.
  rewrite (replaceAll_absent "_" " " (capitalizeWords false _)).
  - apply capitalizeWords_again.
  - by apply occurs_capitalizeWords, occurs_replaced.
Qed.

Lemma fallbackDisplayName_start s : startsSmall (fallbackDisplayName s) = false.
Proof.
  destruct s as [|c s]; [done |].
  unfold fallbackDisplayName. simpl.
  destruct c as [[] [] [] [] [] [] [] []]; reflexivity.
Qed.

Lemma not_small_not_a_key s :
  startsSmall s = false ->
  ownProperty s displayNames = None
  /\ existsb (String.eqb s) inheritedNames = false.
Proof.
  destruct s as [|c s]; [done |].
  destruct c as [[] [] [] [] [] [] [] []]; intros H;
    try discriminate H; split; reflexivity.
Qed.

End DisplayNameFacts.

(** X16.  A display name is its own display name: what
    [getClauseDisplayName] gives for a clause type, it gives again for the
    name it gave, for every clause type but [limitation_of_liability],
    whose name has a word in small letters. *)
Theorem display_name_is_stable (clauseType displayName : string) :
  getClauseDisplayName clauseType = Some displayName ->
  clauseType <> "limitation_of_liability" ->
  getClauseDisplayName displayName = Some displayName.
Proof.
  unfold getClauseDisplayName at 1. intros Hname Hother.
  destruct (ownProperty clauseType displayNames) as [d|] eqn:Hown.
  - injection Hname as ->. apply getAttribute_In in Hown. simpl in Hown.
    repeat (destruct Hown as [[= <- <-]|Hown]; [try done |]); done.
  - destruct (existsb _ inheritedNames); [done |]. injection Hname as <-.
    unfold getClauseDisplayName.
    destruct (not_small_not_a_key _ (fallbackDisplayName_start clauseType))
      as [-> ->].
    by rewrite fallbackDisplayName_again.
Qed.

Lemma display_name_is_stable_witness :
  (getClauseDisplayName "termination_for_cause"
   = Some "Termination For Cause"
   /\ "termination_for_cause" <> "limitation_of_liability")
  /\ getClauseDisplayName "Termination For Cause"
     = Some "Termination For Cause".
Proof.
  assert (H1 : getClauseDisplayName "termination_for_cause"
               = Some "Termination For Cause") by (vm_compute; reflexivity).
  assert (H2 : "termination_for_cause" <> "limitation_of_liability")
    by congruence.
  split; [done |].
  exact (display_name_is_stable "termination_for_cause"
           "Termination For Cause" H1 H2).
Defined.

(** The name of the table for [limitation_of_liability] is not stable. *)
Example limitation_of_liability_not_stable :
  getClauseDisplayName "limitation_of_liability"
  = Some "Limitation of Liability"
  /\ getClauseDisplayName "Limitation of Liability"
     = Some "Limitation Of Liability".
Proof. split; vm_compute; reflexivity. Qed.

(** X17.  The helpers of the API module agree with the catalog of the
    document page: for every key of the catalog, the display name and the
    colour of its backend form are the name and the colour of its entry. *)
Theorem display_helpers_agree_with_catalog (k : string) (info : ClauseInfo) :
  CLAUSES !! k = Some info ->
  getClauseDisplayName (convertClauseTypeToBackendFormat k) = Some (name info)
  /\ getClauseColor (convertClauseTypeToBackendFormat k) = Some (color info).
Proof.
  intros Hk. apply elem_of_list_to_map_2, list_elem_of_In in Hk.
  simpl in Hk.
  repeat (destruct Hk as [[= <- <-]|Hk]; [split; vm_compute; reflexivity |]).
  done.
Qed.

Lemma display_helpers_agree_with_catalog_witness :
  CLAUSES !! "no-waiver" = Some {| name := "No Waiver"; color := "#14B8A6" |}
  /\ getClauseDisplayName "no_waiver" = Some "No Waiver"
  /\ getClauseColor "no_waiver" = Some "#14B8A6".
Proof.
  assert (H : CLAUSES !! "no-waiver"
              = Some {| name := "No Waiver"; color := "#14B8A6" |})
    by (vm_compute; reflexivity).
  split; [done |].
  exact (display_helpers_agree_with_catalog "no-waiver" _ H).
Defined.
